(** * Nuclex.Support.Native: the .ini document model

    A shallow embedding of the .ini file parser
    ([IniDocumentModel::FileParser], IniDocumentModel.FileParser.cpp), of
    the memory estimator ([IniDocumentModel::estimateRequiredMemory] with its
    [MemoryEstimator], IniDocumentModel.cpp) and of the document itself
    (its constructors and destructor, [allocateLine], [freeLine],
    [parseFileContents] with its [ModelBuilder], IniDocumentModel.cpp),
    followed by the properties of the document model that hold on this code
    and the inputs on which the code departs from them.

    Conventions of the embedding (an LP64 target is assumed):
    - the file is a [list byte]; a pointer into it is its offset from
      [fileBegin] (a [nat]), a pointer that may be [nullptr] is an
      [option nat];
    - [std::size_t] values are [Z] reduced modulo [2^64] where the code
      computes them;
    - a loop [while(parsePosition < fileEnd)] becomes a structural recursion
      over the bytes from [parsePosition] to [fileEnd], the list [rest]
      below; the position itself stays in the parser state;
    - a byte read from beyond [fileEnd] has no defined value: it is [None]
      in the copied [Contents] of a line. *)

From Stdlib Require Import List ZArith Lia Bool Strings.Byte String Arith.
From stdpp Require Import gmap strings.
Import ListNotations.

Local Open Scope Z_scope.

(** ** Bytes *)

Definition newline : byte := x0a.
Definition tab : byte := x09.
Definition carriageReturn : byte := x0d.
Definition space : byte := x20.
Definition quote : byte := x22.
Definition hash : byte := x23.
Definition semicolon : byte := x3b.
Definition equalsSign : byte := x3d.
Definition openBracket : byte := x5b.
Definition closeBracket : byte := x5d.

(** The text of a file given as a string literal. *)
Definition bytes (s : string) : list byte := list_byte_of_string s.

(** [isWhitepace] of both translation units. *)
Definition isWhitepace (utf8SingleByteCharacter : byte) : bool :=
  Byte.eqb utf8SingleByteCharacter space
  || Byte.eqb utf8SingleByteCharacter tab
  || Byte.eqb utf8SingleByteCharacter carriageReturn
  || Byte.eqb utf8SingleByteCharacter newline.

(** ** [std::size_t] and the layout of the record types *)

Definition to_size_t (z : Z) : Z := z mod 2 ^ 64.

(** Difference of two pointers into the file, stored in a [std::size_t]. *)
Definition ptrdiff (a b : nat) : Z := to_size_t (Z.of_nat a - Z.of_nat b).

Record TypeLayout := { sizeOf : Z; alignOf : Z }.

(** [struct Line]: two pointers, a pointer and a [std::size_t]. *)
Definition LineLayout : TypeLayout := {| sizeOf := 32; alignOf := 8 |}.
(** [struct SectionLine : Line]: two more [std::size_t]. *)
Definition SectionLineLayout : TypeLayout := {| sizeOf := 48; alignOf := 8 |}.
(** [struct PropertyLine : Line]: four more [std::size_t]. *)
Definition PropertyLineLayout : TypeLayout := {| sizeOf := 64; alignOf := 8 |}.

(** [getSizePlusAlignmentPadding<T>()]. *)
Definition getSizePlusAlignmentPadding (T : TypeLayout) : Z :=
  let misalignment := sizeOf T mod alignOf T in
  if 0 <? misalignment then sizeOf T + (alignOf T - misalignment)
  else sizeOf T.

(** [growUntilAligned(byteCount, alignment)], on a [std::size_t]. *)
Definition growUntilAligned (byteCount alignment : Z) : Z :=
  let extraByteCount := byteCount mod alignment in
  if 0 <? extraByteCount then to_size_t (byteCount + (alignment - extraByteCount))
  else byteCount.

(** ** The lines of a document *)

(** The four classifications of a logical line: Plain, Section, Property
    and Malformed. *)
Inductive LineKind := KPlain | KSection | KProperty | KMalformed.

Definition LineKind_eqb (a b : LineKind) : bool :=
  match a, b with
  | KPlain, KPlain | KSection, KSection | KProperty, KProperty
  | KMalformed, KMalformed => true
  | _, _ => false
  end.

(** [struct Line]. [Contents] are the [Length] bytes copied behind the
    record; [Previous] and [Next] are never written by the parser. *)
Record Line := { Contents : list (option byte); Length : Z }.

Module SectionLine.
Record t := { base : Line; NameStartIndex : Z; NameLength : Z }.
End SectionLine.

Module PropertyLine.
(** [ValueLength] is [None] when the code computes it from a null
    pointer ([valueEnd - nameStart] with [nameStart == nullptr]). *)
Record t := {
  base : Line;
  NameStartIndex : Z; NameLength : Z;
  ValueStartIndex : Z; ValueLength : option Z }.
End PropertyLine.

(** A record as [submitLine] produces it: the branch taken is the line's
    classification, the record type is the one the branch allocates. *)
Inductive LineRecord :=
| PlainRecord (l : Line)
| MalformedRecord (l : Line)
| SectionRecord (s : SectionLine.t)
| PropertyRecord (p : PropertyLine.t).

Definition kindOf (r : LineRecord) : LineKind :=
  match r with
  | PlainRecord _ => KPlain
  | MalformedRecord _ => KMalformed
  | SectionRecord _ => KSection
  | PropertyRecord _ => KProperty
  end.

Definition lineOf (r : LineRecord) : Line :=
  match r with
  | PlainRecord l | MalformedRecord l => l
  | SectionRecord s => SectionLine.base s
  | PropertyRecord p => PropertyLine.base p
  end.

Definition layoutOf (k : LineKind) : TypeLayout :=
  match k with
  | KPlain | KMalformed => LineLayout
  | KSection => SectionLineLayout
  | KProperty => PropertyLineLayout
  end.

(** The bytes [Contents[start .. start + length)] of a line. *)
Definition slice (l : Line) (start length : Z) : list (option byte) :=
  firstn (Z.to_nat length) (skipn (Z.to_nat start) (Contents l)).

(** The name a Section or Property record designates. *)
Definition nameOf (r : LineRecord) : list (option byte) :=
  match r with
  | SectionRecord s =>
      slice (SectionLine.base s) (SectionLine.NameStartIndex s) (SectionLine.NameLength s)
  | PropertyRecord p =>
      slice (PropertyLine.base p) (PropertyLine.NameStartIndex p) (PropertyLine.NameLength p)
  | _ => []
  end.

(** ** The document model and its memory *)

(** A pointer to allocated memory: the block obtained from [new] (none when
    the code indexes an empty vector) and the offset into it. *)
Record Ptr := { ptrBlock : option nat; ptrOffset : Z }.

Record IniDocumentModel := {
  (** the blocks obtained from [new] that have not been deleted, and their
      sizes: the arrays [new std::uint8_t[n]] and the objects [new Line()] *)
  heap : gmap nat Z;
  (** [std::vector<std::uint8_t *>]: the chunks lines are carved from *)
  loadedLinesMemory : list nat;
  (** [std::unordered_set<std::uint8_t *>]: blocks freed individually *)
  createdLinesMemory : gset nat;
  (** [SectionMap]: section name to its [IndexedSection] *)
  sections : gmap string Ptr;
  (** the line records written into the allocated memory, oldest first *)
  lineRecords : list (Ptr * LineRecord) }.

(** [IniDocumentModel::IniDocumentModel(fileContents, byteCount)] and the
    default constructor leave [sections()] empty. *)
Definition emptyDocument : IniDocumentModel :=
  {| heap := ∅; loadedLinesMemory := []; createdLinesMemory := ∅;
     sections := ∅; lineRecords := [] |}.

Definition storedLines (d : IniDocumentModel) : list LineRecord :=
  map snd (lineRecords d).

(** Concatenation of every line's [Contents], in list order. *)
Definition reconstruct (lines : list LineRecord) : list (option byte) :=
  concat (map (fun r => Contents (lineOf r)) lines).

(** [new std::uint8_t[byteCount]]: a block no live pointer refers to. *)
Definition freshBlock (d : IniDocumentModel) : nat := fresh (dom (heap d)).

Definition AllocationChunkSize : Z := 4096.

(** ** [IniDocumentModel::FileParser] *)

Module FileParser.

(** The parser while [ParseInto] runs. [fileBegin] is offset 0 and
    [fileEnd] is [length fileContents]. *)
Record t := {
  target : IniDocumentModel;
  remainingChunkByteCount : Z;
  currentSection : option Ptr;
  parsePosition : nat;
  lineStart : nat;
  nameStart : option nat;
  nameEnd : option nat;
  valueStart : option nat;
  valueEnd : option nat;
  sectionFound : bool;
  equalsSignFound : bool;
  lineIsMalformed : bool }.

Definition with_memory (d : IniDocumentModel) (r : Z) (p : t) : t :=
  {| target := d; remainingChunkByteCount := r;
     currentSection := currentSection p;
     parsePosition := parsePosition p; lineStart := lineStart p;
     nameStart := nameStart p; nameEnd := nameEnd p;
     valueStart := valueStart p; valueEnd := valueEnd p;
     sectionFound := sectionFound p; equalsSignFound := equalsSignFound p;
     lineIsMalformed := lineIsMalformed p |}.

Definition with_parsePosition (n : nat) (p : t) : t :=
  {| target := target p; remainingChunkByteCount := remainingChunkByteCount p;
     currentSection := currentSection p;
     parsePosition := n; lineStart := lineStart p;
     nameStart := nameStart p; nameEnd := nameEnd p;
     valueStart := valueStart p; valueEnd := valueEnd p;
     sectionFound := sectionFound p; equalsSignFound := equalsSignFound p;
     lineIsMalformed := lineIsMalformed p |}.

Definition with_name (s e : option nat) (p : t) : t :=
  {| target := target p; remainingChunkByteCount := remainingChunkByteCount p;
     currentSection := currentSection p;
     parsePosition := parsePosition p; lineStart := lineStart p;
     nameStart := s; nameEnd := e;
     valueStart := valueStart p; valueEnd := valueEnd p;
     sectionFound := sectionFound p; equalsSignFound := equalsSignFound p;
     lineIsMalformed := lineIsMalformed p |}.

Definition with_value (s e : option nat) (p : t) : t :=
  {| target := target p; remainingChunkByteCount := remainingChunkByteCount p;
     currentSection := currentSection p;
     parsePosition := parsePosition p; lineStart := lineStart p;
     nameStart := nameStart p; nameEnd := nameEnd p;
     valueStart := s; valueEnd := e;
     sectionFound := sectionFound p; equalsSignFound := equalsSignFound p;
     lineIsMalformed := lineIsMalformed p |}.

Definition with_sectionFound (b : bool) (p : t) : t :=
  {| target := target p; remainingChunkByteCount := remainingChunkByteCount p;
     currentSection := currentSection p;
     parsePosition := parsePosition p; lineStart := lineStart p;
     nameStart := nameStart p; nameEnd := nameEnd p;
     valueStart := valueStart p; valueEnd := valueEnd p;
     sectionFound := b; equalsSignFound := equalsSignFound p;
     lineIsMalformed := lineIsMalformed p |}.

Definition with_equalsSignFound (b : bool) (p : t) : t :=
  {| target := target p; remainingChunkByteCount := remainingChunkByteCount p;
     currentSection := currentSection p;
     parsePosition := parsePosition p; lineStart := lineStart p;
     nameStart := nameStart p; nameEnd := nameEnd p;
     valueStart := valueStart p; valueEnd := valueEnd p;
     sectionFound := sectionFound p; equalsSignFound := b;
     lineIsMalformed := lineIsMalformed p |}.

Definition with_lineIsMalformed (b : bool) (p : t) : t :=
  {| target := target p; remainingChunkByteCount := remainingChunkByteCount p;
     currentSection := currentSection p;
     parsePosition := parsePosition p; lineStart := lineStart p;
     nameStart := nameStart p; nameEnd := nameEnd p;
     valueStart := valueStart p; valueEnd := valueEnd p;
     sectionFound := sectionFound p; equalsSignFound := equalsSignFound p;
     lineIsMalformed := b |}.

(** [++this->parsePosition]. *)
Definition advance (p : t) : t := with_parsePosition (S (parsePosition p)) p.

Definition isSet (pointer : option nat) : bool :=
  match pointer with Some _ => true | None => false end.

(** *** Memory *)

(** [allocateChunked<T>(extraByteCount)]. *)
Definition allocateChunked (T : TypeLayout) (extraByteCount : Z) (p : t) : Ptr * t :=
  let d := target p in
  let totalByteCount := to_size_t (getSizePlusAlignmentPadding T + extraByteCount) in
  if to_size_t (totalByteCount * 2) <? AllocationChunkSize then
    if remainingChunkByteCount p <? totalByteCount then
      let newChunk := freshBlock d in
      let d' :=
        {| heap := <[newChunk := AllocationChunkSize]> (heap d);
           loadedLinesMemory := loadedLinesMemory d ++ [newChunk];
           createdLinesMemory := createdLinesMemory d;
           sections := sections d; lineRecords := lineRecords d |} in
      ({| ptrBlock := Some newChunk; ptrOffset := 0 |},
       with_memory d' (to_size_t (AllocationChunkSize - totalByteCount)) p)
    else
      let chunkCount := length (loadedLinesMemory d) in
      let memory := nth_error (loadedLinesMemory d) (chunkCount - 1) in
      ({| ptrBlock := memory;
          ptrOffset := AllocationChunkSize - remainingChunkByteCount p |},
       with_memory d (to_size_t (remainingChunkByteCount p - totalByteCount)) p)
  else
    let newChunk := freshBlock d in
    let d' :=
      {| heap := <[newChunk := totalByteCount]> (heap d);
         loadedLinesMemory := loadedLinesMemory d;
         createdLinesMemory := {[newChunk]} ∪ createdLinesMemory d;
         sections := sections d; lineRecords := lineRecords d |} in
    ({| ptrBlock := Some newChunk; ptrOffset := 0 |},
     with_memory d' (remainingChunkByteCount p) p).

(** [std::copy_n(contents, byteCount, ...)] out of the file. *)
Definition copy_n (fileContents : list byte) (contents byteCount : nat)
  : list (option byte) :=
  map (fun i => nth_error fileContents i) (seq contents byteCount).

(** [allocateLineChunked<TLine>(contents, byteCount)]: the address of the
    record and its [Line] part. *)
Definition allocateLineChunked (fileContents : list byte) (TLine : TypeLayout)
    (contents : nat) (byteCount : Z) (p : t) : Ptr * Line * t :=
  let '(newLine, p) := allocateChunked TLine byteCount p in
  (newLine,
   {| Contents := copy_n fileContents contents (Z.to_nat byteCount);
      Length := byteCount |},
   p).

(** The record written at [address]. *)
Definition store (address : Ptr) (r : LineRecord) (p : t) : t :=
  let d := target p in
  with_memory
    {| heap := heap d; loadedLinesMemory := loadedLinesMemory d;
       createdLinesMemory := createdLinesMemory d; sections := sections d;
       lineRecords := lineRecords d ++ [(address, r)] |}
    (remainingChunkByteCount p) p.

(** [getOrCreateDefaultSection()]; no function of the parser calls it. *)
Definition getOrCreateDefaultSection (IndexedSection : TypeLayout) (p : t) : Ptr * t :=
  match sections (target p) !! EmptyString with
  | None =>
      let '(newSection, p) := allocateChunked IndexedSection 0 p in
      let d := target p in
      (newSection,
       with_memory
         {| heap := heap d; loadedLinesMemory := loadedLinesMemory d;
            createdLinesMemory := createdLinesMemory d;
            sections := <[EmptyString := newSection]> (sections d);
            lineRecords := lineRecords d |}
         (remainingChunkByteCount p) p)
  | Some section => (section, p)
  end.

(** *** Submitting a line *)

(** [resetState()]. *)
Definition resetState (p : t) : t :=
  {| target := target p; remainingChunkByteCount := remainingChunkByteCount p;
     currentSection := currentSection p;
     parsePosition := parsePosition p; lineStart := parsePosition p;
     nameStart := None; nameEnd := None;
     valueStart := None; valueEnd := None;
     sectionFound := false; equalsSignFound := false;
     lineIsMalformed := false |}.

(** [generatePropertyLine()]. [ValueLength] is computed from [nameStart],
    as the code does. The property is entered in no index. *)
Definition generatePropertyLine (fileContents : list byte) (p : t) : t :=
  let '(address, line, p) :=
    allocateLineChunked fileContents PropertyLineLayout (lineStart p)
      (ptrdiff (parsePosition p) (lineStart p)) p in
  let '(valueStartIndex, valueLength) :=
    match valueStart p, valueEnd p with
    | Some vs, Some ve =>
        (ptrdiff vs (lineStart p),
         match nameStart p with
         | Some ns => Some (ptrdiff ve ns)
         | None => None
         end)
    | _, _ => (0, Some 0)
    end in
  let '(nameStartIndex, nameLength) :=
    match nameStart p, nameEnd p with
    | Some ns, Some ne => (ptrdiff ns (lineStart p), ptrdiff ne ns)
    | _, _ => (0, 0)
    end in
  store address
    (PropertyRecord
       {| PropertyLine.base := line;
          PropertyLine.NameStartIndex := nameStartIndex;
          PropertyLine.NameLength := nameLength;
          PropertyLine.ValueStartIndex := valueStartIndex;
          PropertyLine.ValueLength := valueLength |}) p.

(** [generateSectionLine()]. The lookup and insertion into the section
    index are commented out in the code: [sections] and [currentSection]
    stay as they are. *)
Definition generateSectionLine (fileContents : list byte) (p : t) : t :=
  let '(address, line, p) :=
    allocateLineChunked fileContents SectionLineLayout (lineStart p)
      (ptrdiff (parsePosition p) (lineStart p)) p in
  let '(nameStartIndex, nameLength) :=
    match nameStart p, nameEnd p with
    | Some ns, Some ne => (ptrdiff ns (lineStart p), ptrdiff ne ns)
    | _, _ => (0, 0)
    end in
  store address
    (SectionRecord
       {| SectionLine.base := line;
          SectionLine.NameStartIndex := nameStartIndex;
          SectionLine.NameLength := nameLength |}) p.

(** [new Line()]: a block of [sizeof(Line)] bytes of its own. The pointer
    to it is told to none of the lists of the document. *)
Definition new_Line (p : t) : Ptr * t :=
  let d := target p in
  let block := freshBlock d in
  ({| ptrBlock := Some block; ptrOffset := 0 |},
   with_memory
     {| heap := <[block := sizeOf LineLayout]> (heap d);
        loadedLinesMemory := loadedLinesMemory d;
        createdLinesMemory := createdLinesMemory d; sections := sections d;
        lineRecords := lineRecords d |}
     (remainingChunkByteCount p) p).

(** [submitLine()]. In the malformed branch the code overwrites its local
    pointer [newLine] with a [new Line()] and drops it when it returns: the
    record written into the document's memory is the one
    [allocateLineChunked] has made, and the new [Line] stays allocated. *)
Definition submitLine (fileContents : list byte) (p : t) : t :=
  let p := advance p in
  let p :=
    if lineIsMalformed p then
      let '(address, line, p) :=
        allocateLineChunked fileContents LineLayout (lineStart p)
          (ptrdiff (parsePosition p) (lineStart p)) p in
      let p := store address (MalformedRecord line) p in
      let '(newLine, p) := new_Line p in
      p
    else if equalsSignFound p then generatePropertyLine fileContents p
    else if sectionFound p then generateSectionLine fileContents p
    else
      let '(address, line, p) :=
        allocateLineChunked fileContents LineLayout (lineStart p)
          (ptrdiff (parsePosition p) (lineStart p)) p in
      store address (PlainRecord line) p in
  resetState p.

(** *** The parsing loops

    Each loop below runs over [rest], the bytes from [parsePosition] to
    [fileEnd]: [rest = []] is the loop condition [parsePosition < fileEnd]
    failing, the head of [rest] is [*parsePosition]. *)

(** [parseComment()]. *)
Fixpoint parseComment (rest : list byte) (p : t) : t :=
  match rest with
  | [] => p
  | current :: rest =>
      if Byte.eqb current newline then p
      else parseComment rest (advance p)
  end.

Fixpoint parseMalformedLine_loop (rest : list byte) (p : t) : t :=
  match rest with
  | [] => p
  | current :: rest =>
      if Byte.eqb current newline then p
      else parseMalformedLine_loop rest (advance p)
  end.

(** [parseMalformedLine()]. *)
Definition parseMalformedLine (rest : list byte) (p : t) : t :=
  parseMalformedLine_loop rest (with_lineIsMalformed true p).

(** The loop of [parseName()], with its three local flags. After the
    [submitLine()] of the second opening bracket, which advances
    [parsePosition] itself, the loop advances it once more: the byte behind
    the bracket is stepped over unread. *)
Fixpoint parseName_loop (fileContents rest : list byte)
    (isInQuote quoteEncountered isInSection : bool) (p : t) : t :=
  match rest with
  | [] => p
  | current :: rest' =>
      if isInQuote then
        let isInQuote := negb (Byte.eqb current quote) in
        let p := with_name (nameStart p) (Some (parsePosition p)) p in
        if Byte.eqb current newline then
          if isInQuote then with_lineIsMalformed true p else p
        else
          parseName_loop fileContents rest' isInQuote quoteEncountered isInSection
            (advance p)
      else if Byte.eqb current semicolon || Byte.eqb current hash then
        parseMalformedLine rest p
      else if Byte.eqb current openBracket then
        if isSet (nameStart p) || isInSection then parseMalformedLine rest p
        else if sectionFound p then
          let p := submitLine fileContents p in
          let p := with_name (Some (S (parsePosition p))) (nameEnd p) p in
          match rest' with
          | [] => advance p
          | _ :: rest'' =>
              parseName_loop fileContents rest'' false quoteEncountered true
                (advance p)
          end
        else
          let p := with_name (Some (S (parsePosition p))) (nameEnd p) p in
          parseName_loop fileContents rest' false quoteEncountered true (advance p)
      else if Byte.eqb current closeBracket then
        if negb (isSet (nameStart p)) || negb isInSection then
          parseMalformedLine rest p
        else
          let p := with_name (nameStart p) (Some (parsePosition p)) p in
          let p := with_sectionFound true p in
          parseName_loop fileContents rest' false quoteEncountered false (advance p)
      else if Byte.eqb current quote then
        if isSet (nameStart p) || quoteEncountered then parseMalformedLine rest p
        else
          let p := with_name (Some (S (parsePosition p))) (nameEnd p) p in
          parseName_loop fileContents rest' true true isInSection (advance p)
      else if Byte.eqb current equalsSign then
        if isInSection then parseMalformedLine rest p else p
      else if negb (isWhitepace current) then
        if quoteEncountered then parseMalformedLine rest p
        else
          let p :=
            with_name
              (match nameStart p with
               | None => Some (parsePosition p)
               | Some ns => Some ns
               end)
              (Some (S (parsePosition p))) p in
          parseName_loop fileContents rest' false quoteEncountered isInSection
            (advance p)
      else if Byte.eqb current newline then p
      else
        parseName_loop fileContents rest' false quoteEncountered isInSection
          (advance p)
  end.

(** [parseName()]. *)
Definition parseName (fileContents rest : list byte) (p : t) : t :=
  parseName_loop fileContents rest false false false p.

(** The loop of [parseValue()], with its two local flags. *)
Fixpoint parseValue_loop (rest : list byte)
    (isInQuote quoteEncountered : bool) (p : t) : t :=
  match rest with
  | [] => p
  | current :: rest' =>
      if isInQuote then
        let isInQuote := negb (Byte.eqb current quote) in
        let p := with_value (valueStart p) (Some (parsePosition p)) p in
        if Byte.eqb current newline then
          if isInQuote then with_lineIsMalformed true p else p
        else parseValue_loop rest' isInQuote quoteEncountered (advance p)
      else if Byte.eqb current semicolon || Byte.eqb current hash then
        parseComment rest p
      else if Byte.eqb current quote then
        if isSet (valueStart p) || quoteEncountered then parseMalformedLine rest p
        else
          let p := with_value (Some (S (parsePosition p))) (valueEnd p) p in
          parseValue_loop rest' true true (advance p)
      else if Byte.eqb current equalsSign then parseMalformedLine rest p
      else if negb (isWhitepace current) then
        if quoteEncountered then parseMalformedLine rest p
        else
          let p :=
            with_value
              (match valueStart p with
               | None => Some (parsePosition p)
               | Some vs => Some vs
               end)
              (Some (S (parsePosition p))) p in
          parseValue_loop rest' false quoteEncountered (advance p)
      else if Byte.eqb current newline then p
      else parseValue_loop rest' false quoteEncountered (advance p)
  end.

(** [parseValue()]. *)
Definition parseValue (rest : list byte) (p : t) : t :=
  parseValue_loop rest false false p.

(** The body of the loop of [ParseInto()]: the [switch] on the byte at
    [parsePosition], the head of [rest]. *)
Definition ParseInto_body (fileContents : list byte) (current : byte)
    (rest : list byte) (p : t) : t :=
  if Byte.eqb current hash || Byte.eqb current semicolon then parseComment rest p
  else if Byte.eqb current equalsSign then
    if equalsSignFound p then parseMalformedLine rest p
    else advance (with_equalsSignFound true p)
  else if Byte.eqb current newline then submitLine fileContents p
  else if isWhitepace current then advance p
  else if equalsSignFound p then parseValue rest p
  else parseName fileContents rest p.

(** The loop of [ParseInto()]. [fuel] bounds the number of iterations;
    [None] is a loop still running when it is spent. *)
Fixpoint ParseInto_loop (fileContents : list byte) (fuel : nat) (p : t) : option t :=
  match skipn (parsePosition p) fileContents with
  | [] => Some p
  | current :: rest' =>
      match fuel with
      | O => None
      | S fuel =>
          ParseInto_loop fileContents fuel
            (ParseInto_body fileContents current (current :: rest') p)
      end
  end.

(** The parser [FileParser(fileContents, byteCount)] when [ParseInto] has
    reset it and set [parsePosition = lineStart = fileBegin].
    [remainingChunkByteCount] is the constructor's 0, which [ParseInto]
    does not touch: the parser is one that has parsed nothing before. *)
Definition start (documentModel : IniDocumentModel) : t :=
  {| target := documentModel; remainingChunkByteCount := 0;
     currentSection := None;
     parsePosition := 0; lineStart := 0;
     nameStart := None; nameEnd := None; valueStart := None; valueEnd := None;
     sectionFound := false; equalsSignFound := false; lineIsMalformed := false |}.

(** [ParseInto(documentModel)]: one iteration consumes at least one byte,
    so the loop is given one iteration per byte of the file. *)
Definition ParseInto (fileContents : list byte) (documentModel : IniDocumentModel)
  : option t :=
  match ParseInto_loop fileContents (length fileContents) (start documentModel) with
  | Some p =>
      Some (if (lineStart p <? parsePosition p)%nat then submitLine fileContents p
            else p)
  | None => None
  end.

End FileParser.

(** The lines [ParseInto] stores for a file, parsed into a new document. *)
Definition parse (fileContents : list byte) : option (list LineRecord) :=
  match FileParser.ParseInto fileContents emptyDocument with
  | Some p => Some (storedLines (FileParser.target p))
  | None => None
  end.


(** ** [IniDocumentModel::MemoryEstimator] and [estimateRequiredMemory] *)

Module MemoryEstimator.

(** [endedLines] is not a member of the class: it lists, oldest first, the
    lines [EndLine] has terminated, each with the branch of [EndLine] taken
    and its byte length. No member is computed from it. *)
Record t := {
  ByteCount : Z;
  lineStartPosition : option nat;
  sectionStarted : bool;
  sectionEnded : bool;
  foundAssignment : bool;
  lineIsMalformed : bool;
  endedLines : list (LineKind * Z) }.

(** [MemoryEstimator()]. *)
Definition create : t :=
  {| ByteCount := 0; lineStartPosition := None;
     sectionStarted := false; sectionEnded := false;
     foundAssignment := false; lineIsMalformed := false;
     endedLines := [] |}.

(** The branch [EndLine] takes. *)
Definition lineKind (m : t) : LineKind :=
  if lineIsMalformed m then KMalformed
  else if foundAssignment m then KProperty
  else if sectionStarted m && sectionEnded m then KSection
  else KPlain.

(** [EndLine(filePosition)]; [sizeof(T[2]) / 2] is [sizeof(T)]. The
    difference to a null [lineStartPosition] has no value: [None]. *)
Definition EndLine (filePosition : nat) (m : t) : option t :=
  match lineStartPosition m with
  | None => None
  | Some lineStart =>
      let T := layoutOf (lineKind m) in
      let byteCount := growUntilAligned (ByteCount m) (alignOf T) in
      let byteCount := to_size_t (byteCount + sizeOf T * 2 / 2) in
      let byteCount :=
        to_size_t (byteCount + (Z.of_nat filePosition - Z.of_nat lineStart)) in
      Some {| ByteCount := byteCount;
              lineStartPosition := Some filePosition;
              sectionStarted := false; sectionEnded := false;
              foundAssignment := false; lineIsMalformed := false;
              endedLines :=
                endedLines m
                ++ [(lineKind m, Z.of_nat filePosition - Z.of_nat lineStart)] |}
  end.

Definition with_lineStartPosition (filePosition : nat) (m : t) : t :=
  {| ByteCount := ByteCount m; lineStartPosition := Some filePosition;
     sectionStarted := sectionStarted m; sectionEnded := sectionEnded m;
     foundAssignment := foundAssignment m; lineIsMalformed := lineIsMalformed m;
     endedLines := endedLines m |}.

(** [BeginLine(filePosition)]. *)
Definition BeginLine (filePosition : nat) (m : t) : option t :=
  match lineStartPosition m with
  | Some _ =>
      match EndLine filePosition m with
      | Some m => Some (with_lineStartPosition filePosition m)
      | None => None
      end
  | None => Some (with_lineStartPosition filePosition m)
  end.

Definition with_sectionStarted (m : t) : t :=
  {| ByteCount := ByteCount m; lineStartPosition := lineStartPosition m;
     sectionStarted := true; sectionEnded := sectionEnded m;
     foundAssignment := foundAssignment m; lineIsMalformed := lineIsMalformed m;
     endedLines := endedLines m |}.

(** [BeginSection(filePosition)]. *)
Definition BeginSection (filePosition : nat) (m : t) : option t :=
  if sectionEnded m then
    match EndLine filePosition m with
    | Some m => Some (with_sectionStarted m)
    | None => None
    end
  else Some (with_sectionStarted m).

(** [EndSection()]. *)
Definition EndSection (m : t) : t :=
  if sectionStarted m then
    {| ByteCount := ByteCount m; lineStartPosition := lineStartPosition m;
       sectionStarted := sectionStarted m; sectionEnded := true;
       foundAssignment := foundAssignment m; lineIsMalformed := lineIsMalformed m;
       endedLines := endedLines m |}
  else m.

(** [AddAssignment()]. *)
Definition AddAssignment (m : t) : t :=
  if foundAssignment m then
    {| ByteCount := ByteCount m; lineStartPosition := lineStartPosition m;
       sectionStarted := sectionStarted m; sectionEnded := sectionEnded m;
       foundAssignment := foundAssignment m; lineIsMalformed := true;
       endedLines := endedLines m |}
  else
    {| ByteCount := ByteCount m; lineStartPosition := lineStartPosition m;
       sectionStarted := sectionStarted m; sectionEnded := sectionEnded m;
       foundAssignment := true; lineIsMalformed := lineIsMalformed m;
       endedLines := endedLines m |}.

(** The local flags of the scan in [estimateRequiredMemory]. *)
Record Scan := {
  previousWasNewLine : bool;
  isInsideQuote : bool;
  encounteredComment : bool;
  memoryEstimate : t }.

(** One iteration of the loop of [estimateRequiredMemory], on the byte
    [current] found at [fileBegin]. *)
Definition scanByte (fileBegin : nat) (current : byte) (s : Scan) : option Scan :=
  let m := memoryEstimate s in
  if Byte.eqb current newline then
    match EndLine (S fileBegin) m with
    | Some m =>
        Some {| previousWasNewLine := true; isInsideQuote := false;
                encounteredComment := false; memoryEstimate := m |}
    | None => None
    end
  else if isInsideQuote s then
    Some {| previousWasNewLine := false;
            isInsideQuote := negb (Byte.eqb current quote);
            encounteredComment := encounteredComment s; memoryEstimate := m |}
  else if negb (encounteredComment s) then
    if Byte.eqb current semicolon || Byte.eqb current hash then
      Some {| previousWasNewLine := false; isInsideQuote := false;
              encounteredComment := true; memoryEstimate := m |}
    else if Byte.eqb current openBracket then
      match BeginSection fileBegin m with
      | Some m =>
          Some {| previousWasNewLine := false; isInsideQuote := false;
                  encounteredComment := false; memoryEstimate := m |}
      | None => None
      end
    else if Byte.eqb current closeBracket then
      Some {| previousWasNewLine := false; isInsideQuote := false;
              encounteredComment := false; memoryEstimate := EndSection m |}
    else if Byte.eqb current equalsSign then
      Some {| previousWasNewLine := false; isInsideQuote := false;
              encounteredComment := false; memoryEstimate := AddAssignment m |}
    else if Byte.eqb current quote then
      Some {| previousWasNewLine := false; isInsideQuote := true;
              encounteredComment := false; memoryEstimate := m |}
    else
      Some {| previousWasNewLine := false; isInsideQuote := false;
              encounteredComment := false; memoryEstimate := m |}
  else
    Some {| previousWasNewLine := false; isInsideQuote := false;
            encounteredComment := true; memoryEstimate := m |}.

(** The loop [while(fileBegin < fileEnd)] over [rest], the bytes from
    [fileBegin] to [fileEnd]. *)
Fixpoint scan (rest : list byte) (fileBegin : nat) (s : Scan) : option Scan :=
  match rest with
  | [] => Some s
  | current :: rest =>
      match scanByte fileBegin current s with
      | Some s => scan rest (S fileBegin) s
      | None => None
      end
  end.

(** The estimator [estimateRequiredMemory] leaves behind. *)
Definition estimate (fileContents : list byte) : option t :=
  match BeginLine 0 create with
  | None => None
  | Some m =>
      match
        scan fileContents 0
          {| previousWasNewLine := false; isInsideQuote := false;
             encounteredComment := false; memoryEstimate := m |}
      with
      | None => None
      | Some s =>
          if previousWasNewLine s then Some (memoryEstimate s)
          else EndLine (length fileContents) (memoryEstimate s)
      end
  end.

(** The bytes of the lines ended so far. *)
Definition endedBytes (m : t) : Z :=
  fold_right Z.add 0 (map snd (endedLines m)).

(** The scan when the loop of [estimateRequiredMemory] has read the first
    [k] bytes of the file. *)
Definition scanned (fileContents : list byte) (k : nat) : option Scan :=
  match BeginLine 0 create with
  | None => None
  | Some m =>
      scan (firstn k fileContents) 0
        {| previousWasNewLine := false; isInsideQuote := false;
           encounteredComment := false; memoryEstimate := m |}
  end.

End MemoryEstimator.

(** [IniDocumentModel::estimateRequiredMemory(fileContents, byteCount)]. *)
Definition estimateRequiredMemory (fileContents : list byte) : option Z :=
  match MemoryEstimator.estimate fileContents with
  | Some m => Some (MemoryEstimator.ByteCount m)
  | None => None
  end.

(** * The record a line is stored as

    The memory of the document does not influence the parse: the record
    [submitLine] stores is a function of the parser's line state alone. *)

Module Pending.
Import FileParser.

(** The members of the parser that describe the position in the file and
    the line under way. *)
Definition cursor (p : t) :=
  (parsePosition p, lineStart p, nameStart p, nameEnd p, valueStart p,
   valueEnd p, sectionFound p, equalsSignFound p, lineIsMalformed p).

(** The [Line] part of the record [submitLine] is about to store. *)
Definition pendingLine (fileContents : list byte) (p : t) : Line :=
  let byteCount := ptrdiff (S (parsePosition p)) (lineStart p) in
  {| Contents := copy_n fileContents (lineStart p) (Z.to_nat byteCount);
     Length := byteCount |}.

Definition pendingName (p : t) : Z * Z :=
  match nameStart p, nameEnd p with
  | Some ns, Some ne => (ptrdiff ns (lineStart p), ptrdiff ne ns)
  | _, _ => (0, 0)
  end.

Definition pendingValue (p : t) : Z * option Z :=
  match valueStart p, valueEnd p with
  | Some vs, Some ve =>
      (ptrdiff vs (lineStart p),
       match nameStart p with
       | Some ns => Some (ptrdiff ve ns)
       | None => None
       end)
  | _, _ => (0, Some 0)
  end.

(** The record [submitLine] is about to store. *)
Definition pendingRecord (fileContents : list byte) (p : t) : LineRecord :=
  let line := pendingLine fileContents p in
  if lineIsMalformed p then MalformedRecord line
  else if equalsSignFound p then
    PropertyRecord
      {| PropertyLine.base := line;
         PropertyLine.NameStartIndex := fst (pendingName p);
         PropertyLine.NameLength := snd (pendingName p);
         PropertyLine.ValueStartIndex := fst (pendingValue p);
         PropertyLine.ValueLength := snd (pendingValue p) |}
  else if sectionFound p then
    SectionRecord
      {| SectionLine.base := line;
         SectionLine.NameStartIndex := fst (pendingName p);
         SectionLine.NameLength := snd (pendingName p) |}
  else PlainRecord line.

End Pending.

(** ** The parser as one machine over the bytes

    [ParseInto] and the loops it calls read every byte of the file exactly
    once, in order. [Flat.run] is the same computation as a single pass:
    the loop a byte is read in becomes a [Mode], and one step reads one
    byte. [FlatFacts.ParseInto_loop_run] shows that the loops of the parser
    compute what this pass computes; the properties below are proved on the
    pass. *)

Inductive ByteClass :=
| CNewline | CComment | COpenBracket | CCloseBracket | CQuote | CEquals
| CWhitespace | COther.

Definition classify (c : byte) : ByteClass :=
  if Byte.eqb c newline then CNewline
  else if Byte.eqb c semicolon || Byte.eqb c hash then CComment
  else if Byte.eqb c openBracket then COpenBracket
  else if Byte.eqb c closeBracket then CCloseBracket
  else if Byte.eqb c quote then CQuote
  else if Byte.eqb c equalsSign then CEquals
  else if isWhitepace c then CWhitespace
  else COther.

Module Flat.
Import FileParser Pending.

(** The loop a byte is read in, with the local flags of that loop. *)
Inductive Mode :=
| MMain
| MName (isInQuote quoteEncountered isInSection : bool)
| MValue (isInQuote quoteEncountered : bool)
| MSkip.

(** What one iteration of a loop called by [ParseInto] does with the byte
    at [parsePosition]: it steps over the byte and goes on, in its own loop
    or in the loop of [parseComment] or [parseMalformedLine] ([Next]), or it
    returns to [ParseInto] with the byte unread ([Return]). *)
Inductive Outcome :=
| Next (mode : Mode) (p : t)
| Return (p : t).

(** [parseMalformedLine()] on a byte that is no line break. *)
Definition malformed (p : t) : Outcome :=
  Next MSkip (advance (with_lineIsMalformed true p)).

(** One iteration of the loop of [parseName]; the branch of the second
    opening bracket, which no parse reaches, is left out. *)
Definition nameOutcome (k : ByteClass)
    (isInQuote quoteEncountered isInSection : bool) (p : t) : Outcome :=
  if isInQuote then
    let p := with_name (nameStart p) (Some (parsePosition p)) p in
    match k with
    | CNewline => Return (with_lineIsMalformed true p)
    | CQuote => Next (MName false quoteEncountered isInSection) (advance p)
    | _ => Next (MName true quoteEncountered isInSection) (advance p)
    end
  else
    match k with
    | CNewline => Return p
    | CComment => malformed p
    | COpenBracket =>
        if isSet (nameStart p) || isInSection then malformed p
        else
          Next (MName false quoteEncountered true)
            (advance (with_name (Some (S (parsePosition p))) (nameEnd p) p))
    | CCloseBracket =>
        if negb (isSet (nameStart p)) || negb isInSection then malformed p
        else
          Next (MName false quoteEncountered false)
            (advance
               (with_sectionFound true
                  (with_name (nameStart p) (Some (parsePosition p)) p)))
    | CQuote =>
        if isSet (nameStart p) || quoteEncountered then malformed p
        else
          Next (MName true true isInSection)
            (advance (with_name (Some (S (parsePosition p))) (nameEnd p) p))
    | CEquals => if isInSection then malformed p else Return p
    | CWhitespace => Next (MName false quoteEncountered isInSection) (advance p)
    | COther =>
        if quoteEncountered then malformed p
        else
          Next (MName false quoteEncountered isInSection)
            (advance
               (with_name
                  (match nameStart p with
                   | None => Some (parsePosition p)
                   | Some ns => Some ns
                   end)
                  (Some (S (parsePosition p))) p))
    end.

(** One iteration of the loop of [parseValue]. *)
Definition valueOutcome (k : ByteClass)
    (isInQuote quoteEncountered : bool) (p : t) : Outcome :=
  if isInQuote then
    let p := with_value (valueStart p) (Some (parsePosition p)) p in
    match k with
    | CNewline => Return (with_lineIsMalformed true p)
    | CQuote => Next (MValue false quoteEncountered) (advance p)
    | _ => Next (MValue true quoteEncountered) (advance p)
    end
  else
    match k with
    | CNewline => Return p
    | CComment => Next MSkip (advance p)
    | CQuote =>
        if isSet (valueStart p) || quoteEncountered then malformed p
        else
          Next (MValue true true)
            (advance (with_value (Some (S (parsePosition p))) (valueEnd p) p))
    | CEquals => malformed p
    | CWhitespace => Next (MValue false quoteEncountered) (advance p)
    | COpenBracket | CCloseBracket | COther =>
        if quoteEncountered then malformed p
        else
          Next (MValue false quoteEncountered)
            (advance
               (with_value
                  (match valueStart p with
                   | None => Some (parsePosition p)
                   | Some vs => Some vs
                   end)
                  (Some (S (parsePosition p))) p))
    end.

(** One iteration of the loops of [parseComment] and [parseMalformedLine]. *)
Definition skipOutcome (k : ByteClass) (p : t) : Outcome :=
  match k with
  | CNewline => Return p
  | _ => Next MSkip (advance p)
  end.

(** The loop of [ParseInto] on a byte a called loop has returned on: a line
    break or an equals sign. *)
Definition resume (b : list byte) (k : ByteClass) (p : t) : Mode * t :=
  match k with
  | CEquals =>
      if equalsSignFound p then (MSkip, advance (with_lineIsMalformed true p))
      else (MMain, advance (with_equalsSignFound true p))
  | _ => (MMain, submitLine b p)
  end.

Definition continue (b : list byte) (k : ByteClass) (o : Outcome) : Mode * t :=
  match o with
  | Next mode p => (mode, p)
  | Return p => resume b k p
  end.

(** One iteration of the loop of [ParseInto], up to the first byte of the
    loop it calls. *)
Definition mainStep (b : list byte) (k : ByteClass) (p : t) : Mode * t :=
  match k with
  | CNewline | CEquals => resume b k p
  | CComment => (MSkip, advance p)
  | CWhitespace => (MMain, advance p)
  | COpenBracket | CCloseBracket | CQuote | COther =>
      if equalsSignFound p then continue b k (valueOutcome k false false p)
      else continue b k (nameOutcome k false false false p)
  end.

(** The parser reads one byte, of class [k], in the loop [mode]. *)
Definition step (b : list byte) (k : ByteClass) (mode : Mode) (p : t) : Mode * t :=
  match mode with
  | MMain => mainStep b k p
  | MName q e s => continue b k (nameOutcome k q e s p)
  | MValue q e => continue b k (valueOutcome k q e p)
  | MSkip => continue b k (skipOutcome k p)
  end.

(** The pass over [rest], the bytes of the file [b] not yet read. *)
Fixpoint run (b rest : list byte) (mode : Mode) (p : t) : Mode * t :=
  match rest with
  | [] => (mode, p)
  | c :: rest =>
      let '(mode, p) := step b (classify c) mode p in run b rest mode p
  end.

(** No parse reaches the branch of [parseName] that submits a line at a
    second opening bracket: when a section has been found, [nameStart] is
    still set. *)
Definition Inv (p : t) : Prop :=
  sectionFound p = true -> isSet (nameStart p) = true.

(** The loop the parser goes on in after a [Next]. *)
Definition nested (b rest : list byte) (mode : Mode) (p : t) : t :=
  match mode with
  | MMain => p
  | MName q e s => parseName_loop b rest q e s p
  | MValue q e => parseValue_loop rest q e p
  | MSkip => parseMalformedLine_loop rest p
  end.

(** The iteration of the loop [mode] on a byte of class [k]. *)
Definition outcome (k : ByteClass) (mode : Mode) (p : t) : Outcome :=
  match mode with
  | MMain => Return p
  | MName q e s => nameOutcome k q e s p
  | MValue q e => valueOutcome k q e p
  | MSkip => skipOutcome k p
  end.

(** The last lines of [ParseInto]: a line under way at the end of the file
    is submitted. *)
Definition finish (b : list byte) (p : t) : t :=
  if (lineStart p <? parsePosition p)%nat then submitLine b p else p.

End Flat.

(** * Files and what must hold of their lines *)

(** A file an object of the target can hold: [PTRDIFF_MAX] bounds its size,
    so that no pointer difference of the parser wraps. *)
Definition representable (b : list byte) : Prop := Z.of_nat (length b) < 2 ^ 63.

(** The file is empty or its last byte is a line break. *)
Definition endsWithLineBreak (b : list byte) : bool :=
  match nth_error b (length b - 1) with
  | Some c => Byte.eqb c newline
  | None => true
  end.

(** The byte at index [i] of a line, when the line holds one there. *)
Definition byteAt (l : Line) (i : Z) : option byte :=
  match nth_error (Contents l) (Z.to_nat i) with
  | Some (Some x) => Some x
  | _ => None
  end.

(** The span that starts at index [i] starts at a byte that is no
    whitespace, or right behind an opening bracket or a quote. *)
Definition startsClean (l : Line) (i : Z) : Prop :=
  (exists x, byteAt l i = Some x /\ isWhitepace x = false)
  \/ (0 < i
      /\ (byteAt l (i - 1) = Some openBracket \/ byteAt l (i - 1) = Some quote)).

(** The span that ends before index [j] ends behind a byte that is no
    whitespace, or right before a closing bracket or a quote. *)
Definition endsClean (l : Line) (j : Z) : Prop :=
  (exists x, byteAt l (j - 1) = Some x /\ isWhitepace x = false)
  \/ byteAt l j = Some closeBracket
  \/ byteAt l j = Some quote.

(** A name span lies within its line; when it is not empty, no whitespace
    outside brackets and quotes is part of it. *)
Definition nameSpanOk (l : Line) (start length : Z) : Prop :=
  0 <= start /\ 0 <= length /\ start + length <= Length l
  /\ (0 < length -> startsClean l start /\ endsClean l (start + length)).

(** The value that starts at index [i] starts at a byte that is no
    whitespace, or right behind a quote. *)
Definition valueStartsClean (l : Line) (i : Z) : Prop :=
  (exists x, byteAt l i = Some x /\ isWhitepace x = false)
  \/ (0 < i /\ byteAt l (i - 1) = Some quote).

(** A value starts within its line; when there is a value, it starts at a
    byte that is no whitespace or right behind a quote. *)
Definition valueStartOk (l : Line) (start : Z) : Prop :=
  0 <= start <= Length l /\ (0 < start -> valueStartsClean l start).

(** What holds of the spans of a stored record. *)
Definition spanOk (r : LineRecord) : Prop :=
  match r with
  | SectionRecord s =>
      nameSpanOk (SectionLine.base s) (SectionLine.NameStartIndex s)
        (SectionLine.NameLength s)
  | PropertyRecord p =>
      nameSpanOk (PropertyLine.base p) (PropertyLine.NameStartIndex p)
        (PropertyLine.NameLength p)
      /\ valueStartOk (PropertyLine.base p) (PropertyLine.ValueStartIndex p)
  | _ => True
  end.

(** * The chunked allocator: what an allocation must satisfy *)

Module Arena.
Import FileParser.

(** The state [allocateChunked] keeps between calls: the room left in the
    current chunk is at most a chunk, it is zero as long as no chunk has
    been started, and every chunk is a block of [AllocationChunkSize]
    bytes. *)
Definition arenaOk (p : t) : Prop :=
  0 <= remainingChunkByteCount p <= AllocationChunkSize
  /\ (loadedLinesMemory (target p) = [] -> remainingChunkByteCount p = 0)
  /\ Forall (fun chunk => heap (target p) !! chunk = Some AllocationChunkSize)
       (loadedLinesMemory (target p)).

(** A layout the compiler can produce. *)
Definition validLayout (T : TypeLayout) : Prop := 0 < sizeOf T /\ 0 < alignOf T.

(** The allocation of [s] bytes at [address] lies in the current chunk: the
    last chunk of the document behind the call, a block of
    [AllocationChunkSize] bytes that holds all [s] bytes. A new chunk has
    been started exactly when fewer than [s] bytes remained; otherwise the
    allocation begins where the room left began. *)
Definition carvedFromChunk (s : Z) (p : t) (address : Ptr) (p' : t) : Prop :=
  exists chunk,
    ptrBlock address = Some chunk
    /\ List.last (loadedLinesMemory (target p')) chunk = chunk
    /\ In chunk (loadedLinesMemory (target p'))
    /\ heap (target p') !! chunk = Some AllocationChunkSize
    /\ 0 <= ptrOffset address
    /\ ptrOffset address + s <= AllocationChunkSize
    /\ remainingChunkByteCount p' = AllocationChunkSize - (ptrOffset address + s)
    /\ createdLinesMemory (target p') = createdLinesMemory (target p)
    /\ (if remainingChunkByteCount p <? s
        then loadedLinesMemory (target p') = loadedLinesMemory (target p) ++ [chunk]
             /\ heap (target p) !! chunk = None
             /\ ptrOffset address = 0
        else loadedLinesMemory (target p') = loadedLinesMemory (target p)
             /\ heap (target p') = heap (target p)
             /\ ptrOffset address = AllocationChunkSize - remainingChunkByteCount p).

(** The allocation of [s] bytes at [address] is a new block of its own,
    of [s] bytes, entered in [createdLinesMemory]; the chunks are left as
    they are. *)
Definition dedicatedBlock (s : Z) (p : t) (address : Ptr) (p' : t) : Prop :=
  exists block,
    address = {| ptrBlock := Some block; ptrOffset := 0 |}
    /\ heap (target p) !! block = None
    /\ heap (target p') = <[block := s]> (heap (target p))
    /\ createdLinesMemory (target p') = {[block]} ∪ createdLinesMemory (target p)
    /\ loadedLinesMemory (target p') = loadedLinesMemory (target p)
    /\ remainingChunkByteCount p' = remainingChunkByteCount p.

End Arena.

(** * Equals signs outside quotes and comments *)

(** The lexical state of a line: inside a quote, inside a comment, and the
    number of equals signs met outside both. *)
Record Lex := { lexQuote : bool; lexComment : bool; lexEquals : nat }.

Definition lexStart : Lex :=
  {| lexQuote := false; lexComment := false; lexEquals := 0 |}.

(** One byte of a line: a quote toggles quote mode, [;] and [#] outside a
    quote start a comment that lasts to the end of the line, and an equals
    sign counts outside both. A byte beyond the file changes nothing. *)
Definition lexStep (s : Lex) (c : option byte) : Lex :=
  match c with
  | None => s
  | Some x =>
      if lexComment s then s
      else if lexQuote s then
        match classify x with
        | CQuote =>
            {| lexQuote := false; lexComment := false; lexEquals := lexEquals s |}
        | _ => s
        end
      else
        match classify x with
        | CComment =>
            {| lexQuote := false; lexComment := true; lexEquals := lexEquals s |}
        | CQuote =>
            {| lexQuote := true; lexComment := false; lexEquals := lexEquals s |}
        | CEquals =>
            {| lexQuote := false; lexComment := false;
               lexEquals := S (lexEquals s) |}
        | _ => s
        end
  end.

(** The number of equals signs of a line outside quotes and comments. *)
Definition equalsOutside (line : list (option byte)) : nat :=
  lexEquals (fold_left lexStep line lexStart).

(** The same count when comments are not told apart: the equals signs of
    a line outside quotes. *)
Definition quoteStep (s : bool * nat) (c : option byte) : bool * nat :=
  match c with
  | None => s
  | Some x =>
      match classify x with
      | CQuote => (negb (fst s), snd s)
      | CEquals => if fst s then s else (fst s, S (snd s))
      | _ => s
      end
  end.

Definition equalsOutsideQuotes (line : list (option byte)) : nat :=
  snd (fold_left quoteStep line (false, O)).

(** A second equals sign outside quotes and comments makes the line
    Malformed. *)
Definition secondEqualsMalformed (r : LineRecord) : Prop :=
  (2 <= equalsOutside (Contents (lineOf r)))%nat -> kindOf r = KMalformed.

(** * What the pass keeps true *)

(** The statements below are about the pass of [Flat.run]; each is kept by
    every step of the pass. *)

Module Invariants.
Import FileParser Pending Flat.

(** On a line break the pass submits the line, in the state [p1] the loop
    it is in leaves behind: [p] itself, or [p] marked malformed with
    [nameEnd] or [valueEnd] set when the line break is read inside a
    quote. *)
Definition beforeSubmit (mode : Mode) (p : t) : t :=
  match mode with
  | MName true _ _ =>
      with_lineIsMalformed true (with_name (nameStart p) (Some (parsePosition p)) p)
  | MValue true _ =>
      with_lineIsMalformed true (with_value (valueStart p) (Some (parsePosition p)) p)
  | _ => p
  end.

(** The lines stored so far are the bytes of the file before [lineStart];
    the line under way is empty exactly at the start of the file and behind
    a line break. *)
Definition tiled (b : list byte) (p : t) : Prop :=
  (lineStart p <= parsePosition p <= length b)%nat
  /\ reconstruct (storedLines (target p)) = copy_n b 0 (lineStart p)
  /\ (lineStart p = parsePosition p <->
      parsePosition p = O
      \/ nth_error b (parsePosition p - 1) = Some newline).

(** In the file: a name or value that starts at [i], in a line that starts
    at [ls], starts at a byte that is no whitespace or right behind an
    opening bracket or a quote of its line. *)
Definition startsCleanAt (b : list byte) (ls i : nat) : Prop :=
  (exists x, nth_error b i = Some x /\ isWhitepace x = false)
  \/ ((ls < i)%nat
      /\ (nth_error b (i - 1) = Some openBracket
          \/ nth_error b (i - 1) = Some quote)).

(** In the file: a value that starts at [i], in a line that starts at
    [ls], starts at a byte that is no whitespace or right behind a quote of
    its line. *)
Definition valueStartsCleanAt (b : list byte) (ls i : nat) : Prop :=
  (exists x, nth_error b i = Some x /\ isWhitepace x = false)
  \/ ((ls < i)%nat /\ nth_error b (i - 1) = Some quote).

(** In the file: a name that ends before [j] ends behind a byte that is no
    whitespace or right before a closing bracket or a quote. *)
Definition endsCleanAt (b : list byte) (j : nat) : Prop :=
  (exists x, (0 < j)%nat /\ nth_error b (j - 1) = Some x /\ isWhitepace x = false)
  \/ nth_error b j = Some closeBracket
  \/ nth_error b j = Some quote.

(** What the loops keep true of the pointers into the line under way. *)
Definition spans (b : list byte) (mode : Mode) (p : t) : Prop :=
  (lineStart p <= parsePosition p)%nat
  /\ Inv p
  /\ (forall ns, nameStart p = Some ns ->
        (lineStart p <= ns <= parsePosition p)%nat
        /\ startsCleanAt b (lineStart p) ns)
  /\ (forall ne, nameEnd p = Some ne ->
        exists ns, nameStart p = Some ns
                   /\ (ns <= ne <= parsePosition p)%nat
                   /\ (match mode with
                       | MName true _ _ => True
                       | _ => endsCleanAt b ne
                       end))
  /\ (forall vs, valueStart p = Some vs ->
        (lineStart p <= vs <= parsePosition p)%nat
        /\ valueStartsCleanAt b (lineStart p) vs)
  /\ match mode with
     | MName q e s =>
         equalsSignFound p = false
         /\ (q = true -> e = true)
         /\ (e = true ->
             s = false /\ sectionFound p = false /\ isSet (nameStart p) = true)
         /\ (s = true -> isSet (nameStart p) = true)
     | _ => True
     end.

(** What the pass keeps true: the stored lines tile the file read so far,
    the pointers into the line under way are as [spans] says, and the spans
    of every stored record are as [spanOk] says. *)
Definition spansKept (b : list byte) (mode : Mode) (p : t) : Prop :=
  tiled b p /\ spans b mode p /\ Forall spanOk (storedLines (target p)).

(** The lexical state of the line under way, read up to [parsePosition]. *)
Definition lexOf (b : list byte) (p : t) : Lex :=
  fold_left lexStep
    (copy_n b (lineStart p) (parsePosition p - lineStart p)) lexStart.

(** The loops and the lexical state agree as long as the line is not marked
    malformed: the flag [equalsSignFound] says whether an equals sign was
    counted, and at most one was; the loop read in says whether a quote or a
    comment is open. *)
Definition agrees (L : Lex) (mode : Mode) (p : t) : Prop :=
  lineIsMalformed p = true
  \/ (lexEquals L = (if equalsSignFound p then 1 else 0)%nat
      /\ match mode with
         | MMain => lexQuote L = false /\ lexComment L = false
         | MName q _ _ =>
             lexQuote L = q /\ lexComment L = false /\ equalsSignFound p = false
         | MValue q _ =>
             lexQuote L = q /\ lexComment L = false /\ equalsSignFound p = true
         | MSkip => lexComment L = true
         end).

(** What the pass keeps true for the count of equals signs. *)
Definition lexKept (b : list byte) (mode : Mode) (p : t) : Prop :=
  tiled b p
  /\ agrees (lexOf b p) mode p
  /\ Forall secondEqualsMalformed (storedLines (target p)).

End Invariants.

(** * What the scan of the estimate keeps true *)

Module ScanInvariant.
Import MemoryEstimator.

(** What the scan keeps true at file position [pos], in a file of at most
    [N] bytes: the line under way starts at or before [pos], every ended
    line has added its bytes and between 32 and 71 bytes for its record,
    and no more lines were ended than bytes were read. *)
Definition scanOk (N pos : nat) (s : Scan) : Prop :=
  exists lineStart,
    lineStartPosition (memoryEstimate s) = Some lineStart
    /\ (lineStart <= pos <= N)%nat
    /\ (previousWasNewLine s = true -> lineStart = pos)
    /\ (length (endedLines (memoryEstimate s)) <= pos)%nat
    /\ endedBytes (memoryEstimate s) = Z.of_nat lineStart
    /\ Z.of_nat lineStart
        + 32 * Z.of_nat (length (endedLines (memoryEstimate s)))
       <= ByteCount (memoryEstimate s)
       <= Z.of_nat lineStart
          + 71 * Z.of_nat (length (endedLines (memoryEstimate s))).

End ScanInvariant.

(** * The estimate against the requested bytes *)

Module Cover.
Import MemoryEstimator ScanInvariant.
Import FileParser Pending Flat Invariants.

(** The bytes [ParseInto] requests from [allocateChunked] for the stored
    lines: for each line the aligned size of its record and its bytes. *)
Definition requestedBytes (lines : list LineRecord) : Z :=
  fold_right Z.add 0
    (map (fun r => getSizePlusAlignmentPadding (layoutOf (kindOf r))
                   + Length (lineOf r)) lines).

(** The flags of the scan of [estimateRequiredMemory]. *)
Record EstFlags := {
  fQuote : bool; fComment : bool;
  fStarted : bool; fEnded : bool; fAssignment : bool; fMalformed : bool }.

Definition flagsOf (s : Scan) : EstFlags :=
  {| fQuote := isInsideQuote s; fComment := encounteredComment s;
     fStarted := sectionStarted (memoryEstimate s);
     fEnded := sectionEnded (memoryEstimate s);
     fAssignment := foundAssignment (memoryEstimate s);
     fMalformed := MemoryEstimator.lineIsMalformed (memoryEstimate s) |}.

(** What a byte does to the lines of the estimator: nothing, or it ends the
    line before itself (an opening bracket behind a closed section), or it
    ends the line with itself (a line break). *)
Inductive Effect := Same | Split | Ended.

Definition noFlags : EstFlags :=
  {| fQuote := false; fComment := false; fStarted := false; fEnded := false;
     fAssignment := false; fMalformed := false |}.

(** One iteration of the scan on the flags alone. *)
Definition flagStep (k : ByteClass) (f : EstFlags) : Effect * EstFlags :=
  match k with
  | CNewline => (Ended, noFlags)
  | _ =>
      if fQuote f then
        (Same,
         {| fQuote := match k with CQuote => false | _ => true end;
            fComment := fComment f; fStarted := fStarted f; fEnded := fEnded f;
            fAssignment := fAssignment f; fMalformed := fMalformed f |})
      else if fComment f then (Same, f)
      else
        match k with
        | CComment =>
            (Same,
             {| fQuote := false; fComment := true; fStarted := fStarted f;
                fEnded := fEnded f; fAssignment := fAssignment f;
                fMalformed := fMalformed f |})
        | COpenBracket =>
            if fEnded f then
              (Split,
               {| fQuote := false; fComment := false; fStarted := true;
                  fEnded := false; fAssignment := false; fMalformed := false |})
            else
              (Same,
               {| fQuote := false; fComment := false; fStarted := true;
                  fEnded := fEnded f; fAssignment := fAssignment f;
                  fMalformed := fMalformed f |})
        | CCloseBracket =>
            (Same,
             {| fQuote := false; fComment := false; fStarted := fStarted f;
                fEnded := if fStarted f then true else fEnded f;
                fAssignment := fAssignment f; fMalformed := fMalformed f |})
        | CEquals =>
            (Same,
             {| fQuote := false; fComment := false; fStarted := fStarted f;
                fEnded := fEnded f; fAssignment := true;
                fMalformed := if fAssignment f then true else fMalformed f |})
        | CQuote =>
            (Same,
             {| fQuote := true; fComment := false; fStarted := fStarted f;
                fEnded := fEnded f; fAssignment := fAssignment f;
                fMalformed := fMalformed f |})
        | _ =>
            (Same,
             {| fQuote := false; fComment := false; fStarted := fStarted f;
                fEnded := fEnded f; fAssignment := fAssignment f;
                fMalformed := fMalformed f |})
        end
  end.

(** The branch [EndLine] takes on these flags. *)
Definition estKind (f : EstFlags) : LineKind :=
  if fMalformed f then KMalformed
  else if fAssignment f then KProperty
  else if fStarted f && fEnded f then KSection
  else KPlain.

(** The flags of the estimator follow the parser as long as the parser has
    not marked the line malformed. *)
Definition track (f : EstFlags) (mode : Mode) (p : t) : Prop :=
  fMalformed f = false
  /\ fAssignment f = equalsSignFound p
  /\ (sectionFound p = true -> fStarted f = true /\ fEnded f = true)
  /\ match mode with
     | MMain => fQuote f = false /\ fComment f = false
     | MName q _ s =>
         fQuote f = q /\ fComment f = false /\ equalsSignFound p = false
         /\ (s = true -> fStarted f = true)
     | MValue q _ =>
         fQuote f = q /\ fComment f = false /\ equalsSignFound p = true
     | MSkip => fQuote f = false /\ fComment f = true
     end.

(** The byte count of the estimator covers the bytes requested for the
    stored lines: with the flags in step while both passes are in the same
    line, with 32 bytes to spare once the estimator has ended a line the
    parser is still in. *)
Definition covers (mode : Mode) (p : t) (s : Scan) : Prop :=
  exists els,
    lineStartPosition (memoryEstimate s) = Some els
    /\ ((els = lineStart p
         /\ requestedBytes (storedLines (target p)) <= ByteCount (memoryEstimate s)
         /\ (parsePosition p = lineStart p -> flagsOf s = noFlags)
         /\ (lineIsMalformed p = true \/ track (flagsOf s) mode p))
        \/ ((lineStart p < els <= parsePosition p)%nat
            /\ requestedBytes (storedLines (target p)) + 32
               + (Z.of_nat els - Z.of_nat (lineStart p))
               <= ByteCount (memoryEstimate s))).

(** What the two passes keep true when both have read the same bytes. *)
Definition simulated (b : list byte) (mode : Mode) (p : t) : Prop :=
  tiled b p
  /\ exists s,
      scanned b (parsePosition p) = Some s
      /\ scanOk (length b) (parsePosition p) s
      /\ covers mode p s.

End Cover.

(** * The physical lines of a file *)

Module PhysicalLines.

Definition isLineBreak (c : option byte) : bool :=
  match c with
  | Some x => Byte.eqb x newline
  | None => false
  end.

(** A byte sequence cut behind every line break: each piece but the last
    ends in its line break, the last piece is what follows the last line
    break, when something does. *)
Fixpoint physicalLines (contents : list (option byte)) : list (list (option byte)) :=
  match contents with
  | [] => []
  | c :: rest =>
      if isLineBreak c then [c] :: physicalLines rest
      else
        match physicalLines rest with
        | [] => [[c]]
        | line :: lines => (c :: line) :: lines
        end
  end.

(** The bytes [ParseInto] copies into its lines: the file, and one byte
    from beyond its end when the file is not empty and does not end in a
    line break. *)
Definition copiedBytes (fileContents : list byte) : list (option byte) :=
  map Some fileContents ++ (if endsWithLineBreak fileContents then [] else [None]).

(** [Length] is the number of bytes of [Contents]. *)
Definition lengthOk (r : LineRecord) : Prop :=
  Length (lineOf r) = Z.of_nat (length (Contents (lineOf r))).

End PhysicalLines.

(** * The classification of a line and its equals signs *)

Module KindOfLine.

(** A Property line holds exactly one equals sign outside quotes and
    comments; a Plain or a Section line holds none. *)
Definition kindCountsEquals (r : LineRecord) : Prop :=
  match kindOf r with
  | KMalformed => True
  | KProperty => equalsOutside (Contents (lineOf r)) = 1%nat
  | KPlain | KSection => equalsOutside (Contents (lineOf r)) = 0%nat
  end.

End KindOfLine.

(** * Blank lines and comment lines *)

Module LineShape.

(** What the bytes of a line read so far make of it: nothing but
    whitespace, whitespace and then a comment, or something else. *)
Inductive Shape := Blank | Comment | Other.

Definition shapeStep (s : Shape) (c : option byte) : Shape :=
  match s, c with
  | Blank, Some x =>
      if isWhitepace x then Blank
      else if Byte.eqb x semicolon || Byte.eqb x hash then Comment
      else Other
  | _, _ => s
  end.

Definition shapeOf (line : list (option byte)) : Shape :=
  fold_left shapeStep line Blank.

(** The line is blank, or its first byte that is no whitespace is [;] or
    [#]. *)
Definition blankOrComment (line : list (option byte)) : bool :=
  match shapeOf line with
  | Other => false
  | _ => true
  end.

End LineShape.

(** * The records in the memory of the document *)

Module Memory.
Import FileParser Arena.

(** The bytes a stored record takes: the record with its padding, and
    behind it the bytes of the line. *)
Definition footprint (r : LineRecord) : Z :=
  getSizePlusAlignmentPadding (layoutOf (kindOf r)) + Length (lineOf r).

(** The [size] bytes at [address] lie within a block the document holds. *)
Definition withinBlock (d : IniDocumentModel) (address : Ptr) (size : Z) : Prop :=
  exists block blockSize,
    ptrBlock address = Some block
    /\ heap d !! block = Some blockSize
    /\ 0 <= ptrOffset address
    /\ ptrOffset address + size <= blockSize.

(** Two ranges of bytes that share no byte. *)
Definition apart (a1 : Ptr) (size1 : Z) (a2 : Ptr) (size2 : Z) : Prop :=
  ptrBlock a1 <> ptrBlock a2
  \/ ptrOffset a1 + size1 <= ptrOffset a2
  \/ ptrOffset a2 + size2 <= ptrOffset a1.

(** Every stored record lies within a block of the document, and no two
    records share a byte. *)
Definition memorySafe (d : IniDocumentModel) : Prop :=
  Forall (fun e => withinBlock d (fst e) (footprint (snd e))) (lineRecords d)
  /\ ForallOrdPairs
       (fun e1 e2 => apart (fst e1) (footprint (snd e1)) (fst e2) (footprint (snd e2)))
       (lineRecords d).

(** A block one of the two memory lists of the document knows. *)
Definition registered (d : IniDocumentModel) (block : nat) : Prop :=
  In block (loadedLinesMemory d) \/ block ∈ createdLinesMemory d.

(** What the lists know is held and entered once: every block of the two
    lists is a block that is allocated, no chunk stands twice in the list
    of chunks, and no block is in both lists. *)
Definition registeredOnce (d : IniDocumentModel) : Prop :=
  NoDup (loadedLinesMemory d)
  /\ (forall block, registered d block -> is_Some (heap d !! block))
  /\ (forall block,
        In block (loadedLinesMemory d) -> block ∉ createdLinesMemory d).

(** The blocks that are allocated and that neither list knows: nothing
    that goes through the lists can free them. *)
Definition unregistered (d : IniDocumentModel) : gset nat :=
  dom (heap d) ∖ (list_to_set (loadedLinesMemory d) ∪ createdLinesMemory d).

Definition isMalformedRecord (r : LineRecord) : bool :=
  match r with
  | MalformedRecord _ => true
  | _ => false
  end.

(** The number of Malformed lines the document stores. *)
Definition malformedLines (d : IniDocumentModel) : nat :=
  length (List.filter isMalformedRecord (storedLines d)).

(** The chunk [allocateChunked] carves from. *)
Definition currentChunk (p : t) : option nat :=
  nth_error (loadedLinesMemory (target p))
    (length (loadedLinesMemory (target p)) - 1).

(** What the parser keeps true of the memory between two lines: the
    allocator is sound, the records are safe, and the records of the
    current chunk end before the room that is left in it. *)
Definition arenaSafe (p : t) : Prop :=
  arenaOk p
  /\ memorySafe (target p)
  /\ Forall
       (fun e =>
          ptrBlock (fst e) = currentChunk p ->
          ptrOffset (fst e) + footprint (snd e)
          <= AllocationChunkSize - remainingChunkByteCount p)
       (lineRecords (target p)).

End Memory.

(** * The document model of IniDocumentModel.cpp

    The class as IniDocumentModel.h declares it and IniDocumentModel.cpp
    defines it: [loadedLinesMemory] is one block, the lines are linked
    through [Previous] and [Next]. A line object is known by the block
    [allocateLine] has placed it in. *)

Module Document.

(** A [Line *] stored in a line: a pointer to a line, or the value of
    memory nothing has been written to. *)
Inductive Link := Indeterminate | LinkTo (line : nat).

(** [struct Line], placed at the start of a block with its bytes behind. *)
Record Node := { Previous : Link; Next : Link; line : Line }.

Record t := {
  (** the blocks this document has obtained from [new std::uint8_t[n]] and
      not deleted, with their sizes *)
  heap : gmap nat Z;
  (** the line objects in those blocks *)
  lines : gmap nat Node;
  (** [std::uint8_t *loadedLinesMemory], [None] for [nullptr] *)
  loadedLinesMemory : option nat;
  (** [std::unordered_set<std::uint8_t *> createdLinesMemory] *)
  createdLinesMemory : gset nat;
  firstLine : option nat;
  (** [SectionMap sections]: no function of the file enters anything *)
  sections : gmap string (gmap string nat);
  hasSpacesAroundAssignment : bool;
  hasEmptyLinesBetweenProperties : bool }.

(** The members as the initialiser lists of both constructors set them. *)
Definition initial : t :=
  {| heap := ∅; lines := ∅; loadedLinesMemory := None;
     createdLinesMemory := ∅; firstLine := None; sections := ∅;
     hasSpacesAroundAssignment := true;
     hasEmptyLinesBetweenProperties := true |}.

(** [allocateLine<TLine>(contents, length)]: [contents] are the bytes the
    pointer leads to. The block has [sizeof(TLine) + length] bytes, the sum
    taken in a [std::size_t]; [Previous] and [Next] are not written. *)
Definition allocateLine (TLine : TypeLayout) (contents : list byte) (length : Z)
    (d : t) : nat * t :=
  let alignedFooterOffset := sizeOf TLine in
  let memory := fresh (dom (heap d)) in
  let newLine :=
    {| Previous := Indeterminate; Next := Indeterminate;
       line := {| Contents := FileParser.copy_n contents 0 (Z.to_nat length);
                  Length := length |} |} in
  (memory,
   {| heap := <[memory := to_size_t (alignedFooterOffset + length)]> (heap d);
      lines := <[memory := newLine]> (lines d);
      loadedLinesMemory := loadedLinesMemory d;
      createdLinesMemory := {[memory]} ∪ createdLinesMemory d;
      firstLine := firstLine d; sections := sections d;
      hasSpacesAroundAssignment := hasSpacesAroundAssignment d;
      hasEmptyLinesBetweenProperties := hasEmptyLinesBetweenProperties d |}).

(** [delete[] memory]: [None] when [memory] is no block that is held. *)
Definition deleteBlock (memory : nat) (h : gmap nat Z) : option (gmap nat Z) :=
  match h !! memory with
  | Some _ => Some (delete memory h)
  | None => None
  end.

(** [freeLine<TLine>(line)]. *)
Definition freeLine (memory : nat) (d : t) : option t :=
  match deleteBlock memory (heap d) with
  | Some h =>
      Some {| heap := h;
              lines := delete memory (lines d);
              loadedLinesMemory := loadedLinesMemory d;
              createdLinesMemory := createdLinesMemory d ∖ {[memory]};
              firstLine := firstLine d; sections := sections d;
              hasSpacesAroundAssignment := hasSpacesAroundAssignment d;
              hasEmptyLinesBetweenProperties := hasEmptyLinesBetweenProperties d |}
  | None => None
  end.

(** [IniDocumentModel()], where [NUCLEX_SUPPORT_WIN32] is not defined: one
    line holding a line break, linked to itself. *)
Definition create : t :=
  let '(newLine, d) := allocateLine LineLayout [newline] 1 initial in
  {| heap := heap d;
     lines :=
       match lines d !! newLine with
       | Some node =>
           <[newLine := {| Previous := LinkTo newLine; Next := LinkTo newLine;
                           line := line node |}]> (lines d)
       | None => lines d
       end;
     loadedLinesMemory := loadedLinesMemory d;
     createdLinesMemory := createdLinesMemory d;
     firstLine := Some newLine; sections := sections d;
     hasSpacesAroundAssignment := hasSpacesAroundAssignment d;
     hasEmptyLinesBetweenProperties := hasEmptyLinesBetweenProperties d |}.

(** [IniDocumentModel(fileContents, byteCount)]: a block of the estimated
    size is obtained; the file is not parsed. *)
Definition createFrom (fileContents : list byte) : option t :=
  match estimateRequiredMemory fileContents with
  | Some requiredMemory =>
      let memory := fresh (dom (heap initial)) in
      Some {| heap := <[memory := requiredMemory]> (heap initial);
              lines := ∅; loadedLinesMemory := Some memory;
              createdLinesMemory := ∅; firstLine := None; sections := ∅;
              hasSpacesAroundAssignment := true;
              hasEmptyLinesBetweenProperties := true |}
  | None => None
  end.

(** [~IniDocumentModel()]: the blocks left when it has run, [None] when it
    deletes a block that is not held. *)
Definition destroy (d : t) : option (gmap nat Z) :=
  let afterLoaded :=
    match loadedLinesMemory d with
    | Some memory => deleteBlock memory (heap d)
    | None => Some (heap d)
    end in
  fold_right
    (fun memory h =>
       match h with
       | Some h => deleteBlock memory h
       | None => None
       end)
    afterLoaded (elements (createdLinesMemory d)).

(** The documents the functions of the file make: a constructor, then
    lines allocated and lines freed that [allocateLine] has made. *)
Inductive reachable : t -> Prop :=
| reach_create : reachable create
| reach_createFrom fileContents d :
    createFrom fileContents = Some d -> reachable d
| reach_allocateLine TLine contents length d :
    reachable d -> reachable (snd (allocateLine TLine contents length d))
| reach_freeLine memory d d' :
    reachable d -> memory ∈ createdLinesMemory d ->
    freeLine memory d = Some d' -> reachable d'.

(** Every block held is the loaded block or a created one, never both, and
    every line object lies in a created block. *)
Definition tracked (d : t) : Prop :=
  (forall memory,
     is_Some (heap d !! memory)
     <-> loadedLinesMemory d = Some memory \/ memory ∈ createdLinesMemory d)
  /\ (forall memory, loadedLinesMemory d = Some memory ->
                     memory ∉ createdLinesMemory d)
  /\ (forall memory, is_Some (lines d !! memory) ->
                     memory ∈ createdLinesMemory d).

End Document.

(** * [IniDocumentModel::ModelBuilder] and [parseFileContents] *)

Module ModelBuilder.

(** A call [addLine<TLine>(lineBegin, lineEnd)]: the record type asked for
    and the two pointers into the file. *)
Record AddedLine := {
  addedKind : LineKind;
  lineBegin : option nat;
  lineEnd : nat }.

(** The members of the builder. The document it is to fill is left out: no
    function of the builder uses it, [addLine] returns [nullptr] without
    adding a line. [addLineCalls] is not a member of the class: it lists,
    oldest first, the calls of [addLine]. *)
Record t := {
  allocatedByteCount : Z;
  lineStartPosition : option nat;
  sectionStartPosition : option nat;
  sectionEndPosition : option nat;
  equalsSignPosition : option nat;
  isMalformedLine : bool;
  addLineCalls : list AddedLine }.

(** [ModelBuilder(targetDocumentModel, allocatedByteCount)]. *)
Definition create (allocatedByteCount : Z) : t :=
  {| allocatedByteCount := allocatedByteCount;
     lineStartPosition := None; sectionStartPosition := None;
     sectionEndPosition := None; equalsSignPosition := None;
     isMalformedLine := false; addLineCalls := [] |}.

(** [addLine<TLine>(lineBegin, lineEnd)]. *)
Definition addLine (TLine : LineKind) (lineBegin : option nat) (lineEnd : nat)
    (m : t) : t :=
  {| allocatedByteCount := allocatedByteCount m;
     lineStartPosition := lineStartPosition m;
     sectionStartPosition := sectionStartPosition m;
     sectionEndPosition := sectionEndPosition m;
     equalsSignPosition := equalsSignPosition m;
     isMalformedLine := isMalformedLine m;
     addLineCalls :=
       addLineCalls m
       ++ [{| addedKind := TLine; lineBegin := lineBegin; lineEnd := lineEnd |}] |}.

(** [EndLine(filePosition)]: a line marked malformed is not added. *)
Definition EndLine (filePosition : nat) (m : t) : t :=
  let m :=
    if negb (isMalformedLine m) then
      if FileParser.isSet (equalsSignPosition m) then
        addLine KProperty (lineStartPosition m) filePosition m
      else if FileParser.isSet (sectionEndPosition m) then
        addLine KSection (lineStartPosition m) filePosition m
      else addLine KPlain (lineStartPosition m) filePosition m
    else m in
  {| allocatedByteCount := allocatedByteCount m;
     lineStartPosition := Some filePosition;
     sectionStartPosition := None; sectionEndPosition := None;
     equalsSignPosition := None; isMalformedLine := false;
     addLineCalls := addLineCalls m |}.

(** [BeginLine(filePosition)]. *)
Definition BeginLine (filePosition : nat) (m : t) : t :=
  let m := if FileParser.isSet (lineStartPosition m) then EndLine filePosition m
           else m in
  {| allocatedByteCount := allocatedByteCount m;
     lineStartPosition := Some filePosition;
     sectionStartPosition := sectionStartPosition m;
     sectionEndPosition := sectionEndPosition m;
     equalsSignPosition := equalsSignPosition m;
     isMalformedLine := isMalformedLine m;
     addLineCalls := addLineCalls m |}.

Definition with_isMalformedLine (m : t) : t :=
  {| allocatedByteCount := allocatedByteCount m;
     lineStartPosition := lineStartPosition m;
     sectionStartPosition := sectionStartPosition m;
     sectionEndPosition := sectionEndPosition m;
     equalsSignPosition := equalsSignPosition m;
     isMalformedLine := true;
     addLineCalls := addLineCalls m |}.

(** [BeginSection(filePosition)], with its inner test of
    [sectionEndPosition] as the code has it. *)
Definition BeginSection (filePosition : nat) (m : t) : t :=
  let m :=
    if FileParser.isSet (sectionEndPosition m) then
      if negb (FileParser.isSet (sectionEndPosition m)) then with_isMalformedLine m
      else EndLine filePosition m
    else m in
  {| allocatedByteCount := allocatedByteCount m;
     lineStartPosition := lineStartPosition m;
     sectionStartPosition := Some filePosition;
     sectionEndPosition := sectionEndPosition m;
     equalsSignPosition := equalsSignPosition m;
     isMalformedLine := isMalformedLine m;
     addLineCalls := addLineCalls m |}.

(** [EndSection(filePosition, nameStart, nameEnd)]. *)
Definition EndSection (filePosition : nat) (nameStart nameEnd : option nat)
    (m : t) : t :=
  if negb (FileParser.isSet (sectionStartPosition m)) then with_isMalformedLine m
  else if negb (FileParser.isSet (sectionEndPosition m)) then
    {| allocatedByteCount := allocatedByteCount m;
       lineStartPosition := lineStartPosition m;
       sectionStartPosition := sectionStartPosition m;
       sectionEndPosition := Some filePosition;
       equalsSignPosition := equalsSignPosition m;
       isMalformedLine := isMalformedLine m;
       addLineCalls := addLineCalls m |}
  else with_isMalformedLine m.

(** The local flags of the scan in [parseFileContents]. *)
Record Scan := {
  previousWasNewLine : bool;
  isInsideQuote : bool;
  encounteredComment : bool;
  modelBuilder : t }.

(** One iteration of the loop of [parseFileContents], on the byte
    [current] found at [fileBegin]. The calls of [EndSection] and of an
    [AddAssignment] are commented out in the code. *)
Definition scanByte (fileBegin : nat) (current : byte) (s : Scan) : Scan :=
  let m := modelBuilder s in
  if Byte.eqb current newline then
    {| previousWasNewLine := true; isInsideQuote := false;
       encounteredComment := false; modelBuilder := EndLine (S fileBegin) m |}
  else if isInsideQuote s then
    {| previousWasNewLine := false;
       isInsideQuote := negb (Byte.eqb current quote);
       encounteredComment := encounteredComment s; modelBuilder := m |}
  else if negb (encounteredComment s) then
    if Byte.eqb current semicolon || Byte.eqb current hash then
      {| previousWasNewLine := false; isInsideQuote := false;
         encounteredComment := true; modelBuilder := m |}
    else if Byte.eqb current openBracket then
      {| previousWasNewLine := false; isInsideQuote := false;
         encounteredComment := false; modelBuilder := BeginSection fileBegin m |}
    else if Byte.eqb current closeBracket then
      {| previousWasNewLine := false; isInsideQuote := false;
         encounteredComment := false; modelBuilder := m |}
    else if Byte.eqb current equalsSign then
      {| previousWasNewLine := false; isInsideQuote := false;
         encounteredComment := false; modelBuilder := m |}
    else if Byte.eqb current quote then
      {| previousWasNewLine := false; isInsideQuote := true;
         encounteredComment := false; modelBuilder := m |}
    else
      {| previousWasNewLine := false; isInsideQuote := false;
         encounteredComment := false; modelBuilder := m |}
  else
    {| previousWasNewLine := false; isInsideQuote := false;
       encounteredComment := true; modelBuilder := m |}.

(** The loop [while(fileBegin < fileEnd)] over [rest], the bytes from
    [fileBegin] to [fileEnd]. *)
Fixpoint scan (rest : list byte) (fileBegin : nat) (s : Scan) : Scan :=
  match rest with
  | [] => s
  | current :: rest => scan rest (S fileBegin) (scanByte fileBegin current s)
  end.

(** [parseFileContents(fileContents, byteCount, allocatedByteCount)]: the
    builder it leaves behind. *)
Definition parseFileContents (fileContents : list byte) (allocatedByteCount : Z)
  : t :=
  let s :=
    scan fileContents 0
      {| previousWasNewLine := false; isInsideQuote := false;
         encounteredComment := false;
         modelBuilder := BeginLine 0 (create allocatedByteCount) |} in
  if previousWasNewLine s then modelBuilder s
  else EndLine (length fileContents) (modelBuilder s).

(** The bytes of the file between the two pointers of a call. *)
Definition addedBytes (fileContents : list byte) (a : AddedLine)
  : list (option byte) :=
  match lineBegin a with
  | Some lineBegin =>
      FileParser.copy_n fileContents lineBegin (lineEnd a - lineBegin)
  | None => []
  end.

End ModelBuilder.

(** * The same line at another place of a file *)

Module Shift.
Import FileParser Pending.

Definition shiftPointer (k : nat) (pointer : option nat) : option nat :=
  option_map (Nat.add k) pointer.

(** The line state of [p] is the line state of [q], [k] bytes further
    into the file. *)
Definition shifted (k : nat) (p q : t) : Prop :=
  cursor p
  = ((k + parsePosition q)%nat, (k + lineStart q)%nat,
     shiftPointer k (nameStart q), shiftPointer k (nameEnd q),
     shiftPointer k (valueStart q), shiftPointer k (valueEnd q),
     sectionFound q, equalsSignFound q, lineIsMalformed q).

(** The document a new parser leaves when it has parsed a file into a new
    document. *)
Definition parsedDocument (fileContents : list byte) : IniDocumentModel :=
  match ParseInto fileContents emptyDocument with
  | Some p => target p
  | None => emptyDocument
  end.

(** A record written into a block that the document [d] does not hold. *)
Definition inNewBlock (d : IniDocumentModel) (e : Ptr * LineRecord) : Prop :=
  exists block, ptrBlock (fst e) = Some block /\ heap d !! block = None.

(** What a parser that has been given the document [d] keeps true of the
    memory: every block [d] holds is still held, at its size; the records
    of [d] are followed by records in blocks [d] does not hold; and the
    parser carves from no chunk of [d]: when room is left in a chunk, that
    chunk is one [d] does not hold. *)
Definition extends (d : IniDocumentModel) (p : t) : Prop :=
  (forall block size,
     heap d !! block = Some size -> heap (target p) !! block = Some size)
  /\ (exists added,
        lineRecords (target p) = lineRecords d ++ added
        /\ Forall (inNewBlock d) added)
  /\ 0 <= remainingChunkByteCount p
  /\ (0 < remainingChunkByteCount p ->
      exists chunk,
        nth_error (loadedLinesMemory (target p))
          (length (loadedLinesMemory (target p)) - 1) = Some chunk
        /\ heap d !! chunk = None).

End Shift.

(** * Lines as they are meant to be written *)

Module WellFormed.

(** Whitespace within a line. *)
Definition blank (c : byte) : Prop := classify c = CWhitespace.

(** A byte without a meaning of its own to the parser: no whitespace, no
    bracket, no quote, no equals sign and no start of a comment. *)
Definition plain (c : byte) : Prop := classify c = COther.

(** A byte a value is made of: a plain byte or a bracket. *)
Definition valueByte (c : byte) : Prop :=
  classify c = COther \/ classify c = COpenBracket \/ classify c = CCloseBracket.

(** A byte a section name is made of: a plain byte or whitespace. *)
Definition sectionNameByte (c : byte) : Prop :=
  classify c = COther \/ classify c = CWhitespace.

(** Nothing, or a comment: [;] or [#] and what follows it in the line. *)
Definition commentText (comment : list byte) : Prop :=
  match comment with
  | [] => True
  | c :: text =>
      classify c = CComment /\ Forall (fun x => classify x <> CNewline) text
  end.

(** What may stand between two quotes: no quote and no line break. *)
Definition quotedByte (c : byte) : Prop :=
  classify c <> CQuote /\ classify c <> CNewline.

(** The line [name = value], with whitespace wherever it may stand and a
    comment behind the value. *)
Definition propertyLineText (ws1 name ws2 ws3 value ws4 comment : list byte)
  : list byte :=
  ws1 ++ name ++ ws2 ++ [equalsSign] ++ ws3 ++ value ++ ws4 ++ comment
  ++ [newline].

(** The line [[name]], with whitespace before and behind the brackets. *)
Definition sectionLineText (ws1 name ws2 : list byte) : list byte :=
  ws1 ++ [openBracket] ++ name ++ [closeBracket] ++ ws2 ++ [newline].

End WellFormed.

(** * Properties *)

(** ** What [submitLine] stores *)

Module ParserFacts.
Import FileParser Pending.

Lemma allocateChunked_frame T n p :
  cursor (snd (allocateChunked T n p)) = cursor p
  /\ lineRecords (target (snd (allocateChunked T n p))) = lineRecords (target p)
  /\ sections (target (snd (allocateChunked T n p))) = sections (target p)
  /\ currentSection (snd (allocateChunked T n p)) = currentSection p.
Proof.
  unfold allocateChunked.
  destruct (to_size_t _ <? AllocationChunkSize);
    [destruct (remainingChunkByteCount p <? _)|]; simpl; auto.
Qed.

Lemma allocateLineChunked_frame b T c n p :
  let '(_, line, q) := allocateLineChunked b T c n p in
  line = {| Contents := copy_n b c (Z.to_nat n); Length := n |}
  /\ cursor q = cursor p
  /\ lineRecords (target q) = lineRecords (target p)
  /\ sections (target q) = sections (target p)
  /\ currentSection q = currentSection p.
Proof.
  unfold allocateLineChunked.
  pose proof (allocateChunked_frame T n p) as H.
  destruct (allocateChunked T n p) as [a q]; simpl in *. tauto.
Qed.

(** [submitLine] steps over one byte, stores the pending record behind the
    stored ones, resets the line state and leaves the section index alone. *)
Lemma submitLine_spec b p :
  cursor (submitLine b p)
  = (S (parsePosition p), S (parsePosition p), None, None, None, None,
     false, false, false)
  /\ storedLines (target (submitLine b p))
     = storedLines (target p) ++ [pendingRecord b p]
  /\ sections (target (submitLine b p)) = sections (target p)
  /\ currentSection (submitLine b p) = currentSection p.
Proof.
  unfold submitLine, pendingRecord, generatePropertyLine, generateSectionLine.
  change (lineIsMalformed (advance p)) with (lineIsMalformed p).
  change (equalsSignFound (advance p)) with (equalsSignFound p).
  change (sectionFound (advance p)) with (sectionFound p).
  change (parsePosition (advance p)) with (S (parsePosition p)).
  change (lineStart (advance p)) with (lineStart p).
  assert (Hadv : cursor (advance p)
                 = (S (parsePosition p), lineStart p, nameStart p, nameEnd p,
                    valueStart p, valueEnd p, sectionFound p,
                    equalsSignFound p, lineIsMalformed p)) by reflexivity.
  destruct (lineIsMalformed p) eqn:Hm;
    [|destruct (equalsSignFound p) eqn:He; [|destruct (sectionFound p) eqn:Hs]].
  all: match goal with
       | |- context [allocateLineChunked ?b' ?T ?c ?n ?p'] =>
           pose proof (allocateLineChunked_frame b' T c n p') as H;
           destruct (allocateLineChunked b' T c n p') as [[a line] q]
       end;
       destruct H as (-> & Hc & Hl & Hsec & Hcur);
       rewrite Hadv in Hc; unfold cursor in Hc;
       injection Hc as E1 E2 E3 E4 E5 E6 E7 E8 E9.
  all: unfold storedLines, pendingLine, pendingName, pendingValue, cursor, store.
  all: destruct (valueStart p), (valueEnd p), (nameStart p), (nameEnd p).
  all: repeat
         (progress
            (simpl;
             rewrite ?E1, ?E2, ?E3, ?E4, ?E5, ?E6, ?Hl, ?Hsec, ?Hcur, ?map_app));
       simpl; auto.
Qed.

Lemma submitLine_fields b p :
  parsePosition (submitLine b p) = S (parsePosition p)
  /\ lineStart (submitLine b p) = S (parsePosition p)
  /\ nameStart (submitLine b p) = None
  /\ nameEnd (submitLine b p) = None
  /\ valueStart (submitLine b p) = None
  /\ valueEnd (submitLine b p) = None
  /\ sectionFound (submitLine b p) = false
  /\ equalsSignFound (submitLine b p) = false
  /\ lineIsMalformed (submitLine b p) = false.
Proof.
  destruct (submitLine_spec b p) as (Hc & _). unfold cursor in Hc.
  repeat split; congruence.
Qed.

End ParserFacts.

(** ** The loops of the parser and the pass *)

Lemma byte_cases (P : byte -> Prop) :
  P newline -> P semicolon -> P hash -> P openBracket -> P closeBracket ->
  P quote -> P equalsSign -> P space -> P tab -> P carriageReturn ->
  (forall c,
      Byte.eqb c newline = false -> Byte.eqb c semicolon = false ->
      Byte.eqb c hash = false -> Byte.eqb c openBracket = false ->
      Byte.eqb c closeBracket = false -> Byte.eqb c quote = false ->
      Byte.eqb c equalsSign = false -> isWhitepace c = false ->
      classify c = COther -> P c) ->
  forall c, P c.
Proof.
  intros Hnl Hsc Hh Ho Hc Hq He Hsp Ht Hcr Hother c.
  destruct (Byte.eqb c newline) eqn:E1;
    [apply byte_dec_bl in E1; subst; assumption|].
  destruct (Byte.eqb c semicolon) eqn:E2;
    [apply byte_dec_bl in E2; subst; assumption|].
  destruct (Byte.eqb c hash) eqn:E3;
    [apply byte_dec_bl in E3; subst; assumption|].
  destruct (Byte.eqb c openBracket) eqn:E4;
    [apply byte_dec_bl in E4; subst; assumption|].
  destruct (Byte.eqb c closeBracket) eqn:E5;
    [apply byte_dec_bl in E5; subst; assumption|].
  destruct (Byte.eqb c quote) eqn:E6;
    [apply byte_dec_bl in E6; subst; assumption|].
  destruct (Byte.eqb c equalsSign) eqn:E7;
    [apply byte_dec_bl in E7; subst; assumption|].
  destruct (Byte.eqb c space) eqn:E8;
    [apply byte_dec_bl in E8; subst; assumption|].
  destruct (Byte.eqb c tab) eqn:E9;
    [apply byte_dec_bl in E9; subst; assumption|].
  destruct (Byte.eqb c carriageReturn) eqn:E10;
    [apply byte_dec_bl in E10; subst; assumption|].
  apply Hother; auto; unfold classify, isWhitepace;
    rewrite ?E1, ?E2, ?E3, ?E4, ?E5, ?E6, ?E7, ?E8, ?E9, ?E10; reflexivity.
Qed.

Module FlatFacts.
Import FileParser Pending ParserFacts Flat Invariants.

Lemma Mode_eq_main (mode : Mode) : mode = MMain \/ mode <> MMain.
Proof. destruct mode; [left; reflexivity|right; discriminate..]. Qed.

Lemma parseComment_eq rest p : parseComment rest p = parseMalformedLine_loop rest p.
Proof.
  revert p; induction rest as [|c rest IH]; intros p; simpl; [reflexivity|].
  destruct (Byte.eqb c newline); [reflexivity|apply IH].
Qed.

Opaque submitLine.

Lemma parseName_loop_unfold b c rest q e s p :
  Inv p ->
  parseName_loop b (c :: rest) q e s p
  = match nameOutcome (classify c) q e s p with
    | Next mode p' => nested b rest mode p'
    | Return p' => p'
    end.
Proof.
  intros HInv. unfold Inv in HInv.
  pattern c; apply byte_cases; clear c;
    [..|intros c E1 E2 E3 E4 E5 E6 E7 E8 Ec; rewrite Ec];
    destruct q; simpl;
      rewrite ?E1, ?E2, ?E3, ?E4, ?E5, ?E6, ?E7, ?E8; simpl; try reflexivity.
  all: unfold parseMalformedLine; simpl;
       rewrite ?E1, ?E2, ?E3, ?E4, ?E5, ?E6, ?E7, ?E8; simpl.
  all: repeat match goal with
         | |- context [if ?x then _ else _] => destruct x eqn:?; simpl
         end; try reflexivity.
  all: try (destruct (nameStart p); simpl in *; try discriminate;
            specialize (HInv eq_refl); discriminate).
Qed.

Lemma parseValue_loop_unfold b c rest q e p :
  parseValue_loop (c :: rest) q e p
  = match valueOutcome (classify c) q e p with
    | Next mode p' => nested b rest mode p'
    | Return p' => p'
    end.
Proof.
  pattern c; apply byte_cases; clear c;
    [..|intros c E1 E2 E3 E4 E5 E6 E7 E8 Ec; rewrite Ec];
    destruct q; simpl;
      rewrite ?E1, ?E2, ?E3, ?E4, ?E5, ?E6, ?E7, ?E8; simpl; try reflexivity.
  all: unfold parseMalformedLine; simpl;
       rewrite ?E1, ?E2, ?E3, ?E4, ?E5, ?E6, ?E7, ?E8, ?parseComment_eq; simpl.
  all: repeat match goal with
         | |- context [if ?x then _ else _] => destruct x eqn:?; simpl
         end; try reflexivity.
Qed.

Lemma parseMalformedLine_loop_unfold b c rest p :
  parseMalformedLine_loop (c :: rest) p
  = match skipOutcome (classify c) p with
    | Next mode p' => nested b rest mode p'
    | Return p' => p'
    end.
Proof.
  pattern c; apply byte_cases; clear c;
    [..|intros c E1 E2 E3 E4 E5 E6 E7 E8 Ec; rewrite Ec];
    simpl; rewrite ?E1; reflexivity.
Qed.

(** The body of the loop of [ParseInto] is the first step of the pass,
    followed by the rest of the loop it has called. *)
Lemma ParseInto_body_unfold b c rest p :
  Inv p ->
  ParseInto_body b c (c :: rest) p
  = nested b rest (fst (mainStep b (classify c) p)) (snd (mainStep b (classify c) p)).
Proof.
  intros HInv. unfold ParseInto_body, parseName, parseValue.
  rewrite (parseName_loop_unfold b c rest false false false p HInv).
  rewrite (parseValue_loop_unfold b c rest false false p).
  rewrite parseComment_eq. unfold parseMalformedLine.
  rewrite !(parseMalformedLine_loop_unfold b).
  pattern c; apply byte_cases; clear c;
    [..|intros c E1 E2 E3 E4 E5 E6 E7 E8 Ec; rewrite Ec];
    simpl; rewrite ?E1, ?E2, ?E3, ?E4, ?E5, ?E6, ?E7, ?E8; simpl;
    try reflexivity.
  all: repeat match goal with
         | |- context [if ?x then _ else _] => destruct x eqn:?; simpl
         end; try reflexivity.
Qed.

Lemma outcome_Next k mode p mode' p' :
  outcome k mode p = Next mode' p' ->
  parsePosition p' = S (parsePosition p)
  /\ lineStart p' = lineStart p
  /\ target p' = target p
  /\ (Inv p -> Inv p').
Proof.
  unfold Inv.
  destruct mode as [|q e s|q e|]; simpl; [discriminate|..];
    [destruct q|destruct q|]; destruct k; simpl; unfold malformed;
    repeat match goal with
      | |- context [if ?x then _ else _] => destruct x eqn:?; simpl
      end;
    intros H; inversion H; subst; clear H; simpl; repeat split; auto.
  all: intros; repeat match goal with
         | H : _ || _ = false |- _ => apply orb_false_elim in H; destruct H
         | H : negb _ = false |- _ => apply negb_false_iff in H
         end; auto.
  all: try (destruct (nameStart p); reflexivity || auto).
Qed.

Lemma outcome_Return k mode p p' :
  mode <> MMain ->
  outcome k mode p = Return p' ->
  (k = CNewline \/ k = CEquals)
  /\ parsePosition p' = parsePosition p
  /\ lineStart p' = lineStart p
  /\ target p' = target p
  /\ (Inv p -> Inv p').
Proof.
  unfold Inv.
  destruct mode as [|q e s|q e|]; simpl; [congruence|..]; intros _;
    [destruct q|destruct q|]; destruct k; simpl; unfold malformed;
    repeat match goal with
      | |- context [if ?x then _ else _] => destruct x eqn:?; simpl
      end;
    intros H; inversion H; subst; clear H; simpl; repeat split; auto.
Qed.

Lemma step_outcome b k mode p :
  mode <> MMain -> step b k mode p = continue b k (outcome k mode p).
Proof. destruct mode; simpl; congruence. Qed.

Lemma nested_unfold b c rest mode p :
  mode <> MMain -> Inv p ->
  nested b (c :: rest) mode p
  = match outcome (classify c) mode p with
    | Next mode' p' => nested b rest mode' p'
    | Return p' => p'
    end.
Proof.
  intros Hm HInv. destruct mode as [|q e s|q e|]; simpl; [congruence|..].
  - apply parseName_loop_unfold; assumption.
  - apply parseValue_loop_unfold.
  - apply parseMalformedLine_loop_unfold.
Qed.

Lemma nested_nil b mode p : nested b [] mode p = p.
Proof. destruct mode; reflexivity. Qed.

Lemma resume_spec b k p :
  parsePosition (snd (resume b k p)) = S (parsePosition p)
  /\ (Inv p -> Inv (snd (resume b k p))).
Proof.
  unfold resume, Inv.
  destruct k; try (destruct (equalsSignFound p)); simpl;
    try (split; [reflexivity|tauto]).
  all: destruct (submitLine_fields b p) as (E1 & _ & _ & _ & _ & _ & E7 & _);
       rewrite E1, E7; split; [reflexivity|discriminate].
Qed.

Lemma mainStep_spec b k p :
  parsePosition (snd (mainStep b k p)) = S (parsePosition p)
  /\ (Inv p -> Inv (snd (mainStep b k p))).
Proof.
  assert (Hcont : forall mode, mode <> MMain ->
            (k <> CNewline /\ k <> CEquals) ->
            parsePosition (snd (continue b k (outcome k mode p)))
            = S (parsePosition p)
            /\ (Inv p -> Inv (snd (continue b k (outcome k mode p))))).
  { intros mode Hm [Hk1 Hk2]. destruct (outcome k mode p) as [m' p'|p'] eqn:Ho.
    - apply outcome_Next in Ho. simpl. tauto.
    - apply outcome_Return in Ho; [|assumption]. tauto. }
  destruct k; try apply resume_spec; simpl;
    try (split; [reflexivity|unfold Inv; tauto]).
  all: destruct (equalsSignFound p);
       [apply (Hcont (MValue false false))|apply (Hcont (MName false false false))];
       try discriminate; split; discriminate.
Qed.

(** A loop called by [ParseInto] reads some bytes and returns; the pass
    from the state it returns is the pass from the state it was called in. *)
Lemma nested_run b rest : forall mode p,
  Inv p ->
  exists k,
    parsePosition (nested b rest mode p) = (parsePosition p + k)%nat
    /\ (k <= length rest)%nat
    /\ Inv (nested b rest mode p)
    /\ snd (run b rest mode p)
       = snd (run b (skipn k rest) MMain (nested b rest mode p)).
Proof.
  induction rest as [|c rest IH]; intros mode p HInv.
  - exists O. rewrite nested_nil. simpl. repeat split; auto.
  - destruct (Mode_eq_main mode) as [->|Hm].
    + exists O. simpl. repeat split; auto with arith.
    + rewrite nested_unfold by assumption.
      simpl run. rewrite step_outcome by assumption.
      destruct (outcome (classify c) mode p) as [mode' p'|p'] eqn:Ho.
      * apply outcome_Next in Ho. destruct Ho as (Hp & _ & _ & Hi).
        destruct (IH mode' p' (Hi HInv)) as (k & Hk1 & Hk2 & Hk3 & Hk4).
        exists (S k). simpl. rewrite Hk1, Hp.
        repeat split; auto with arith; lia.
      * apply outcome_Return in Ho; [|assumption].
        destruct Ho as (Hk & Hp & _ & _ & Hi).
        exists O. simpl. rewrite Hp. repeat split; auto with arith.
        destruct Hk as [-> | ->]; reflexivity.
Qed.

Lemma skipn_cons_S {A} (l : list A) : forall n c r,
  skipn n l = c :: r -> skipn (S n) l = r.
Proof.
  induction l as [|x l IH]; intros n c r H.
  - destruct n; discriminate.
  - destruct n.
    + injection H as -> ->. reflexivity.
    + change (skipn (S (S n)) (x :: l)) with (skipn (S n) l).
      eapply IH. exact H.
Qed.

Lemma skipn_add {A} (l : list A) : forall n k, skipn (n + k) l = skipn k (skipn n l).
Proof.
  induction l as [|x l IH]; intros n k.
  - rewrite !skipn_nil. reflexivity.
  - destruct n; [reflexivity|]. apply IH.
Qed.

(** The loop of [ParseInto] ends, within one iteration per byte still to
    read, in the state the pass ends in. *)
Theorem ParseInto_loop_run b : forall fuel p rest,
  Inv p ->
  skipn (parsePosition p) b = rest ->
  (length rest <= fuel)%nat ->
  ParseInto_loop b fuel p = Some (snd (run b rest MMain p)).
Proof.
  induction fuel as [|fuel IH]; intros p rest HInv Hrest Hlen.
  - destruct rest; [|simpl in Hlen; lia]. simpl. rewrite Hrest. reflexivity.
  - destruct rest as [|c rest].
    + simpl. rewrite Hrest. reflexivity.
    + simpl ParseInto_loop. rewrite Hrest.
      rewrite ParseInto_body_unfold by assumption.
      simpl run.
      destruct (mainStep_spec b (classify c) p) as (Hp1 & Hi1).
      destruct (mainStep b (classify c) p) as [m1 p1]. simpl in *.
      destruct (nested_run b rest m1 p1 (Hi1 HInv)) as (k & Hk1 & Hk2 & Hk3 & Hk4).
      rewrite Hk4. apply IH; auto.
      * rewrite Hk1, Hp1, skipn_add. f_equal.
        eapply skipn_cons_S; eassumption.
      * rewrite length_skipn. simpl in Hlen. lia.
Qed.

(** [ParseInto] always returns, and returns what the pass computes. *)
Theorem ParseInto_run b d :
  ParseInto b d = Some (finish b (snd (run b b MMain (start d)))).
Proof.
  unfold ParseInto.
  rewrite (ParseInto_loop_run b (length b) (start d) b); auto.
  unfold Inv; simpl; discriminate.
Qed.

(** *** What one step of the pass does to the position and the lines *)

Lemma step_pos b k mode p :
  parsePosition (snd (step b k mode p)) = S (parsePosition p).
Proof.
  destruct (Mode_eq_main mode) as [->|Hm]; [apply mainStep_spec|].
  rewrite step_outcome by assumption.
  destruct (outcome k mode p) as [m' p'|p'] eqn:Ho; simpl.
  - apply outcome_Next in Ho. tauto.
  - apply outcome_Return in Ho; [|assumption].
    destruct Ho as (_ & <- & _). apply resume_spec.
Qed.

Lemma step_newline b mode p :
  step b CNewline mode p = (MMain, submitLine b (beforeSubmit mode p)).
Proof. destruct mode as [|[] ? ?|[] ?|]; reflexivity. Qed.

Lemma step_other b k mode p :
  k <> CNewline ->
  lineStart (snd (step b k mode p)) = lineStart p
  /\ target (snd (step b k mode p)) = target p.
Proof.
  intros Hk.
  assert (Hres : forall q, lineStart (snd (resume b CEquals q)) = lineStart q
                           /\ target (snd (resume b CEquals q)) = target q).
  { intros q. unfold resume. destruct (equalsSignFound q); simpl; auto. }
  assert (Hcont : forall mode, mode <> MMain ->
            lineStart (snd (continue b k (outcome k mode p))) = lineStart p
            /\ target (snd (continue b k (outcome k mode p))) = target p).
  { intros m Hm. destruct (outcome k m p) as [m' p'|p'] eqn:Ho; simpl.
    - apply outcome_Next in Ho. tauto.
    - apply outcome_Return in Ho; [|assumption].
      destruct Ho as ([->| ->] & _ & <- & <- & _); [congruence|apply Hres]. }
  destruct (Mode_eq_main mode) as [->|Hm].
  - destruct k; try congruence; try apply Hres; simpl; auto.
    all: destruct (equalsSignFound p);
         [apply (Hcont (MValue false false))|apply (Hcont (MName false false false))];
         discriminate.
  - rewrite step_outcome by assumption. apply Hcont. assumption.
Qed.

Lemma classify_newline c : classify c = CNewline <-> c = newline.
Proof.
  pattern c; apply byte_cases; clear c;
    [..|intros c E1 E2 E3 E4 E5 E6 E7 E8 Ec; rewrite Ec];
    (split; [try discriminate; try reflexivity|try discriminate; try reflexivity]).
  intros ->. discriminate.
Qed.

(** A property of the mode and state of the pass that every step keeps
    holds when the pass ends. The step may rely on the byte it reads. *)
Lemma run_invariant b (P : Mode -> t -> Prop) :
  (forall c mode p,
      P mode p -> nth_error b (parsePosition p) = Some c ->
      P (fst (step b (classify c) mode p)) (snd (step b (classify c) mode p))) ->
  forall rest mode p,
    skipn (parsePosition p) b = rest ->
    P mode p ->
    P (fst (run b rest mode p)) (snd (run b rest mode p)).
Proof.
  intros Hstep. induction rest as [|c rest IH]; intros mode p Hrest HP.
  - exact HP.
  - simpl. pose proof (step_pos b (classify c) mode p) as Hpos.
    assert (Hc : nth_error b (parsePosition p) = Some c).
    { rewrite <- (firstn_skipn (parsePosition p) b) at 1.
      assert (Hlen : (parsePosition p <= length b)%nat).
      { destruct (Nat.le_gt_cases (parsePosition p) (length b)) as [H|H]; auto.
        rewrite skipn_all2 in Hrest by lia. discriminate. }
      rewrite nth_error_app2 by (rewrite length_firstn; lia).
      rewrite length_firstn, Nat.min_l, Nat.sub_diag, Hrest by lia.
      reflexivity. }
    specialize (Hstep c mode p HP Hc).
    destruct (step b (classify c) mode p) as [m1 p1]. simpl in *.
    apply IH; [|exact Hstep].
    rewrite Hpos. eapply skipn_cons_S. exact Hrest.
Qed.

Lemma run_pos b : forall rest mode p,
  parsePosition (snd (run b rest mode p)) = (parsePosition p + length rest)%nat.
Proof.
  induction rest as [|c rest IH]; intros mode p; simpl; [lia|].
  pose proof (step_pos b (classify c) mode p) as Hpos.
  destruct (step b (classify c) mode p) as [m1 p1]. simpl in *.
  rewrite IH, Hpos. lia.
Qed.

(** *** The stored lines tile the file *)

Lemma ptrdiff_small (a c : nat) :
  (c <= a)%nat -> Z.of_nat a < 2 ^ 64 ->
  ptrdiff a c = Z.of_nat a - Z.of_nat c.
Proof.
  intros Hle Ha. unfold ptrdiff, to_size_t. apply Z.mod_small. lia.
Qed.

Lemma copy_n_app b (start k1 k2 : nat) :
  copy_n b start k1 ++ copy_n b (start + k1) k2 = copy_n b start (k1 + k2).
Proof. unfold copy_n. rewrite seq_app, map_app. reflexivity. Qed.

Lemma copy_n_all b : copy_n b 0 (length b) = map Some b.
Proof.
  unfold copy_n. induction b as [|x b IH]; [reflexivity|].
  simpl. f_equal. rewrite <- seq_shift, map_map. exact IH.
Qed.

Lemma reconstruct_app l1 l2 : reconstruct (l1 ++ l2) = reconstruct l1 ++ reconstruct l2.
Proof. unfold reconstruct. rewrite map_app, concat_app. reflexivity. Qed.

Lemma lineOf_pendingRecord b p : lineOf (pendingRecord b p) = pendingLine b p.
Proof.
  unfold pendingRecord.
  destruct (lineIsMalformed p), (equalsSignFound p), (sectionFound p); reflexivity.
Qed.

Lemma beforeSubmit_frame mode p :
  parsePosition (beforeSubmit mode p) = parsePosition p
  /\ lineStart (beforeSubmit mode p) = lineStart p
  /\ target (beforeSubmit mode p) = target p.
Proof. destruct mode as [|[] ? ?|[] ?|]; simpl; auto. Qed.

(** What [submitLine] adds to the stored bytes: the bytes from [lineStart]
    to the byte at [parsePosition], that one included. *)
Lemma submitLine_reconstruct b p :
  representable b ->
  (lineStart p <= parsePosition p <= length b)%nat ->
  reconstruct (storedLines (target p)) = copy_n b 0 (lineStart p) ->
  reconstruct (storedLines (target (submitLine b p)))
  = copy_n b 0 (S (parsePosition p)).
Proof.
  intros Hrep Hle Hrec. unfold representable in Hrep.
  destruct (submitLine_spec b p) as (_ & -> & _).
  rewrite reconstruct_app, Hrec. unfold reconstruct. simpl.
  rewrite app_nil_r, lineOf_pendingRecord. unfold pendingLine. simpl.
  rewrite ptrdiff_small by lia.
  replace (Z.to_nat (Z.of_nat (S (parsePosition p)) - Z.of_nat (lineStart p)))
    with (S (parsePosition p) - lineStart p)%nat by lia.
  rewrite (copy_n_app b 0). f_equal. lia.
Qed.

Lemma step_tiled b c mode p :
  representable b ->
  tiled b p -> nth_error b (parsePosition p) = Some c ->
  tiled b (snd (step b (classify c) mode p)).
Proof.
  intros Hrep (Hle & Hrec & Hiff) Hc.
  assert (Hlt : (parsePosition p < length b)%nat)
    by (apply nth_error_Some; congruence).
  pose proof (step_pos b (classify c) mode p) as Hpos.
  destruct (classify c) eqn:Hk.
  1:{ apply classify_newline in Hk. subst c.
      rewrite step_newline in *. simpl in *.
      destruct (beforeSubmit_frame mode p) as (E1 & E2 & E3).
      destruct (submitLine_fields b (beforeSubmit mode p)) as (F1 & F2 & _).
      unfold tiled. rewrite F1, F2, E1.
      split; [lia|]. split.
      - rewrite <- E1.
        apply submitLine_reconstruct; auto; rewrite ?E1, ?E2, ?E3; auto; lia.
      - simpl. rewrite Nat.sub_0_r. tauto. }
  all: destruct (step_other b (classify c) mode p) as (Hls & Ht);
       [rewrite Hk; discriminate|].
  all: rewrite Hk in *; unfold tiled; rewrite Hpos, Hls, Ht.
  all: split; [lia|]; split; [exact Hrec|].
  all: simpl; rewrite Nat.sub_0_r, Hc.
  all: split; [lia|intros [H|H]; [discriminate|]].
  all: injection H as ->; discriminate.
Qed.

(** When the pass has read the whole file, the stored lines are the bytes
    before [lineStart]. *)
Lemma run_tiled b d :
  representable b ->
  storedLines d = [] ->
  tiled b (snd (run b b MMain (start d)))
  /\ parsePosition (snd (run b b MMain (start d))) = length b.
Proof.
  intros Hrep Hd. split; [|apply run_pos].
  apply (run_invariant b (fun _ p => tiled b p)).
  - intros c mode p Hp Hc. apply step_tiled; assumption.
  - reflexivity.
  - unfold tiled. simpl. unfold storedLines in Hd. unfold storedLines.
    rewrite Hd. repeat split; auto; lia.
Qed.

Lemma endsWithLineBreak_spec b :
  endsWithLineBreak b = true
  <-> (length b = O \/ nth_error b (length b - 1) = Some newline).
Proof.
  unfold endsWithLineBreak.
  destruct (nth_error b (length b - 1)) as [c|] eqn:E.
  - split.
    + intros H. apply byte_dec_bl in H. subst. auto.
    + intros [H| H].
      * destruct b; [discriminate E|discriminate H].
      * injection H as ->. reflexivity.
  - split; auto. intros _. left.
    apply nth_error_None in E. lia.
Qed.

(** Concatenating the [Contents] of the stored lines gives back the file
    when it is empty or ends in a line break; otherwise it gives the file
    and one byte more, read from beyond its end. [ParseInto] returns on
    every file. *)
Theorem parse_reconstruct b :
  representable b ->
  exists lines,
    parse b = Some lines
    /\ reconstruct lines
       = map Some b ++ (if endsWithLineBreak b then [] else [None]).
Proof.
  intros Hrep. unfold parse. rewrite ParseInto_run.
  destruct (run_tiled b emptyDocument Hrep eq_refl) as ((Hle & Hrec & Hiff) & Hpos).
  set (p := snd (run b b MMain (start emptyDocument))) in *.
  eexists. split; [reflexivity|]. unfold finish. rewrite Hpos in *.
  destruct (lineStart p <? length b)%nat eqn:E;
    [apply Nat.ltb_lt in E|apply Nat.ltb_ge in E].
  - rewrite submitLine_reconstruct by (auto; rewrite ?Hpos; lia).
    rewrite Hpos. replace (S (length b)) with (length b + 1)%nat by lia.
    rewrite <- (copy_n_app b 0), copy_n_all. f_equal.
    destruct (endsWithLineBreak b) eqn:Eb.
    + apply endsWithLineBreak_spec in Eb.
      assert (lineStart p = length b) by (apply Hiff; exact Eb). lia.
    + unfold copy_n. simpl.
      replace (nth_error b (length b)) with (@None byte); [reflexivity|].
      symmetry. apply nth_error_None. lia.
  - assert (Els : lineStart p = length b) by lia.
    rewrite Hrec, Els, copy_n_all.
    assert (Eb : endsWithLineBreak b = true)
      by (apply endsWithLineBreak_spec; apply Hiff; exact Els).
    rewrite Eb, app_nil_r. reflexivity.
Qed.

(** *** Name and value spans *)

Ltac clean_goal :=
  match goal with
  | |- startsCleanAt _ _ _ =>
      assumption
      || (left; eexists; split; [eassumption|assumption || reflexivity])
      || (right; split; [lia|];
          rewrite ?Nat.sub_succ, ?Nat.sub_0_r; simpl; rewrite ?Nat.sub_0_r; auto)
  | |- valueStartsCleanAt _ _ _ =>
      assumption
      || (left; eexists; split; [eassumption|assumption || reflexivity])
      || (right; split; [lia|];
          rewrite ?Nat.sub_succ, ?Nat.sub_0_r; simpl; rewrite ?Nat.sub_0_r; auto)
  | |- endsCleanAt _ _ =>
      assumption
      || (left; eexists; split; [lia|]; simpl; rewrite ?Nat.sub_0_r;
          split; [eassumption|assumption])
      || (right; auto)
  | |- True => exact I
  end.

Lemma step_spans b c mode p :
  spans b mode p -> nth_error b (parsePosition p) = Some c ->
  spans b (fst (step b (classify c) mode p)) (snd (step b (classify c) mode p)).
Proof.
  intros (Hpos & HInv & Hns & Hne & Hvs & Hmode) Hc. unfold Inv in HInv.
  destruct (classify c) eqn:Hk.
  1:{ rewrite step_newline. simpl.
      destruct (submitLine_fields b (beforeSubmit mode p))
        as (F1 & F2 & F3 & F4 & F5 & F6 & F7 & F8 & F9).
      unfold spans, Inv. rewrite F1, F2, F3, F4, F5, F7.
      repeat split; auto; intros; discriminate. }
  all: rewrite <- Hk; revert Hk Hc; pattern c; apply byte_cases; clear c;
       [..|intros c E1 E2 E3 E4 E5 E6 E7 E8 Ec; rewrite Ec];
       intros Hk Hc; try discriminate Hk; clear Hk.
  all: destruct (nameStart p) as [ns0|] eqn:Ens;
       [specialize (Hns ns0 eq_refl); destruct Hns as (Hns1 & Hns2)|clear Hns].
  all: destruct (nameEnd p) as [ne0|] eqn:Ene;
       [specialize (Hne ne0 eq_refl); destruct Hne as (ns1 & Hne1 & Hne2 & Hne3);
        try discriminate Hne1; try (injection Hne1 as <-)|clear Hne].
  all: destruct (valueStart p) as [vs0|] eqn:Evs;
       [specialize (Hvs vs0 eq_refl); destruct Hvs as (Hvs1 & Hvs2)|clear Hvs].
  all: destruct mode as [|q e s|q e|]; [|destruct q, e, s|destruct q, e|];
       simpl in *; rewrite ?Ens, ?Ene, ?Evs; simpl.
  all: repeat match goal with
         | H : _ /\ _ |- _ => destruct H
         | H : true = true -> _ |- _ => specialize (H eq_refl)
         | H : false = true -> _ |- _ => clear H
         | H : true = false |- _ => discriminate H
         | H : false = true |- _ => discriminate H
         end.
  all: repeat match goal with
         | |- context [if ?x then _ else _] => destruct x eqn:?; simpl
         end.
  all: unfold spans, Inv; simpl; rewrite ?Ens, ?Ene, ?Evs; simpl.
  all: try (destruct (sectionFound p); [specialize (HInv eq_refl)|clear HInv]).
  all: repeat split; intros; subst;
       repeat match goal with
         | H : Some _ = Some _ |- _ => injection H as H; subst
         | H : None = Some _ |- _ => discriminate H
         | H : true = false |- _ => discriminate H
         | H : false = true |- _ => discriminate H
         | H : _ /\ _ |- _ => destruct H
         | |- exists ns, Some ?n = Some ns /\ _ => exists n; split; [reflexivity|]
         | |- _ /\ _ => split
         end; subst; try lia; try congruence; try clean_goal.
Qed.

End FlatFacts.

(** ** The chunked allocator *)

Module ArenaFacts.
Import FileParser Arena.

Lemma to_size_t_small z : 0 <= z < 2 ^ 64 -> to_size_t z = z.
Proof. intros H. unfold to_size_t. apply Z.mod_small. exact H. Qed.

Lemma getSizePlusAlignmentPadding_ge T :
  validLayout T -> sizeOf T <= getSizePlusAlignmentPadding T.
Proof.
  intros [Hs Ha]. unfold getSizePlusAlignmentPadding.
  pose proof (Z.mod_pos_bound (sizeOf T) (alignOf T) Ha).
  destruct (0 <? sizeOf T mod alignOf T); lia.
Qed.

Lemma freshBlock_fresh d : heap d !! freshBlock d = None.
Proof.
  unfold freshBlock. apply not_elem_of_dom. apply is_fresh.
Qed.

Lemma arenaOk_start d : loadedLinesMemory d = [] -> arenaOk (start d).
Proof.
  intros H. unfold arenaOk, AllocationChunkSize. simpl. rewrite H.
  repeat split; auto; lia.
Qed.

Lemma last_snoc {A} (l : list A) (x d : A) : List.last (l ++ [x]) d = x.
Proof. apply last_last. Qed.

Lemma last_In {A} (l : list A) (d : A) : l <> [] -> In (List.last l d) l.
Proof.
  induction l as [|x [|y l] IH]; intros H; [congruence|left; reflexivity|].
  right. apply IH. discriminate.
Qed.

Lemma nth_error_last {A} (l : list A) (d x : A) :
  nth_error l (length l - 1) = Some x -> List.last l d = x.
Proof.
  induction l as [|y [|z l] IH]; simpl; intros H; [discriminate|congruence|].
  apply IH. simpl. rewrite Nat.sub_0_r. exact H.
Qed.

(** C5. An allocation of [s] bytes, [s] the aligned size of the record
    plus the payload bytes: when [2 * s] is less than the chunk size of 4096
    bytes it is carved from the current chunk, a new chunk of 4096 bytes
    being started first when fewer than [s] bytes remain, and all its bytes
    lie inside that chunk; otherwise it is a block of its own, entered in
    [createdLinesMemory], the set of blocks freed one by one. The state of
    the allocator is sound before the call ([arenaOk], which holds when
    parsing starts and, by this theorem, after every allocation) and [s] is
    a size an object can have. *)
Theorem allocateChunked_spec (T : TypeLayout) (extraByteCount : Z) (p : t) :
  arenaOk p ->
  validLayout T ->
  0 <= extraByteCount ->
  getSizePlusAlignmentPadding T + extraByteCount < 2 ^ 63 ->
  let s := getSizePlusAlignmentPadding T + extraByteCount in
  let address := fst (allocateChunked T extraByteCount p) in
  let p' := snd (allocateChunked T extraByteCount p) in
  arenaOk p'
  /\ (2 * s < AllocationChunkSize -> carvedFromChunk s p address p')
  /\ (AllocationChunkSize <= 2 * s -> dedicatedBlock s p address p').
Proof.
  intros (Hrem & Hnone & Hchunks) HT Hextra Hfit s address p'.
  pose proof (getSizePlusAlignmentPadding_ge T HT) as Hge.
  destruct HT as [HsT HaT].
  assert (Hs : 0 < s < 2 ^ 63) by (unfold s; lia).
  subst address p'. unfold allocateChunked.
  fold s. rewrite (to_size_t_small s) by lia.
  rewrite (to_size_t_small (s * 2)) by lia.
  unfold AllocationChunkSize in *.
  pose proof (freshBlock_fresh (target p)) as Hfresh.
  destruct (s * 2 <? 4096) eqn:Hsmall;
    [apply Z.ltb_lt in Hsmall|apply Z.ltb_ge in Hsmall].
  - destruct (remainingChunkByteCount p <? s) eqn:Hroom;
      [apply Z.ltb_lt in Hroom|apply Z.ltb_ge in Hroom]; simpl.
    + rewrite (to_size_t_small (4096 - s)) by lia.
      split; [|split; [|intros; lia]].
      * unfold arenaOk, AllocationChunkSize; simpl. repeat split; try lia.
        -- intros Habs. destruct (loadedLinesMemory (target p)); discriminate.
        -- apply Forall_app. split.
           ++ eapply Forall_impl; [exact Hchunks|]. intros c Hc. simpl in Hc.
              rewrite lookup_insert_ne; [exact Hc|]. congruence.
           ++ constructor; [|constructor]. apply lookup_insert_eq.
      * intros _. exists (freshBlock (target p)). unfold AllocationChunkSize; simpl.
        rewrite last_snoc, lookup_insert_eq.
        apply Z.ltb_lt in Hroom. rewrite Hroom.
        repeat split; auto; try lia.
        apply in_or_app. right. left. reflexivity.
    + rewrite (to_size_t_small (remainingChunkByteCount p - s)) by lia.
      assert (Hne : loadedLinesMemory (target p) <> []).
      { intros Habs. specialize (Hnone Habs). lia. }
      split; [|split; [|intros; lia]].
      * unfold arenaOk, AllocationChunkSize; simpl. repeat split; try lia.
        -- intros Habs. contradiction.
        -- exact Hchunks.
      * intros _.
        destruct (nth_error (loadedLinesMemory (target p))
                    (length (loadedLinesMemory (target p)) - 1)) as [chunk|] eqn:Hnth.
        2:{ apply nth_error_None in Hnth.
            destruct (loadedLinesMemory (target p)); [congruence|simpl in Hnth; lia]. }
        exists chunk. unfold AllocationChunkSize; simpl.
        pose proof (nth_error_last _ chunk _ Hnth) as Hlast.
        pose proof (nth_error_In _ _ Hnth) as Hin.
        rewrite Forall_forall in Hchunks.
        apply Z.ltb_ge in Hroom. rewrite Hroom.
        repeat split; auto; try lia.
        apply Hchunks. apply list_elem_of_In. exact Hin.
  - simpl. split; [|split; [intros; lia|]].
    + unfold arenaOk, AllocationChunkSize; simpl. repeat split; try lia; auto.
      eapply Forall_impl; [exact Hchunks|]. intros c Hc. simpl in Hc.
      rewrite lookup_insert_ne; [exact Hc|]. congruence.
    + intros _. exists (freshBlock (target p)). repeat split; auto.
Qed.

(** The theorem at the first line of a parse: a [Line] with five bytes of
    text, allocated by a parser that has no chunk yet. *)
Lemma allocateChunked_spec_witness :
  arenaOk (start emptyDocument)
  /\ validLayout LineLayout
  /\ 0 <= 5
  /\ getSizePlusAlignmentPadding LineLayout + 5 < 2 ^ 63
  /\ (arenaOk (snd (allocateChunked LineLayout 5 (start emptyDocument)))
      /\ (2 * (getSizePlusAlignmentPadding LineLayout + 5) < AllocationChunkSize ->
          carvedFromChunk (getSizePlusAlignmentPadding LineLayout + 5)
            (start emptyDocument)
            (fst (allocateChunked LineLayout 5 (start emptyDocument)))
            (snd (allocateChunked LineLayout 5 (start emptyDocument))))
      /\ (AllocationChunkSize <= 2 * (getSizePlusAlignmentPadding LineLayout + 5) ->
          dedicatedBlock (getSizePlusAlignmentPadding LineLayout + 5)
            (start emptyDocument)
            (fst (allocateChunked LineLayout 5 (start emptyDocument)))
            (snd (allocateChunked LineLayout 5 (start emptyDocument))))).
Proof.
  assert (H1 : arenaOk (start emptyDocument)) by (apply arenaOk_start; reflexivity).
  assert (H2 : validLayout LineLayout) by (unfold validLayout; simpl; lia).
  assert (H3 : 0 <= 5) by lia.
  assert (H4 : getSizePlusAlignmentPadding LineLayout + 5 < 2 ^ 63)
    by (vm_compute; reflexivity).
  split; [exact H1|]. split; [exact H2|]. split; [exact H3|].
  split; [exact H4|].
  exact (allocateChunked_spec LineLayout 5 (start emptyDocument) H1 H2 H3 H4).
Defined.

End ArenaFacts.

(** ** The memory estimate *)

Module EstimatorFacts.
Import MemoryEstimator ScanInvariant ArenaFacts.

Lemma growUntilAligned_bounds byteCount :
  0 <= byteCount -> byteCount + 7 < 2 ^ 64 ->
  byteCount <= growUntilAligned byteCount 8 <= byteCount + 7.
Proof.
  intros H0 H1. unfold growUntilAligned.
  pose proof (Z.mod_pos_bound byteCount 8 ltac:(lia)).
  destruct (0 <? byteCount mod 8) eqn:E; [|lia].
  rewrite to_size_t_small; lia.
Qed.

Lemma layoutOf_bounds k :
  alignOf (layoutOf k) = 8
  /\ 32 <= sizeOf (layoutOf k) * 2 / 2 <= 64.
Proof.
  destruct k; (split; [reflexivity|vm_compute; split; discriminate]).
Qed.

(** [EndLine] at [filePosition] adds the bytes of the line, from
    [lineStartPosition] to [filePosition], and the size of its record, at
    least [sizeof(Line)], behind at most 7 bytes of padding. *)
Lemma EndLine_adds filePosition m lineStart :
  lineStartPosition m = Some lineStart ->
  (lineStart <= filePosition)%nat ->
  0 <= ByteCount m ->
  ByteCount m + 71 + (Z.of_nat filePosition - Z.of_nat lineStart) < 2 ^ 64 ->
  exists m',
    EndLine filePosition m = Some m'
    /\ lineStartPosition m' = Some filePosition
    /\ endedLines m'
       = endedLines m
         ++ [(lineKind m, Z.of_nat filePosition - Z.of_nat lineStart)]
    /\ ByteCount m + sizeOf LineLayout + (Z.of_nat filePosition - Z.of_nat lineStart)
       <= ByteCount m'
       <= ByteCount m + 71 + (Z.of_nat filePosition - Z.of_nat lineStart)
    /\ sectionStarted m' = false /\ sectionEnded m' = false
    /\ foundAssignment m' = false /\ lineIsMalformed m' = false.
Proof.
  intros Hls Hle H0 Hfit. unfold EndLine. rewrite Hls.
  eexists. split; [reflexivity|]. simpl.
  destruct (layoutOf_bounds (lineKind m)) as (Ha & Hs). rewrite Ha.
  pose proof (growUntilAligned_bounds (ByteCount m) H0 ltac:(lia)) as Hg.
  rewrite (to_size_t_small (growUntilAligned (ByteCount m) 8 + _)) by lia.
  rewrite to_size_t_small by lia.
  repeat split; auto; lia.
Qed.

Lemma fold_right_add_init (l : list Z) (z : Z) :
  fold_right Z.add z l = fold_right Z.add 0 l + z.
Proof. induction l as [|x l IH]; simpl; lia. Qed.

Lemma scanByte_ok N pos current s :
  72 * (Z.of_nat N + 1) < 2 ^ 64 ->
  (pos < N)%nat ->
  scanOk N pos s ->
  exists s',
    scanByte pos current s = Some s'
    /\ scanOk N (S pos) s'
    /\ ByteCount (memoryEstimate s) <= ByteCount (memoryEstimate s').
Proof.
  intros HN Hpos (ls & Hls & Hle & Hnl & Hcount & Hsum & Hbc).
  assert (Hend : exists m',
             EndLine (S pos) (memoryEstimate s) = Some m'
             /\ scanOk N (S pos)
                  {| previousWasNewLine := true; isInsideQuote := false;
                     encounteredComment := false; memoryEstimate := m' |}
             /\ ByteCount (memoryEstimate s) <= ByteCount m').
  { destruct (EndLine_adds (S pos) (memoryEstimate s) ls Hls ltac:(lia) ltac:(lia)
                ltac:(lia)) as (m' & He & Hls' & Hended & Hb & _).
    exists m'. split; [exact He|]. simpl in Hb. split; [|lia].
    exists (S pos). unfold endedBytes in *. simpl.
    rewrite Hended, length_app, map_app, fold_right_app. simpl.
    rewrite fold_right_add_init, Hsum.
    repeat split; auto; lia. }
  assert (Hsame : forall pw q c m',
             pw = false ->
             lineStartPosition m' = lineStartPosition (memoryEstimate s) ->
             endedLines m' = endedLines (memoryEstimate s) ->
             ByteCount m' = ByteCount (memoryEstimate s) ->
             scanOk N (S pos)
               {| previousWasNewLine := pw; isInsideQuote := q;
                  encounteredComment := c; memoryEstimate := m' |}
             /\ ByteCount (memoryEstimate s) <= ByteCount m').
  { intros pw q c m' -> E1 E2 E3. split; [|lia].
    exists ls. unfold endedBytes in *. simpl. rewrite E1, E2, E3.
    repeat split; auto; try lia; discriminate. }
  unfold scanByte.
  destruct (Byte.eqb current newline).
  { destruct Hend as (m' & -> & Hok & Hmono). eauto. }
  destruct (isInsideQuote s).
  { eexists. split; [reflexivity|]. apply Hsame; reflexivity. }
  destruct (encounteredComment s); simpl.
  2:{ destruct (Byte.eqb current semicolon || Byte.eqb current hash).
      { eexists. split; [reflexivity|]. apply Hsame; reflexivity. }
      destruct (Byte.eqb current openBracket).
      { unfold BeginSection. destruct (sectionEnded (memoryEstimate s)).
        - destruct (EndLine_adds pos (memoryEstimate s) ls Hls ltac:(lia)
                      ltac:(lia) ltac:(lia))
            as (m' & He & Hls' & Hended & Hb & _).
          rewrite He. eexists. split; [reflexivity|]. simpl in Hb.
          split; [|simpl; lia].
          exists pos. unfold endedBytes in *. simpl.
          rewrite Hended, length_app, map_app, fold_right_app. simpl.
          rewrite fold_right_add_init, Hsum.
          repeat split; auto; try lia; discriminate.
        - eexists. split; [reflexivity|]. apply Hsame; reflexivity. }
      destruct (Byte.eqb current closeBracket).
      { eexists. split; [reflexivity|]. unfold EndSection.
        destruct (sectionStarted (memoryEstimate s)); apply Hsame; reflexivity. }
      destruct (Byte.eqb current equalsSign).
      { eexists. split; [reflexivity|]. unfold AddAssignment.
        destruct (foundAssignment (memoryEstimate s)); apply Hsame; reflexivity. }
      destruct (Byte.eqb current quote);
        (eexists; split; [reflexivity|]; apply Hsame; reflexivity). }
  eexists. split; [reflexivity|]. apply Hsame; reflexivity.
Qed.

(** The scan never fails, keeps [scanOk] and never lowers [ByteCount]. *)
Lemma scan_ok N : forall rest pos s,
  72 * (Z.of_nat N + 1) < 2 ^ 64 ->
  (pos + length rest <= N)%nat ->
  scanOk N pos s ->
  exists s',
    scan rest pos s = Some s'
    /\ scanOk N (pos + length rest) s'
    /\ ByteCount (memoryEstimate s) <= ByteCount (memoryEstimate s').
Proof.
  induction rest as [|c rest IH]; intros pos s HN Hlen Hok.
  - exists s. simpl. rewrite Nat.add_0_r. repeat split; auto; lia.
  - simpl in Hlen.
    destruct (scanByte_ok N pos c s HN ltac:(lia) Hok) as (s1 & E1 & Hok1 & Hm1).
    destruct (IH (S pos) s1 HN ltac:(lia) Hok1) as (s2 & E2 & Hok2 & Hm2).
    exists s2. simpl. rewrite E1, E2.
    replace (pos + S (length rest))%nat with (S pos + length rest)%nat by lia.
    repeat split; auto; lia.
Qed.

Lemma scan_app : forall l1 l2 pos s,
  scan (l1 ++ l2) pos s
  = match scan l1 pos s with
    | Some s' => scan l2 (pos + length l1) s'
    | None => None
    end.
Proof.
  induction l1 as [|c l1 IH]; intros l2 pos s; simpl.
  - rewrite Nat.add_0_r. reflexivity.
  - destruct (scanByte pos c s) as [s1|]; [|reflexivity].
    rewrite IH. replace (S pos + length l1)%nat with (pos + S (length l1))%nat by lia.
    reflexivity.
Qed.

Lemma scanOk_begin N :
  scanOk N 0
    {| previousWasNewLine := false; isInsideQuote := false;
       encounteredComment := false;
       memoryEstimate := with_lineStartPosition 0 create |}.
Proof.
  exists O. simpl. repeat split; auto; try lia; discriminate.
Qed.

Lemma estimate_unfold b :
  estimate b
  = match
      scan b 0
        {| previousWasNewLine := false; isInsideQuote := false;
           encounteredComment := false;
           memoryEstimate := with_lineStartPosition 0 create |}
    with
    | None => None
    | Some s =>
        if previousWasNewLine s then Some (memoryEstimate s)
        else EndLine (length b) (memoryEstimate s)
    end.
Proof. reflexivity. Qed.

Lemma scanned_unfold b k :
  scanned b k
  = scan (firstn k b) 0
      {| previousWasNewLine := false; isInsideQuote := false;
         encounteredComment := false;
         memoryEstimate := with_lineStartPosition 0 create |}.
Proof. reflexivity. Qed.

(** The scan of a file cut in two: the scan of the first part, continued on
    the second, is the scan of the file, and the byte count only grows. *)
Lemma scan_split b l1 l2 :
  72 * (Z.of_nat (length b) + 1) < 2 ^ 64 ->
  l1 ++ l2 = b ->
  exists s1 s2,
    scan l1 0
      {| previousWasNewLine := false; isInsideQuote := false;
         encounteredComment := false;
         memoryEstimate := with_lineStartPosition 0 create |} = Some s1
    /\ scan l2 (length l1) s1 = Some s2
    /\ scan b 0
         {| previousWasNewLine := false; isInsideQuote := false;
            encounteredComment := false;
            memoryEstimate := with_lineStartPosition 0 create |} = Some s2
    /\ scanOk (length b) (length b) s2
    /\ ByteCount (memoryEstimate s1) <= ByteCount (memoryEstimate s2).
Proof.
  intros HN Hb. set (n := length b) in *.
  assert (Hl : (length l1 + length l2 = n)%nat)
    by (unfold n; rewrite <- Hb, length_app; reflexivity).
  destruct (scan_ok n l1 0 _ HN ltac:(simpl; lia) (scanOk_begin n))
    as (s1 & E1 & Hok1 & _).
  destruct (scan_ok n l2 (0 + length l1) s1 HN ltac:(simpl; lia) Hok1)
    as (s2 & E2 & Hok2 & Hm2).
  exists s1, s2. rewrite <- Hb at 1. rewrite scan_app, E1.
  simpl in *. rewrite E2. replace (length l1 + length l2)%nat with n in Hok2.
  repeat split; auto.
Qed.

(** Behind the loop [estimateRequiredMemory] ends the line under way, when
    there is one: the estimate holds the bytes of the file and 32 bytes or
    more for each ended line, and is no less than the count of the loop. *)
Lemma estimate_final b s :
  72 * (Z.of_nat (length b) + 1) < 2 ^ 64 ->
  scan b 0
    {| previousWasNewLine := false; isInsideQuote := false;
       encounteredComment := false;
       memoryEstimate := with_lineStartPosition 0 create |} = Some s ->
  scanOk (length b) (length b) s ->
  exists m,
    estimate b = Some m
    /\ endedBytes m = Z.of_nat (length b)
    /\ Z.of_nat (length b) + 32 * Z.of_nat (length (endedLines m)) <= ByteCount m
    /\ ByteCount (memoryEstimate s) <= ByteCount m.
Proof.
  intros HN Es Hok. set (n := length b) in *.
  rewrite estimate_unfold, Es.
  destruct Hok as (ls & Hls & Hle & Hnl & Hcount & Hsum & Hbc).
  destruct (previousWasNewLine s) eqn:Hp.
  - exists (memoryEstimate s). specialize (Hnl eq_refl). subst ls.
    repeat split; auto; lia.
  - destruct (EndLine_adds n (memoryEstimate s) ls Hls ltac:(lia) ltac:(lia)
                ltac:(lia)) as (m & He & Hls' & Hended & Hb & _).
    exists m. fold n. rewrite He. simpl in Hb. unfold endedBytes in *.
    rewrite Hended, length_app, map_app, fold_right_app. simpl.
    rewrite fold_right_add_init, Hsum.
    repeat split; auto; lia.
Qed.

(** The count of the loop when it has read [k] bytes is never above the
    estimate returned. *)
Lemma scanned_below_estimate b k :
  72 * (Z.of_nat (length b) + 1) < 2 ^ 64 ->
  exists sk m,
    scanned b k = Some sk
    /\ estimateRequiredMemory b = Some (ByteCount m)
    /\ ByteCount (memoryEstimate sk) <= ByteCount m.
Proof.
  intros HN.
  destruct (scan_split b (firstn k b) (skipn k b) HN (firstn_skipn k b))
    as (sk & s & Ek & _ & Es & Hok & Hk).
  destruct (estimate_final b s HN Es Hok) as (m & Em & _ & _ & Hs).
  exists sk, m. rewrite scanned_unfold. unfold estimateRequiredMemory.
  rewrite Em. repeat split; auto; lia.
Qed.

(** C10. For every file of [n] bytes, [estimateRequiredMemory] returns at
    least [n] plus [sizeof(Line)] for each line it has ended: the ended
    lines hold the [n] bytes between them, and the byte count accumulated
    when the loop has read [j] bytes is never above the one accumulated when
    it has read [k >= j] bytes, nor above the estimate returned. The file is
    one whose estimate fits a [std::size_t]. *)
Theorem estimate_lower_bound (b : list byte) :
  72 * (Z.of_nat (length b) + 1) < 2 ^ 64 ->
  exists m,
    estimate b = Some m
    /\ estimateRequiredMemory b = Some (ByteCount m)
    /\ endedBytes m = Z.of_nat (length b)
    /\ Z.of_nat (length b) + sizeOf LineLayout * Z.of_nat (length (endedLines m))
       <= ByteCount m
    /\ (forall j k, (j <= k)%nat ->
        exists sj sk,
          scanned b j = Some sj /\ scanned b k = Some sk
          /\ ByteCount (memoryEstimate sj) <= ByteCount (memoryEstimate sk)
          /\ ByteCount (memoryEstimate sk) <= ByteCount m).
Proof.
  intros HN. set (n := length b) in *.
  set (s0 := {| previousWasNewLine := false; isInsideQuote := false;
                encounteredComment := false;
                memoryEstimate := with_lineStartPosition 0 create |}).
  assert (Hsplit : forall l1 l2, l1 ++ l2 = b ->
            exists s1 s2,
              scan l1 0 s0 = Some s1
              /\ scan l2 (length l1) s1 = Some s2
              /\ scan b 0 s0 = Some s2
              /\ scanOk n n s2
              /\ ByteCount (memoryEstimate s1) <= ByteCount (memoryEstimate s2))
    by (intros l1 l2 Hb; exact (scan_split b l1 l2 HN Hb)).
  destruct (Hsplit [] b eq_refl) as (_ & s & _ & _ & Es & Hok & _).
  destruct (estimate_final b s HN Es Hok) as (m & Em & Hsum & Hlow & Hs).
  exists m. unfold estimateRequiredMemory. rewrite Em.
  change (sizeOf LineLayout) with 32.
  repeat split; auto.
  intros j k Hjk. rewrite !scanned_unfold. fold s0.
  destruct (Hsplit (firstn k b) (skipn k b) (firstn_skipn k b))
    as (sk & s' & Ek & _ & Es' & _ & Hk).
  assert (Es2 : s' = s) by congruence. subst s'.
  assert (Hj : firstn j b ++ skipn j (firstn k b) = firstn k b).
  { transitivity (firstn j (firstn k b) ++ skipn j (firstn k b));
      [|apply firstn_skipn].
    rewrite firstn_firstn, Nat.min_l by lia. reflexivity. }
  destruct (scan_ok n (firstn j b) 0 s0 HN
              ltac:(simpl; unfold n; rewrite length_firstn; lia) (scanOk_begin n))
    as (sj & Ej & Hokj & _).
  assert (Hlenk : (length (firstn j b) + length (skipn j (firstn k b)) <= n)%nat).
  { rewrite <- length_app, Hj. unfold n. rewrite length_firstn. lia. }
  destruct (scan_ok n (skipn j (firstn k b)) (0 + length (firstn j b)) sj HN
              ltac:(simpl; lia) Hokj)
    as (sk' & Ek' & _ & Hjk').
  assert (Esk : sk' = sk).
  { rewrite <- Hj, scan_app, Ej in Ek. simpl in Ek, Ek'. congruence. }
  subst sk'. exists sj, sk. repeat split; auto; lia.
Qed.

(** The theorem at the file [Foo = Bar] followed by a line break. *)
Lemma estimate_lower_bound_witness :
  72 * (Z.of_nat (length (bytes "Foo = Bar" ++ [newline])) + 1) < 2 ^ 64
  /\ exists m,
      estimate (bytes "Foo = Bar" ++ [newline]) = Some m
      /\ estimateRequiredMemory (bytes "Foo = Bar" ++ [newline]) = Some (ByteCount m)
      /\ endedBytes m = Z.of_nat (length (bytes "Foo = Bar" ++ [newline]))
      /\ Z.of_nat (length (bytes "Foo = Bar" ++ [newline]))
         + sizeOf LineLayout * Z.of_nat (length (endedLines m))
         <= ByteCount m
      /\ (forall j k, (j <= k)%nat ->
          exists sj sk,
            scanned (bytes "Foo = Bar" ++ [newline]) j = Some sj
            /\ scanned (bytes "Foo = Bar" ++ [newline]) k = Some sk
            /\ ByteCount (memoryEstimate sj) <= ByteCount (memoryEstimate sk)
            /\ ByteCount (memoryEstimate sk) <= ByteCount m).
Proof.
  assert (H : 72 * (Z.of_nat (length (bytes "Foo = Bar" ++ [newline])) + 1) < 2 ^ 64)
    by (vm_compute; reflexivity).
  split; [exact H|].
  exact (estimate_lower_bound (bytes "Foo = Bar" ++ [newline]) H).
Defined.

End EstimatorFacts.

(** ** Name and value spans *)

Module SpanFacts.
Import FileParser Pending Flat Invariants ParserFacts FlatFacts.

Lemma byteAt_pendingLine b p (i : nat) :
  representable b ->
  (lineStart p <= parsePosition p <= length b)%nat ->
  (lineStart p + i <= parsePosition p)%nat ->
  byteAt (pendingLine b p) (Z.of_nat i) = nth_error b (lineStart p + i).
Proof.
  intros Hrep Hle Hi. unfold representable in Hrep.
  unfold byteAt, pendingLine, copy_n. simpl.
  rewrite ptrdiff_small by lia. rewrite Nat2Z.id.
  rewrite nth_error_map, nth_error_seq.
  replace (i <? Z.to_nat (Z.of_nat (S (parsePosition p)) - Z.of_nat (lineStart p)))%nat
    with true by (symmetry; apply Nat.ltb_lt; lia).
  simpl. destruct (nth_error b (lineStart p + i)); reflexivity.
Qed.

Lemma startsClean_pendingLine b p i :
  representable b ->
  (lineStart p <= parsePosition p <= length b)%nat ->
  (lineStart p <= i <= parsePosition p)%nat ->
  startsCleanAt b (lineStart p) i ->
  startsClean (pendingLine b p) (Z.of_nat i - Z.of_nat (lineStart p)).
Proof.
  intros Hrep Hle Hi [(x & Hx & Hw)|(Hlt & Hb)].
  - left. exists x. split; [|exact Hw].
    replace (Z.of_nat i - Z.of_nat (lineStart p))
      with (Z.of_nat (i - lineStart p)) by lia.
    rewrite byteAt_pendingLine by (auto; lia).
    replace (lineStart p + (i - lineStart p))%nat with i by lia. exact Hx.
  - right. split; [lia|].
    replace (Z.of_nat i - Z.of_nat (lineStart p) - 1)
      with (Z.of_nat (i - 1 - lineStart p)) by lia.
    rewrite byteAt_pendingLine by (auto; lia).
    replace (lineStart p + (i - 1 - lineStart p))%nat with (i - 1)%nat by lia.
    exact Hb.
Qed.

Lemma valueStartsClean_pendingLine b p i :
  representable b ->
  (lineStart p <= parsePosition p <= length b)%nat ->
  (lineStart p <= i <= parsePosition p)%nat ->
  valueStartsCleanAt b (lineStart p) i ->
  valueStartsClean (pendingLine b p) (Z.of_nat i - Z.of_nat (lineStart p)).
Proof.
  intros Hrep Hle Hi [(x & Hx & Hw)|(Hlt & Hb)].
  - left. exists x. split; [|exact Hw].
    replace (Z.of_nat i - Z.of_nat (lineStart p))
      with (Z.of_nat (i - lineStart p)) by lia.
    rewrite byteAt_pendingLine by (auto; lia).
    replace (lineStart p + (i - lineStart p))%nat with i by lia. exact Hx.
  - right. split; [lia|].
    replace (Z.of_nat i - Z.of_nat (lineStart p) - 1)
      with (Z.of_nat (i - 1 - lineStart p)) by lia.
    rewrite byteAt_pendingLine by (auto; lia).
    replace (lineStart p + (i - 1 - lineStart p))%nat with (i - 1)%nat by lia.
    exact Hb.
Qed.

Lemma endsClean_pendingLine b p ns j :
  representable b ->
  (lineStart p <= parsePosition p <= length b)%nat ->
  (lineStart p <= ns)%nat -> (ns < j <= parsePosition p)%nat ->
  endsCleanAt b j ->
  endsClean (pendingLine b p) (Z.of_nat j - Z.of_nat (lineStart p)).
Proof.
  intros Hrep Hle Hns Hj [(x & H0 & Hx & Hw)|Hb].
  - left. exists x. split; [|exact Hw].
    replace (Z.of_nat j - Z.of_nat (lineStart p) - 1)
      with (Z.of_nat (j - 1 - lineStart p)) by lia.
    rewrite byteAt_pendingLine by (auto; lia).
    replace (lineStart p + (j - 1 - lineStart p))%nat with (j - 1)%nat by lia.
    exact Hx.
  - right.
    replace (Z.of_nat j - Z.of_nat (lineStart p))
      with (Z.of_nat (j - lineStart p)) by lia.
    rewrite byteAt_pendingLine by (auto; lia).
    replace (lineStart p + (j - lineStart p))%nat with j by lia. exact Hb.
Qed.

(** The record [submitLine] stores for a line whose pointers are as the
    loops keep them has its spans as [spanOk] says. *)
Lemma pendingRecord_spanOk b mode p :
  representable b ->
  (parsePosition p <= length b)%nat ->
  spans b mode p ->
  spanOk (pendingRecord b p).
Proof.
  intros Hrep Hlen (Hpos & HInv & Hns & Hne & Hvs & Hmode).
  assert (Hrep' := Hrep). unfold representable in Hrep'.
  assert (Hname : (equalsSignFound p = true \/ sectionFound p = true) ->
            nameSpanOk (pendingLine b p) (fst (pendingName p)) (snd (pendingName p))).
  { intros Hkind. unfold pendingName, nameSpanOk.
    assert (HL : Length (pendingLine b p)
                 = Z.of_nat (S (parsePosition p)) - Z.of_nat (lineStart p))
      by (unfold pendingLine; simpl; apply ptrdiff_small; lia).
    rewrite HL.
    destruct (nameStart p) as [ns|] eqn:Ens; [|simpl; lia].
    destruct (Hns ns eq_refl) as (Hns1 & Hns2).
    destruct (nameEnd p) as [ne|] eqn:Ene; [|simpl; lia].
    destruct (Hne ne eq_refl) as (ns' & E & Hne1 & Hne2).
    injection E as <-. simpl.
    rewrite !ptrdiff_small by lia.
    repeat split; try lia.
    - apply startsClean_pendingLine; auto; lia.
    - replace (Z.of_nat ns - Z.of_nat (lineStart p) + (Z.of_nat ne - Z.of_nat ns))
        with (Z.of_nat ne - Z.of_nat (lineStart p)) by lia.
      apply (endsClean_pendingLine b p ns); auto; try lia.
      destruct mode as [|[] e s|? ?|]; auto.
      destruct Hmode as (He & Hq & Hes & _).
      destruct (Hes (Hq eq_refl)) as (_ & Hs & _).
      destruct Hkind; congruence. }
  unfold pendingRecord.
  destruct (lineIsMalformed p); [exact I|].
  destruct (equalsSignFound p) eqn:He.
  - simpl. split; [apply Hname; auto|].
    unfold pendingValue, valueStartOk.
    assert (HL : Length (pendingLine b p)
                 = Z.of_nat (S (parsePosition p)) - Z.of_nat (lineStart p))
      by (unfold pendingLine; simpl; apply ptrdiff_small; lia).
    rewrite HL.
    destruct (valueStart p) as [vs|] eqn:Evs; [|simpl; lia].
    destruct (Hvs vs eq_refl) as (Hvs1 & Hvs2).
    destruct (valueEnd p); simpl; [|lia].
    rewrite ptrdiff_small by lia. split; [lia|]. intros _.
    apply valueStartsClean_pendingLine; auto; lia.
  - destruct (sectionFound p) eqn:Hs; [|exact I].
    simpl. apply Hname; auto.
Qed.

Lemma spans_beforeSubmit b mode p :
  spans b mode p ->
  lineIsMalformed (beforeSubmit mode p) = true
  \/ beforeSubmit mode p = p.
Proof. intros _. destruct mode as [|[] ? ?|[] ?|]; simpl; auto. Qed.

Lemma submitLine_spanOk b mode p :
  representable b ->
  (parsePosition p <= length b)%nat ->
  spans b mode p ->
  Forall spanOk (storedLines (target p)) ->
  Forall spanOk (storedLines (target (submitLine b (beforeSubmit mode p)))).
Proof.
  intros Hrep Hlen Hsp Hall.
  destruct (submitLine_spec b (beforeSubmit mode p)) as (_ & -> & _).
  destruct (beforeSubmit_frame mode p) as (_ & _ & ->).
  apply Forall_app. split; [exact Hall|]. constructor; [|constructor].
  destruct (spans_beforeSubmit b mode p Hsp) as [Hm| ->].
  - unfold pendingRecord. rewrite Hm. exact I.
  - eapply pendingRecord_spanOk; eauto.
Qed.

Lemma step_spansKept b c mode p :
  representable b ->
  spansKept b mode p -> nth_error b (parsePosition p) = Some c ->
  spansKept b (fst (step b (classify c) mode p)) (snd (step b (classify c) mode p)).
Proof.
  intros Hrep (Ht & Hsp & Hall) Hc.
  split; [apply step_tiled; assumption|].
  split; [apply step_spans; assumption|].
  destruct (classify c) eqn:Hk.
  1:{ rewrite step_newline. simpl.
      apply submitLine_spanOk; auto. destruct Ht as ((_ & H) & _). exact H. }
  all: destruct (step_other b (classify c) mode p) as (_ & Ht');
       [rewrite Hk; discriminate|rewrite Hk in Ht'; rewrite Ht'; exact Hall].
Qed.

(** C8 (amended). For every file, the name span of every stored Section or
    Property line lies within the bytes of its line ([NameStartIndex +
    NameLength <= Length]) and so does the start of a Property line's value;
    a name that is not empty starts at a byte that is no whitespace or right
    behind an opening bracket or a quote, and ends behind a byte that is no
    whitespace or right before a closing bracket or a quote; a value starts
    at a byte that is no whitespace or right behind a quote. The lines keep
    every byte of the file, whitespace included. Nothing is said of
    [ValueLength]. *)
Theorem spans_within_line b :
  representable b ->
  exists lines,
    parse b = Some lines
    /\ Forall spanOk lines
    /\ reconstruct lines
       = map Some b ++ (if endsWithLineBreak b then [] else [None]).
Proof.
  intros Hrep.
  destruct (parse_reconstruct b Hrep) as (lines & Hparse & Hrec).
  exists lines. split; [exact Hparse|]. split; [|exact Hrec].
  unfold parse in Hparse. rewrite ParseInto_run in Hparse.
  injection Hparse as <-.
  pose proof (run_invariant b (spansKept b) (fun c mode p => step_spansKept b c mode p Hrep)
                b MMain (start emptyDocument) eq_refl) as Hrun.
  pose proof (run_pos b b MMain (start emptyDocument)) as Hpos. simpl in Hpos.
  destruct (run b b MMain (start emptyDocument)) as [mode p]. simpl in *.
  destruct Hrun as (Ht & Hsp & Hall).
  { unfold spansKept, tiled, spans, Inv. simpl.
    repeat split; auto; try lia; try discriminate. }
  unfold finish. destruct (lineStart p <? parsePosition p)%nat; [|exact Hall].
  destruct (submitLine_spec b p) as (_ & -> & _).
  apply Forall_app. split; [exact Hall|]. constructor; [|constructor].
  eapply pendingRecord_spanOk; eauto. lia.
Qed.

(** The theorem at a section and a property on one line. *)
Lemma spans_within_line_witness :
  representable (bytes "[Foo] Bar = Baz" ++ [newline])
  /\ exists lines,
      parse (bytes "[Foo] Bar = Baz" ++ [newline]) = Some lines
      /\ Forall spanOk lines
      /\ reconstruct lines
         = map Some (bytes "[Foo] Bar = Baz" ++ [newline])
           ++ (if endsWithLineBreak (bytes "[Foo] Bar = Baz" ++ [newline])
               then [] else [None]).
Proof.
  assert (H : representable (bytes "[Foo] Bar = Baz" ++ [newline]))
    by (vm_compute; reflexivity).
  split; [exact H|].
  exact (spans_within_line (bytes "[Foo] Bar = Baz" ++ [newline]) H).
Defined.

(** C8 as stated fails: the name span of the section line [[ A ]] holds
    the whitespace between the brackets. *)
Lemma section_name_keeps_whitespace :
  option_map (map (fun r => (kindOf r, nameOf r))) (parse (bytes "[ A ]" ++ [newline]))
  = Some [(KSection, [Some space; Some "A"%byte; Some space])].
Proof. vm_compute; reflexivity. Qed.

(** [generatePropertyLine] measures [ValueLength] from [nameStart], not from
    [valueStart]: for [a=b] the value starts at index 2 and has length 3, in
    a line of 4 bytes. *)
Lemma value_length_measured_from_name_start :
  parse (bytes "a=b" ++ [newline])
  = Some [PropertyRecord
            {| PropertyLine.base :=
                 {| Contents := map Some (bytes "a=b" ++ [newline]); Length := 4 |};
               PropertyLine.NameStartIndex := 0;
               PropertyLine.NameLength := 1;
               PropertyLine.ValueStartIndex := 2;
               PropertyLine.ValueLength := Some 3 |}].
Proof. vm_compute; reflexivity. Qed.

End SpanFacts.

(** ** Equals signs *)

Module LexFacts.
Import FileParser Pending Flat Invariants ParserFacts FlatFacts.

Lemma step_agrees b c L mode p :
  classify c <> CNewline ->
  agrees L mode p ->
  agrees (lexStep L (Some c)) (fst (step b (classify c) mode p))
    (snd (step b (classify c) mode p)).
Proof.
  intros Hk Hag. destruct L as [lq lc ln]. unfold lexStep.
  revert Hk; pattern c; apply byte_cases; clear c;
    [..|intros c E1 E2 E3 E4 E5 E6 E7 E8 Ec; rewrite Ec];
    intros Hk; try (exfalso; apply Hk; reflexivity); clear Hk.
  all: unfold agrees in *; simpl in *.
  all: destruct mode as [|q e s|q e|]; [|destruct q|destruct q|]; simpl.
  all: repeat match goal with
         | |- context [if ?x then _ else _] => destruct x eqn:?; simpl
         end.
  all: destruct Hag as [Hm|(Hn & Hmode)];
       [left; simpl; first [assumption|reflexivity]|].
  all: repeat match goal with
         | H : _ /\ _ |- _ => destruct H
         end; subst; simpl in *; try discriminate; try congruence.
  all: try (left; reflexivity); try (right; repeat split; auto; congruence).
Qed.

Lemma lexOf_step b p p' :
  lineStart p' = lineStart p ->
  parsePosition p' = S (parsePosition p) ->
  (lineStart p <= parsePosition p)%nat ->
  lexOf b p' = lexStep (lexOf b p) (nth_error b (parsePosition p)).
Proof.
  intros Hls Hpos Hle. unfold lexOf. rewrite Hls, Hpos.
  replace (S (parsePosition p) - lineStart p)%nat
    with ((parsePosition p - lineStart p) + 1)%nat by lia.
  rewrite <- copy_n_app, fold_left_app.
  replace (lineStart p + (parsePosition p - lineStart p))%nat
    with (parsePosition p) by lia.
  reflexivity.
Qed.

Lemma lexStep_end L c :
  c = None \/ c = Some newline -> lexEquals (lexStep L c) = lexEquals L.
Proof.
  intros [-> | ->]; [reflexivity|].
  destruct L as [[] [] n]; reflexivity.
Qed.

Lemma kindOf_pendingRecord_malformed b p :
  lineIsMalformed p = true -> kindOf (pendingRecord b p) = KMalformed.
Proof. intros H. unfold pendingRecord. rewrite H. reflexivity. Qed.

Lemma Contents_pendingLine b p :
  representable b ->
  (lineStart p <= parsePosition p <= length b)%nat ->
  Contents (pendingLine b p)
  = copy_n b (lineStart p) (parsePosition p - lineStart p)
    ++ [nth_error b (parsePosition p)].
Proof.
  intros Hrep Hle. unfold representable in Hrep. unfold pendingLine. simpl.
  rewrite ptrdiff_small by lia.
  replace (Z.to_nat (Z.of_nat (S (parsePosition p)) - Z.of_nat (lineStart p)))
    with ((parsePosition p - lineStart p) + 1)%nat by lia.
  rewrite <- copy_n_app.
  replace (lineStart p + (parsePosition p - lineStart p))%nat
    with (parsePosition p) by lia.
  reflexivity.
Qed.

(** The line [submitLine] stores at a line break or at the end of the
    file is Malformed when it holds two counted equals signs. *)
Lemma pendingRecord_secondEquals b mode p :
  representable b ->
  (lineStart p <= parsePosition p <= length b)%nat ->
  agrees (lexOf b p) mode p ->
  nth_error b (parsePosition p) = None
  \/ nth_error b (parsePosition p) = Some newline ->
  secondEqualsMalformed (pendingRecord b p)
  /\ secondEqualsMalformed (pendingRecord b (beforeSubmit mode p)).
Proof.
  intros Hrep Hle Hag Hend.
  assert (Hp : secondEqualsMalformed (pendingRecord b p)).
  { unfold secondEqualsMalformed, equalsOutside.
    rewrite lineOf_pendingRecord, Contents_pendingLine, fold_left_app by auto.
    simpl. fold (lexOf b p). rewrite lexStep_end by exact Hend.
    intros H2. destruct Hag as [Hm|(Hn & _)].
    - apply kindOf_pendingRecord_malformed. exact Hm.
    - rewrite Hn in H2. destruct (equalsSignFound p); lia. }
  split; [exact Hp|].
  destruct mode as [|[] ? ?|[] ?|]; simpl; try exact Hp.
  all: intros _; apply kindOf_pendingRecord_malformed; reflexivity.
Qed.

Lemma lexOf_empty b p : lineStart p = parsePosition p -> lexOf b p = lexStart.
Proof. intros H. unfold lexOf. rewrite H, Nat.sub_diag. reflexivity. Qed.

Lemma step_lexKept b c mode p :
  representable b ->
  lexKept b mode p -> nth_error b (parsePosition p) = Some c ->
  lexKept b (fst (step b (classify c) mode p)) (snd (step b (classify c) mode p)).
Proof.
  intros Hrep (Ht & Hag & Hall) Hc.
  split; [apply step_tiled; assumption|].
  destruct Ht as (Hle & _).
  destruct (classify c) eqn:Hk.
  1:{ apply classify_newline in Hk. subst c.
      rewrite step_newline. cbn [fst snd].
      destruct (submitLine_fields b (beforeSubmit mode p))
        as (F1 & F2 & _ & _ & _ & _ & _ & F8 & F9).
      split.
      - rewrite lexOf_empty by congruence. right. rewrite F8. simpl. auto.
      - destruct (submitLine_spec b (beforeSubmit mode p)) as (_ & -> & _).
        destruct (beforeSubmit_frame mode p) as (_ & _ & ->).
        apply Forall_app. split; [exact Hall|]. constructor; [|constructor].
        eapply pendingRecord_secondEquals; eauto. }
  all: assert (Hne : classify c <> CNewline) by (rewrite Hk; discriminate).
  all: rewrite <- Hk.
  all: destruct (step_other b (classify c) mode p Hne) as (Hls & Ht').
  all: pose proof (step_pos b (classify c) mode p) as Hpos.
  all: rewrite (lexOf_step b p _ Hls Hpos) by lia.
  all: rewrite Hc; split;
       [apply step_agrees; [exact Hne|exact Hag]|rewrite Ht'; exact Hall].
Qed.

(** C6 (amended). On every stored line that holds an equals sign outside
    quotes and comments followed by a second such equals sign, the line is
    classified Malformed; in particular the file [Foo = Bar = Baz] is stored
    as exactly one line, classified Malformed. *)
Theorem second_equals_malformed b :
  representable b ->
  (exists lines, parse b = Some lines /\ Forall secondEqualsMalformed lines)
  /\ option_map (map kindOf) (parse (bytes "Foo = Bar = Baz")) = Some [KMalformed].
Proof.
  intros Hrep. split; [|vm_compute; reflexivity].
  unfold parse. rewrite ParseInto_run. eexists. split; [reflexivity|].
  pose proof (run_invariant b (lexKept b) (fun c mode p => step_lexKept b c mode p Hrep)
                b MMain (start emptyDocument) eq_refl) as Hrun.
  pose proof (run_pos b b MMain (start emptyDocument)) as Hpos. simpl in Hpos.
  destruct (run b b MMain (start emptyDocument)) as [mode p]. simpl in *.
  destruct Hrun as (Ht & Hag & Hall).
  { unfold lexKept, tiled. simpl. repeat split; auto; try lia.
    right. simpl. auto. }
  unfold finish. destruct (lineStart p <? parsePosition p)%nat; [|exact Hall].
  destruct (submitLine_spec b p) as (_ & -> & _).
  apply Forall_app. split; [exact Hall|]. constructor; [|constructor].
  destruct Ht as (Hle & _).
  eapply (pendingRecord_secondEquals b mode p); eauto.
  left. apply nth_error_None. lia.
Qed.

(** The theorem at a file of two lines, the second with two equals signs. *)
Lemma second_equals_malformed_witness :
  representable (bytes "a = 1" ++ [newline] ++ bytes "b = 2 = 3" ++ [newline])
  /\ ((exists lines,
         parse (bytes "a = 1" ++ [newline] ++ bytes "b = 2 = 3" ++ [newline])
         = Some lines
         /\ Forall secondEqualsMalformed lines)
      /\ option_map (map kindOf) (parse (bytes "Foo = Bar = Baz"))
         = Some [KMalformed]).
Proof.
  assert (H : representable
                (bytes "a = 1" ++ [newline] ++ bytes "b = 2 = 3" ++ [newline]))
    by (vm_compute; reflexivity).
  split; [exact H|].
  exact (second_equals_malformed
           (bytes "a = 1" ++ [newline] ++ bytes "b = 2 = 3" ++ [newline]) H).
Defined.

(** C6 as stated fails: in [a=b#=] both equals signs are outside quotes,
    the second one inside a comment; the line is stored as a Property
    line. *)
Lemma second_equals_in_comment_not_malformed :
  equalsOutsideQuotes (map Some (bytes "a=b#=" ++ [newline])) = 2%nat
  /\ option_map (map (fun r => (kindOf r, Contents (lineOf r))))
       (parse (bytes "a=b#=" ++ [newline]))
     = Some [(KProperty, map Some (bytes "a=b#=" ++ [newline]))].
Proof. split; vm_compute; reflexivity. Qed.

End LexFacts.

(** ** The estimate covers the requested bytes *)

Module CoverFacts.
Import MemoryEstimator ScanInvariant EstimatorFacts.
Import FileParser Pending Flat Invariants Cover ParserFacts FlatFacts ArenaFacts.

Lemma lineKind_flagsOf s : lineKind (memoryEstimate s) = estKind (flagsOf s).
Proof. reflexivity. Qed.

Lemma sizeOf_layoutOf k : sizeOf (layoutOf k) * 2 / 2 = sizeOf (layoutOf k).
Proof. destruct k; reflexivity. Qed.

Lemma EndLine_adds_kind filePosition m lineStart :
  lineStartPosition m = Some lineStart ->
  (lineStart <= filePosition)%nat ->
  0 <= ByteCount m ->
  ByteCount m + 71 + (Z.of_nat filePosition - Z.of_nat lineStart) < 2 ^ 64 ->
  exists m',
    EndLine filePosition m = Some m'
    /\ lineStartPosition m' = Some filePosition
    /\ ByteCount m + sizeOf (layoutOf (lineKind m))
       + (Z.of_nat filePosition - Z.of_nat lineStart)
       <= ByteCount m'
    /\ sectionStarted m' = false /\ sectionEnded m' = false
    /\ foundAssignment m' = false /\ MemoryEstimator.lineIsMalformed m' = false.
Proof.
  intros Hls Hle H0 Hfit. unfold EndLine. rewrite Hls.
  eexists. split; [reflexivity|]. simpl.
  destruct (layoutOf_bounds (lineKind m)) as (Ha & Hs). rewrite Ha.
  pose proof (growUntilAligned_bounds (ByteCount m) H0 ltac:(lia)) as Hg.
  rewrite sizeOf_layoutOf in *.
  rewrite (to_size_t_small (growUntilAligned (ByteCount m) 8 + _)) by lia.
  rewrite to_size_t_small by lia.
  repeat split; auto; lia.
Qed.

(** One iteration of the scan: its flags follow [flagStep]; its byte count
    and line start change as the effect of the byte says. *)
Lemma scanByte_flagStep pos c s els :
  lineStartPosition (memoryEstimate s) = Some els ->
  (els <= pos)%nat ->
  0 <= ByteCount (memoryEstimate s) ->
  ByteCount (memoryEstimate s) + 71 + (Z.of_nat (S pos) - Z.of_nat els) < 2 ^ 64 ->
  exists s',
    scanByte pos c s = Some s'
    /\ flagsOf s' = snd (flagStep (classify c) (flagsOf s))
    /\ match fst (flagStep (classify c) (flagsOf s)) with
       | Same =>
           ByteCount (memoryEstimate s') = ByteCount (memoryEstimate s)
           /\ lineStartPosition (memoryEstimate s') = Some els
       | Split =>
           lineStartPosition (memoryEstimate s') = Some pos
           /\ ByteCount (memoryEstimate s) + 32 + (Z.of_nat pos - Z.of_nat els)
              <= ByteCount (memoryEstimate s')
       | Ended =>
           lineStartPosition (memoryEstimate s') = Some (S pos)
           /\ ByteCount (memoryEstimate s)
              + sizeOf (layoutOf (estKind (flagsOf s)))
              + (Z.of_nat (S pos) - Z.of_nat els)
              <= ByteCount (memoryEstimate s')
       end.
Proof.
  intros Hls Hle H0 Hfit.
  destruct (EndLine_adds_kind (S pos) (memoryEstimate s) els Hls ltac:(lia) H0 Hfit)
    as (m1 & He1 & Hls1 & Hb1 & F1 & F2 & F3 & F4).
  destruct (EndLine_adds_kind pos (memoryEstimate s) els Hls Hle H0 ltac:(lia))
    as (m2 & He2 & Hls2 & Hb2 & G1 & G2 & G3 & G4).
  assert (H32 : 32 <= sizeOf (layoutOf (lineKind (memoryEstimate s))))
    by (destruct (lineKind (memoryEstimate s)); simpl; lia).
  unfold scanByte, flagStep, flagsOf.
  pattern c; apply byte_cases; clear c;
    [..|intros c E1 E2 E3 E4 E5 E6 E7 E8 Ec; rewrite Ec];
    simpl; rewrite ?E1, ?E2, ?E3, ?E4, ?E5, ?E6, ?E7, ?E8; simpl.
  1:{ rewrite He1. eexists. split; [reflexivity|]. simpl.
      rewrite F1, F2, F3, F4. repeat split; auto. }
  all: destruct (isInsideQuote s) eqn:Hq; simpl;
       [eexists; split; [reflexivity|simpl; rewrite ?Hq; repeat split; auto]|].
  all: destruct (encounteredComment s) eqn:Hcm; simpl;
       [eexists; split; [reflexivity|simpl; rewrite ?Hq, ?Hcm; repeat split; auto]|].
  all: unfold BeginSection, EndSection, AddAssignment.
  all: repeat match goal with
         | |- context [if ?x then _ else _] => destruct x eqn:?; simpl
         end.
  all: rewrite ?He2; simpl.
  all: eexists; (split; [reflexivity|]); simpl;
       rewrite ?G1, ?G2, ?G3, ?G4; repeat split; auto; try congruence; try lia.
Qed.

Lemma step_track b k f mode p :
  k <> CNewline ->
  fst (flagStep k f) = Same ->
  lineIsMalformed p = true \/ track f mode p ->
  lineIsMalformed (snd (step b k mode p)) = true
  \/ track (snd (flagStep k f)) (fst (step b k mode p)) (snd (step b k mode p)).
Proof.
  intros Hk Hsame Htr. destruct f as [fq fc fs fe fa fm].
  unfold track in *; simpl in *.
  destruct k; try congruence; clear Hk.
  all: destruct mode as [|q e s|q e|]; [|destruct q|destruct q|]; simpl in *.
  all: repeat match goal with
         | |- context [if ?x then _ else _] => destruct x eqn:?; simpl in *
         end.
  all: try discriminate Hsame.
  all: destruct Htr as [Hm|Htr]; [left; simpl; first [assumption|reflexivity]|].
  all: repeat match goal with
         | H : _ /\ _ |- _ => destruct H
         end; subst; simpl in *; try discriminate; try congruence.
  all: try (left; reflexivity).
  all: right; repeat split; auto; try congruence; intros;
       repeat match goal with
         | H : ?x = true -> _, H' : ?x = true |- _ => specialize (H H')
         | H : true = true -> _ |- _ => specialize (H eq_refl)
         | H : _ /\ _ |- _ => destruct H
         | H : _ || _ = false |- _ => apply orb_false_elim in H
         | H : negb _ = false |- _ => apply negb_false_iff in H
         end; subst; auto; try congruence.
Qed.

Lemma padding_layoutOf k :
  getSizePlusAlignmentPadding (layoutOf k) = sizeOf (layoutOf k).
Proof. destruct k; reflexivity. Qed.

Lemma sizeOf_layoutOf_bounds k : 32 <= sizeOf (layoutOf k) <= 64.
Proof. destruct k; simpl; lia. Qed.

(** At a line break the record of the estimator is at least as large as
    the record the parser stores. *)
Lemma kind_covered b f mode p :
  lineIsMalformed p = true \/ track f mode p ->
  sizeOf (layoutOf (kindOf (pendingRecord b (beforeSubmit mode p))))
  <= sizeOf (layoutOf (estKind f)).
Proof.
  intros Htr.
  assert (Hmal : forall q, lineIsMalformed q = true ->
            sizeOf (layoutOf (kindOf (pendingRecord b q)))
            <= sizeOf (layoutOf (estKind f))).
  { intros q Hq. unfold pendingRecord. rewrite Hq. simpl.
    pose proof (sizeOf_layoutOf_bounds (estKind f)). lia. }
  destruct Htr as [Hm|(H1 & H2 & H3 & Hmode)].
  - apply Hmal. destruct mode as [|[] ? ?|[] ?|]; simpl; auto.
  - destruct mode as [|[] ? ?|[] ?|]; simpl; try (apply Hmal; reflexivity).
    all: unfold pendingRecord, estKind; rewrite H1, H2.
    all: destruct (lineIsMalformed p); simpl;
         [destruct (equalsSignFound p); [|destruct (fStarted f && fEnded f)];
          simpl; lia|].
    all: destruct (equalsSignFound p); simpl; [lia|].
    all: destruct (sectionFound p); simpl;
         [destruct (H3 eq_refl) as (-> & ->); simpl; lia|].
    all: destruct (fStarted f && fEnded f); simpl; lia.
Qed.

Lemma requestedBytes_snoc lines r :
  requestedBytes (lines ++ [r])
  = requestedBytes lines + (sizeOf (layoutOf (kindOf r)) + Length (lineOf r)).
Proof.
  unfold requestedBytes. rewrite map_app, fold_right_app. simpl.
  rewrite fold_right_add_init, padding_layoutOf. lia.
Qed.

Lemma scanned_S b pos c s :
  nth_error b pos = Some c ->
  scanned b pos = Some s ->
  scanned b (S pos) = scanByte pos c s.
Proof.
  intros Hc Hs. rewrite scanned_unfold in *.
  assert (Hlt : (pos < length b)%nat) by (apply nth_error_Some; congruence).
  assert (Hf : firstn (S pos) b = firstn pos b ++ [c]).
  { rewrite <- (firstn_skipn pos b) at 1.
    destruct (skipn pos b) as [|x rest] eqn:Hsk.
    - apply (f_equal (@length byte)) in Hsk. rewrite length_skipn in Hsk.
      simpl in Hsk. lia.
    - assert (x = c).
      { rewrite <- (firstn_skipn pos b), nth_error_app2 in Hc
          by (rewrite length_firstn; lia).
        rewrite length_firstn, Nat.min_l, Nat.sub_diag, Hsk in Hc by lia.
        simpl in Hc. congruence. }
      subst x.
      replace (S pos) with (length (firstn pos b) + 1)%nat
        by (rewrite length_firstn; lia).
      rewrite firstn_app_2. reflexivity. }
  rewrite Hf, scan_app, Hs. simpl.
  rewrite length_firstn, Nat.min_l by lia.
  destruct (scanByte pos c s); reflexivity.
Qed.

Lemma track_start p :
  equalsSignFound p = false -> sectionFound p = false ->
  track noFlags MMain p.
Proof.
  intros H1 H2. unfold track. simpl. rewrite H1, H2.
  repeat split; auto; discriminate.
Qed.

Lemma step_simulated b c mode p :
  72 * (Z.of_nat (length b) + 1) < 2 ^ 64 ->
  simulated b mode p -> nth_error b (parsePosition p) = Some c ->
  simulated b (fst (step b (classify c) mode p)) (snd (step b (classify c) mode p)).
Proof.
  intros HN (Ht & s & Hs & Hok & els & Hels & Hcov) Hc.
  assert (Hrep : representable b) by (unfold representable; lia).
  assert (Hlt : (parsePosition p < length b)%nat)
    by (apply nth_error_Some; congruence).
  split; [apply step_tiled; assumption|].
  pose proof (step_pos b (classify c) mode p) as Hpos.
  destruct (scanByte_ok (length b) (parsePosition p) c s HN Hlt Hok)
    as (s' & Hs' & Hok' & _).
  exists s'. rewrite Hpos. split; [rewrite (scanned_S b _ c s); auto|].
  split; [exact Hok'|].
  destruct Ht as (Hle & _).
  destruct Hok as (els0 & Hels0 & Hle0 & _ & Hcount & _ & Hbc).
  assert (els0 = els) by congruence. subst els0.
  destruct (scanByte_flagStep (parsePosition p) c s els Hels ltac:(lia) ltac:(lia)
              ltac:(lia)) as (s2 & Hs2 & Hflags & Heff).
  assert (s2 = s') by congruence. subst s2.
  unfold covers.
  destruct (classify c) eqn:Hk.
  1:{ (* a line break: both passes end the line *)
      simpl in Heff. destruct Heff as (Hls' & Hb').
      rewrite step_newline. cbn [fst snd].
      destruct (submitLine_fields b (beforeSubmit mode p))
        as (F1 & F2 & _ & _ & _ & _ & F7 & F8 & F9).
      destruct (submitLine_spec b (beforeSubmit mode p)) as (_ & Hst & _).
      destruct (beforeSubmit_frame mode p) as (E1 & E2 & E3).
      exists (S (parsePosition p)). split; [exact Hls'|]. left.
      rewrite F1, F2, E1, Hst, E3, requestedBytes_snoc, lineOf_pendingRecord.
      unfold pendingLine at 1. cbn [Length]. rewrite E1, E2.
      unfold representable in Hrep. rewrite ptrdiff_small by lia.
      pose proof (sizeOf_layoutOf_bounds
                    (kindOf (pendingRecord b (beforeSubmit mode p)))) as Hsz.
      pose proof (sizeOf_layoutOf_bounds (estKind (flagsOf s))) as Hsz'.
      split; [reflexivity|]. split.
      - destruct Hcov as [(-> & Hreq & _ & Htr)|(Hlt' & Hreq)].
        + pose proof (kind_covered b (flagsOf s) mode p Htr). lia.
        + lia.
      - split; [intros _; rewrite Hflags; reflexivity|].
        right. rewrite Hflags. apply track_start; assumption. }
  all: assert (Hne : classify c <> CNewline) by (rewrite Hk; discriminate).
  all: rewrite <- Hk in *.
  all: destruct (step_other b (classify c) mode p Hne) as (Hls & Htg).
  all: destruct (fst (flagStep (classify c) (flagsOf s))) eqn:Heffect.
  all: try (rewrite Hk in Heffect; simpl in Heffect;
            repeat match type of Heffect with
              | context [if ?x then _ else _] => destruct x
              end; discriminate Heffect).
  all: destruct Heff as (Hx & Hy).
  (* the estimator stays in its line *)
  all: try (exists els; split; [exact Hy|];
            rewrite Hls, Htg, Hpos, Hx;
            destruct Hcov as [(-> & Hreq & _ & Htr)|(Hlt' & Hreq)];
            [left; repeat split; auto; try lia;
             rewrite Hflags; apply step_track; assumption
            |right; split; [lia|exact Hreq]]).
  (* the estimator ends a line the parser is still in *)
  all: exists (parsePosition p); split; [exact Hx|];
       rewrite Hls, Htg, Hpos; right.
  all: destruct Hcov as [(-> & Hreq & Hfresh & Htr)|(Hlt' & Hreq)]; [|split; lia].
  all: assert (Hgt : (lineStart p < parsePosition p)%nat).
  all: try (destruct (Nat.eq_dec (parsePosition p) (lineStart p)) as [Heq|Hneq];
            [|lia];
            rewrite (Hfresh Heq), Hk in Heffect; discriminate Heffect).
  all: split; lia.
Qed.

(** C2 (amended). For every file that is empty or ends in a line break,
    the estimate is never smaller than the bytes the building pass requests
    for the lines it stores, the aligned size of the record and the bytes of
    the line for each. The two passes need not cut the file into the same
    lines nor classify a line alike: the estimator may end a line inside a
    line of the parser and may take a larger record for a line, never a
    smaller one. The file is one whose estimate fits a [std::size_t]. *)
Theorem estimate_covers_requested b :
  endsWithLineBreak b = true ->
  72 * (Z.of_nat (length b) + 1) < 2 ^ 64 ->
  exists lines estimate,
    parse b = Some lines
    /\ estimateRequiredMemory b = Some estimate
    /\ requestedBytes lines <= estimate.
Proof.
  intros Hend HN.
  assert (Hrep : representable b) by (unfold representable; lia).
  unfold parse. rewrite ParseInto_run.
  assert (Hinit : simulated b MMain (start emptyDocument)).
  { split; [unfold tiled; simpl; repeat split; auto; lia|].
    eexists. split; [reflexivity|]. split; [apply scanOk_begin|].
    exists O. split; [reflexivity|]. left. simpl.
    repeat split; auto; try lia; [vm_compute; discriminate|].
    right. apply track_start; reflexivity. }
  pose proof (run_invariant b (simulated b)
                (fun c mode p H => step_simulated b c mode p HN H)
                b MMain (start emptyDocument) eq_refl Hinit) as Hrun.
  pose proof (run_pos b b MMain (start emptyDocument)) as Hpos. simpl in Hpos.
  destruct (run b b MMain (start emptyDocument)) as [mode p]. simpl in *.
  destruct Hrun as (Ht & s & Hs & _ & els & Hels & Hcov).
  destruct Ht as (Hle & _ & Hiff).
  assert (Hls : lineStart p = parsePosition p).
  { apply Hiff. rewrite Hpos. apply endsWithLineBreak_spec in Hend.
    destruct Hend; auto. }
  destruct (scanned_below_estimate b (parsePosition p) HN)
    as (sk & m & Hk & Hest & Hfinal).
  assert (sk = s) by congruence. subst sk.
  eexists. exists (ByteCount m). split; [reflexivity|]. split; [exact Hest|].
  unfold finish. rewrite Hls, Nat.ltb_irrefl.
  destruct Hcov as [(_ & Hreq & _)|(Hlt & _)]; lia.
Qed.

(** The theorem at a file of a section, a property and a comment. *)
Lemma estimate_covers_requested_witness :
  endsWithLineBreak
    (bytes "[Foo]" ++ [newline] ++ bytes "Bar = Baz ; text" ++ [newline]) = true
  /\ 72 * (Z.of_nat
             (length (bytes "[Foo]" ++ [newline] ++ bytes "Bar = Baz ; text"
                      ++ [newline])) + 1) < 2 ^ 64
  /\ exists lines estimate,
      parse (bytes "[Foo]" ++ [newline] ++ bytes "Bar = Baz ; text" ++ [newline])
      = Some lines
      /\ estimateRequiredMemory
           (bytes "[Foo]" ++ [newline] ++ bytes "Bar = Baz ; text" ++ [newline])
         = Some estimate
      /\ requestedBytes lines <= estimate.
Proof.
  assert (H1 : endsWithLineBreak
                 (bytes "[Foo]" ++ [newline] ++ bytes "Bar = Baz ; text"
                  ++ [newline]) = true) by (vm_compute; reflexivity).
  assert (H2 : 72 * (Z.of_nat
                       (length (bytes "[Foo]" ++ [newline]
                                ++ bytes "Bar = Baz ; text" ++ [newline])) + 1)
               < 2 ^ 64) by (vm_compute; reflexivity).
  split; [exact H1|]. split; [exact H2|].
  exact (estimate_covers_requested _ H1 H2).
Defined.

(** C2 as stated fails: the two passes neither cut the file into the same
    lines nor classify a line alike. For [[A][B]] and a line break the
    estimator ends two Section lines, of 3 and 4 bytes, where the parser
    stores one Malformed line of 7 bytes; for [Foo = "Bar" Baz] the
    estimator, which knows a malformed line by a second equals sign only,
    counts a Property line where the parser stores a Malformed line. *)
Lemma estimator_and_parser_lines_differ :
  option_map endedLines (estimate (bytes "[A][B]" ++ [newline]))
  = Some [(KSection, 3); (KSection, 4)]
  /\ option_map (map (fun r => (kindOf r, Length (lineOf r))))
       (parse (bytes "[A][B]" ++ [newline]))
     = Some [(KMalformed, 7)]
  /\ option_map endedLines
       (estimate (bytes "Foo = " ++ [quote] ++ bytes "Bar" ++ [quote]
                  ++ bytes " Baz" ++ [newline]))
     = Some [(KProperty, 16)]
  /\ option_map (map (fun r => (kindOf r, Length (lineOf r))))
       (parse (bytes "Foo = " ++ [quote] ++ bytes "Bar" ++ [quote]
               ++ bytes " Baz" ++ [newline]))
     = Some [(KMalformed, 16)].
Proof. repeat split; vm_compute; reflexivity. Qed.

(** Without a final line break the estimate falls short of the request:
    for the file [a] the estimator counts 33 bytes, the parser requests 34
    for the line that runs beyond the file. *)
Lemma estimate_short_without_final_newline :
  estimateRequiredMemory (bytes "a") = Some 33
  /\ option_map requestedBytes (parse (bytes "a")) = Some 34.
Proof. split; vm_compute; reflexivity. Qed.

End CoverFacts.

(** ** Aligned sizes *)

Module LayoutFacts.
Import Arena.

Lemma round_up_least x a :
  0 < a -> 0 <= x ->
  let r := if 0 <? x mod a then x + (a - x mod a) else x in
  r mod a = 0 /\ x <= r < x + a
  /\ (forall m, x <= m -> m mod a = 0 -> r <= m).
Proof.
  intros Ha Hx. pose proof (Z.mod_pos_bound x a Ha) as He.
  pose proof (Z.div_mod x a ltac:(lia)) as Hd.
  destruct (0 <? x mod a) eqn:E; [apply Z.ltb_lt in E|apply Z.ltb_ge in E]; simpl.
  - split.
    + replace (x + (a - x mod a)) with ((x / a + 1) * a) by lia.
      apply Z.mod_mul. lia.
    + split; [lia|]. intros m Hm Hma.
      apply Z.mod_divide in Hma; [|lia]. destruct Hma as [k ->].
      assert (x / a < k) by nia. nia.
  - assert (x mod a = 0) by lia. split; [assumption|].
    split; [lia|]. intros; lia.
Qed.

(** X1. [growUntilAligned] rounds a byte count up to the next multiple of
    the alignment: the result is aligned, it is the least aligned count
    that is no less than the given one, and a count that is aligned
    already is left as it is. The count is one that leaves room for the
    padding in a [std::size_t]. *)
Theorem growUntilAligned_least byteCount alignment :
  0 < alignment -> 0 <= byteCount -> byteCount + alignment <= 2 ^ 64 ->
  growUntilAligned byteCount alignment mod alignment = 0
  /\ byteCount <= growUntilAligned byteCount alignment < byteCount + alignment
  /\ (forall m, byteCount <= m -> m mod alignment = 0 ->
        growUntilAligned byteCount alignment <= m)
  /\ (byteCount mod alignment = 0 ->
        growUntilAligned byteCount alignment = byteCount).
Proof.
  intros Ha Hx Hfit. pose proof (round_up_least byteCount alignment Ha Hx) as H.
  pose proof (Z.mod_pos_bound byteCount alignment Ha) as He.
  unfold growUntilAligned. simpl in H.
  destruct (0 <? byteCount mod alignment) eqn:E.
  - apply Z.ltb_lt in E. unfold to_size_t. rewrite (Z.mod_small (byteCount + _)) by lia.
    destruct H as (H1 & H2 & H3). repeat split; auto; intros; lia.
  - destruct H as (H1 & H2 & H3). repeat split; auto; intros; lia.
Qed.

Lemma growUntilAligned_least_witness :
  0 < 8 /\ 0 <= 33 /\ 33 + 8 <= 2 ^ 64
  /\ growUntilAligned 33 8 mod 8 = 0
  /\ 33 <= growUntilAligned 33 8 < 33 + 8
  /\ (forall m, 33 <= m -> m mod 8 = 0 -> growUntilAligned 33 8 <= m)
  /\ (33 mod 8 = 0 -> growUntilAligned 33 8 = 33).
Proof.
  assert (H1 : 0 < 8) by lia.
  assert (H2 : 0 <= 33) by lia.
  assert (H3 : 33 + 8 <= 2 ^ 64) by lia.
  split; [exact H1|]. split; [exact H2|]. split; [exact H3|].
  exact (growUntilAligned_least 33 8 H1 H2 H3).
Defined.

(** X2. [getSizePlusAlignmentPadding<T>()] is the size of [T] rounded up to
    the alignment of [T]: a multiple of the alignment, the least one that
    holds the type, so that a member placed behind it is aligned like
    [T]. *)
Theorem getSizePlusAlignmentPadding_least (T : TypeLayout) :
  validLayout T ->
  getSizePlusAlignmentPadding T mod alignOf T = 0
  /\ sizeOf T <= getSizePlusAlignmentPadding T < sizeOf T + alignOf T
  /\ (forall m, sizeOf T <= m -> m mod alignOf T = 0 ->
        getSizePlusAlignmentPadding T <= m).
Proof.
  intros (Hs & Ha).
  exact (round_up_least (sizeOf T) (alignOf T) Ha ltac:(lia)).
Qed.

Lemma getSizePlusAlignmentPadding_least_witness :
  validLayout {| sizeOf := 20; alignOf := 8 |}
  /\ getSizePlusAlignmentPadding {| sizeOf := 20; alignOf := 8 |} mod 8 = 0
  /\ 20 <= getSizePlusAlignmentPadding {| sizeOf := 20; alignOf := 8 |} < 20 + 8
  /\ (forall m, 20 <= m -> m mod 8 = 0 ->
        getSizePlusAlignmentPadding {| sizeOf := 20; alignOf := 8 |} <= m).
Proof.
  assert (H : validLayout {| sizeOf := 20; alignOf := 8 |})
    by (unfold validLayout; simpl; lia).
  split; [exact H|].
  exact (getSizePlusAlignmentPadding_least {| sizeOf := 20; alignOf := 8 |} H).
Defined.

End LayoutFacts.

(** ** [ParseInto] returns, and what it leaves alone *)

Module ReturnFacts.
Import FileParser Pending Flat Invariants ParserFacts FlatFacts.

(** Where a line starts the pass is in the loop of [ParseInto] with the
    state of the line reset, and the section index is the one of the
    document [ParseInto] was given. *)
Lemma step_atLineStart b (index : gmap string Ptr) c mode p :
  ((lineStart p <= parsePosition p)%nat
   /\ (lineStart p = parsePosition p ->
       parsePosition p = O \/ nth_error b (parsePosition p - 1) = Some newline)
   /\ (parsePosition p = O \/ nth_error b (parsePosition p - 1) = Some newline ->
       mode = MMain
       /\ cursor p = (parsePosition p, parsePosition p, None, None, None, None,
                      false, false, false))
   /\ sections (target p) = index) ->
  nth_error b (parsePosition p) = Some c ->
  let mode' := fst (step b (classify c) mode p) in
  let p' := snd (step b (classify c) mode p) in
  (lineStart p' <= parsePosition p')%nat
  /\ (lineStart p' = parsePosition p' ->
      parsePosition p' = O \/ nth_error b (parsePosition p' - 1) = Some newline)
  /\ (parsePosition p' = O \/ nth_error b (parsePosition p' - 1) = Some newline ->
      mode' = MMain
      /\ cursor p' = (parsePosition p', parsePosition p', None, None, None, None,
                      false, false, false))
  /\ sections (target p') = index.
Proof.
  intros (Hle & Hstart & Hreset & Hsec) Hc. simpl.
  pose proof (step_pos b (classify c) mode p) as Hpos.
  destruct (classify c) eqn:Hk.
  1:{ apply classify_newline in Hk. subst c.
      rewrite step_newline in *. cbn [fst snd] in *.
      destruct (beforeSubmit_frame mode p) as (E1 & E2 & E3).
      destruct (submitLine_spec b (beforeSubmit mode p)) as (Hcur & _ & Hs & _).
      destruct (submitLine_fields b (beforeSubmit mode p)) as (F1 & F2 & _).
      rewrite E1 in F1, F2, Hcur. rewrite F1, F2, Hs, E3, Hcur.
      simpl. rewrite Nat.sub_0_r. repeat split; auto. }
  all: assert (Hne : classify c <> CNewline) by (rewrite Hk; discriminate).
  all: rewrite <- Hk in *.
  all: destruct (step_other b (classify c) mode p Hne) as (Hls & Htg).
  all: rewrite Hpos, Hls, Htg; simpl; rewrite Nat.sub_0_r, Hc.
  all: split; [lia|]; split; [lia|]; split; [|exact Hsec].
  all: intros [H|H]; [discriminate|].
  all: injection H as ->; vm_compute in Hk; discriminate Hk.
Qed.

Lemma run_atLineStart b d :
  let p := snd (run b b MMain (start d)) in
  parsePosition p = length b
  /\ (lineStart p <= length b)%nat
  /\ (lineStart p = length b -> endsWithLineBreak b = true)
  /\ (endsWithLineBreak b = true ->
      cursor p = (length b, length b, None, None, None, None,
                  false, false, false))
  /\ sections (target p) = sections d.
Proof.
  pose proof (run_pos b b MMain (start d)) as Hpos. simpl in Hpos.
  pose proof (run_invariant b
    (fun mode p =>
       (lineStart p <= parsePosition p)%nat
       /\ (lineStart p = parsePosition p ->
           parsePosition p = O \/ nth_error b (parsePosition p - 1) = Some newline)
       /\ (parsePosition p = O \/ nth_error b (parsePosition p - 1) = Some newline ->
           mode = MMain
           /\ cursor p = (parsePosition p, parsePosition p, None, None, None, None,
                          false, false, false))
       /\ sections (target p) = sections d)
    (step_atLineStart b (sections d)) b MMain (start d) eq_refl) as H.
  simpl in H.
  destruct H as (Hle & Hstart & Hreset & Hsec); [repeat split; auto|].
  simpl. rewrite Hpos in *.
  split; [reflexivity|]. split; [exact Hle|].
  split; [intros E; apply endsWithLineBreak_spec; apply Hstart; exact E|].
  split; [|exact Hsec].
  intros E. apply endsWithLineBreak_spec in E. apply Hreset. exact E.
Qed.

(** X3. [ParseInto] returns on every file and for every document it is
    given. When it returns no line is under way and the line state is
    reset; [parsePosition] is [fileEnd] when the file is empty or ends in a
    line break, and one byte behind [fileEnd] otherwise. *)
Theorem ParseInto_returns b d :
  exists p,
    ParseInto b d = Some p
    /\ cursor p
       = ((if endsWithLineBreak b then length b else S (length b)),
          (if endsWithLineBreak b then length b else S (length b)),
          None, None, None, None, false, false, false).
Proof.
  rewrite ParseInto_run. eexists. split; [reflexivity|].
  destruct (run_atLineStart b d) as (Hpos & Hle & Hend & Hreset & _).
  set (p := snd (run b b MMain (start d))) in *.
  unfold finish. rewrite Hpos.
  destruct (lineStart p <? length b)%nat eqn:E;
    [apply Nat.ltb_lt in E|apply Nat.ltb_ge in E].
  - destruct (submitLine_spec b p) as (-> & _). rewrite Hpos.
    destruct (endsWithLineBreak b) eqn:Eb; [|reflexivity].
    specialize (Hreset eq_refl). unfold cursor in Hreset.
    injection Hreset as _ Hls _. lia.
  - rewrite (Hend ltac:(lia)). apply Hreset. apply Hend. lia.
Qed.

(** X4. [ParseInto] never changes the section index of the document:
    whatever the file holds, [sections] behind the parse is [sections]
    before it. The parser stores Section and Property lines without
    entering them in the index. *)
Theorem ParseInto_keeps_sections b d :
  exists p,
    ParseInto b d = Some p /\ sections (target p) = sections d.
Proof.
  rewrite ParseInto_run. eexists. split; [reflexivity|].
  destruct (run_atLineStart b d) as (_ & _ & _ & _ & Hsec).
  unfold finish.
  destruct (lineStart _ <? parsePosition _)%nat; [|exact Hsec].
  destruct (submitLine_spec b (snd (run b b MMain (start d)))) as (_ & _ & -> & _).
  exact Hsec.
Qed.

(** X5. Round trip on files that are empty or end in a line break:
    concatenating the [Contents] of the stored lines, in list order, gives
    back the file byte for byte, whatever the lines are classified as. The
    file is one the target can hold. *)
Theorem roundtrip_of_terminated_file b :
  endsWithLineBreak b = true ->
  representable b ->
  exists lines, parse b = Some lines /\ reconstruct lines = map Some b.
Proof.
  intros Hend Hrep. destruct (parse_reconstruct b Hrep) as (lines & Hp & Hr).
  exists lines. split; [exact Hp|]. rewrite Hr, Hend. apply app_nil_r.
Qed.

Lemma roundtrip_of_terminated_file_witness :
  endsWithLineBreak (bytes "[Foo] = Bar = Baz" ++ [newline] ++ bytes "a=b"
                     ++ [newline]) = true
  /\ representable (bytes "[Foo] = Bar = Baz" ++ [newline] ++ bytes "a=b"
                    ++ [newline])
  /\ exists lines,
      parse (bytes "[Foo] = Bar = Baz" ++ [newline] ++ bytes "a=b" ++ [newline])
      = Some lines
      /\ reconstruct lines
         = map Some (bytes "[Foo] = Bar = Baz" ++ [newline] ++ bytes "a=b"
                     ++ [newline]).
Proof.
  assert (H1 : endsWithLineBreak
                 (bytes "[Foo] = Bar = Baz" ++ [newline] ++ bytes "a=b"
                  ++ [newline]) = true) by reflexivity.
  assert (H2 : representable
                 (bytes "[Foo] = Bar = Baz" ++ [newline] ++ bytes "a=b"
                  ++ [newline])) by (unfold representable; simpl; lia).
  split; [exact H1|]. split; [exact H2|].
  exact (roundtrip_of_terminated_file _ H1 H2).
Defined.

End ReturnFacts.

(** ** One stored line for each physical line *)

Module LineFacts.
Import FileParser Pending Flat Invariants ParserFacts FlatFacts PhysicalLines.

Lemma physicalLines_nonempty l : l <> [] -> physicalLines l <> [].
Proof.
  destruct l as [|c r]; [congruence|]. intros _. simpl.
  destruct (isLineBreak c); [discriminate|].
  destruct (physicalLines r); discriminate.
Qed.

(** Behind a line break the cut starts anew. *)
Lemma physicalLines_app l1 l2 :
  List.last l1 (Some newline) = Some newline ->
  physicalLines (l1 ++ l2) = physicalLines l1 ++ physicalLines l2.
Proof.
  induction l1 as [|c r IH]; intros Hlast; [reflexivity|].
  simpl. destruct (isLineBreak c) eqn:Ec.
  - destruct r as [|c' r']; [reflexivity|].
    rewrite IH; [reflexivity|exact Hlast].
  - destruct r as [|c' r'].
    + simpl in Hlast. subst c. discriminate Ec.
    + rewrite IH by exact Hlast.
      pose proof (physicalLines_nonempty (c' :: r') ltac:(discriminate)) as Hne.
      destruct (physicalLines (c' :: r')); [congruence|reflexivity].
Qed.

Lemma physicalLines_line seg :
  Forall (fun c => isLineBreak c = false) seg ->
  physicalLines (seg ++ [Some newline]) = [seg ++ [Some newline]].
Proof.
  induction 1 as [|c seg Hc _ IH]; [reflexivity|].
  simpl. rewrite Hc, IH. reflexivity.
Qed.

Lemma physicalLines_rest seg :
  seg <> [] ->
  Forall (fun c => isLineBreak c = false) seg ->
  physicalLines seg = [seg].
Proof.
  intros Hne H. induction H as [|c seg Hc Hseg IH]; [congruence|].
  simpl. rewrite Hc. destruct seg as [|c' seg']; [reflexivity|].
  rewrite IH by discriminate. reflexivity.
Qed.

Lemma copy_n_length b start k : length (copy_n b start k) = k.
Proof. unfold copy_n. rewrite length_map, length_seq. reflexivity. Qed.

Lemma copy_n_snoc b start k :
  copy_n b start (S k) = copy_n b start k ++ [nth_error b (start + k)].
Proof.
  replace (S k) with (k + 1)%nat by lia.
  rewrite <- copy_n_app. reflexivity.
Qed.

Lemma copy_n_last b k :
  (0 < k)%nat ->
  List.last (copy_n b 0 k) (Some newline) = nth_error b (k - 1).
Proof.
  intros Hk. destruct k as [|k]; [lia|].
  rewrite copy_n_snoc, last_last. simpl. rewrite Nat.sub_0_r. reflexivity.
Qed.

Lemma copy_n_no_break b start k :
  (forall i, (start <= i < start + k)%nat -> nth_error b i <> Some newline) ->
  Forall (fun c => isLineBreak c = false) (copy_n b start k).
Proof.
  intros H. unfold copy_n. apply Forall_forall. intros c Hc.
  apply list_elem_of_In, in_map_iff in Hc. destruct Hc as (i & <- & Hi).
  apply in_seq in Hi. specialize (H i Hi).
  destruct (nth_error b i) as [x|]; [|reflexivity]. simpl.
  destruct (Byte.eqb x newline) eqn:E; [|reflexivity].
  apply byte_dec_bl in E. subst. congruence.
Qed.

(** The stored lines are the physical lines of the bytes before
    [lineStart], the line under way holds no line break, and every stored
    [Length] is the number of bytes stored. *)
Lemma step_cut b c mode p :
  representable b ->
  ((lineStart p <= parsePosition p <= length b)%nat
   /\ map (fun r => Contents (lineOf r)) (storedLines (target p))
      = physicalLines (copy_n b 0 (lineStart p))
   /\ (lineStart p = O \/ nth_error b (lineStart p - 1) = Some newline)
   /\ (forall i, (lineStart p <= i < parsePosition p)%nat ->
         nth_error b i <> Some newline)
   /\ Forall lengthOk (storedLines (target p))) ->
  nth_error b (parsePosition p) = Some c ->
  let p' := snd (step b (classify c) mode p) in
  (lineStart p' <= parsePosition p' <= length b)%nat
  /\ map (fun r => Contents (lineOf r)) (storedLines (target p'))
     = physicalLines (copy_n b 0 (lineStart p'))
  /\ (lineStart p' = O \/ nth_error b (lineStart p' - 1) = Some newline)
  /\ (forall i, (lineStart p' <= i < parsePosition p')%nat ->
        nth_error b i <> Some newline)
  /\ Forall lengthOk (storedLines (target p')).
Proof.
  intros Hrep (Hle & Hcut & Hstart & Hno & Hlen) Hc. simpl.
  assert (Hlt : (parsePosition p < length b)%nat)
    by (apply nth_error_Some; congruence).
  unfold representable in Hrep.
  pose proof (step_pos b (classify c) mode p) as Hpos.
  destruct (classify c) eqn:Hk.
  1:{ apply classify_newline in Hk. subst c.
      rewrite step_newline in *. cbn [fst snd] in *.
      destruct (beforeSubmit_frame mode p) as (E1 & E2 & E3).
      destruct (submitLine_spec b (beforeSubmit mode p)) as (_ & Hst & _).
      destruct (submitLine_fields b (beforeSubmit mode p)) as (F1 & F2 & _).
      rewrite E1 in F1, F2. rewrite F1, F2, Hst, E3.
      assert (Hline : Contents (lineOf (pendingRecord b (beforeSubmit mode p)))
                      = copy_n b (lineStart p) (parsePosition p - lineStart p)
                        ++ [Some newline]).
      { rewrite lineOf_pendingRecord. unfold pendingLine. cbn [Contents].
        rewrite E1, E2, ptrdiff_small by lia.
        replace (Z.to_nat (Z.of_nat (S (parsePosition p)) - Z.of_nat (lineStart p)))
          with (S (parsePosition p - lineStart p)) by lia.
        rewrite copy_n_snoc.
        replace (lineStart p + (parsePosition p - lineStart p))%nat
          with (parsePosition p) by lia.
        rewrite Hc. reflexivity. }
      split; [lia|]. split; [|split; [|split]].
      - rewrite map_app, Hcut. cbn [map]. rewrite Hline.
        replace (S (parsePosition p))
          with (lineStart p + S (parsePosition p - lineStart p))%nat by lia.
        rewrite <- (copy_n_app b 0), Nat.add_0_l.
        rewrite physicalLines_app.
        + f_equal. rewrite copy_n_snoc.
          replace (lineStart p + (parsePosition p - lineStart p))%nat
            with (parsePosition p) by lia.
          rewrite Hc. symmetry. apply physicalLines_line.
          apply copy_n_no_break. intros i Hi. apply Hno. lia.
        + destruct Hstart as [H0|Hnl]; [rewrite H0; reflexivity|].
          destruct (lineStart p) as [|k] eqn:Els; [reflexivity|].
          rewrite copy_n_last by lia. exact Hnl.
      - right. simpl. rewrite Nat.sub_0_r. exact Hc.
      - intros i Hi. lia.
      - apply Forall_app. split; [exact Hlen|]. constructor; [|constructor].
        unfold lengthOk. rewrite Hline, lineOf_pendingRecord.
        unfold pendingLine. cbn [Length].
        rewrite E1, E2, ptrdiff_small by lia.
        rewrite length_app, copy_n_length. simpl. lia. }
  all: assert (Hne : classify c <> CNewline) by (rewrite Hk; discriminate).
  all: rewrite <- Hk in *.
  all: destruct (step_other b (classify c) mode p Hne) as (Hls & Htg).
  all: rewrite Hpos, Hls, Htg.
  all: split; [lia|]; split; [exact Hcut|]; split; [exact Hstart|];
       split; [|exact Hlen].
  all: intros i Hi; destruct (Nat.eq_dec i (parsePosition p)) as [->|Hi'];
       [|apply Hno; lia].
  all: rewrite Hc; intros H; injection H as ->; vm_compute in Hk; discriminate Hk.
Qed.

(** X6. [ParseInto] stores one line for each physical line of the file,
    and cuts nowhere else: the [Contents] of the stored lines, in list
    order, are the pieces of the copied bytes cut behind every line break,
    and every [Length] is the number of bytes of its [Contents]. The copied
    bytes are the file, and one byte from beyond its end when the file does
    not end in a line break. *)
Theorem stored_lines_are_physical_lines b :
  representable b ->
  exists lines,
    parse b = Some lines
    /\ map (fun r => Contents (lineOf r)) lines = physicalLines (copiedBytes b)
    /\ Forall lengthOk lines.
Proof.
  intros Hrep. unfold parse. rewrite ParseInto_run.
  pose proof (run_pos b b MMain (start emptyDocument)) as Hpos. simpl in Hpos.
  pose proof (run_invariant b
    (fun _ p =>
       (lineStart p <= parsePosition p <= length b)%nat
       /\ map (fun r => Contents (lineOf r)) (storedLines (target p))
          = physicalLines (copy_n b 0 (lineStart p))
       /\ (lineStart p = O \/ nth_error b (lineStart p - 1) = Some newline)
       /\ (forall i, (lineStart p <= i < parsePosition p)%nat ->
             nth_error b i <> Some newline)
       /\ Forall lengthOk (storedLines (target p)))
    (fun c mode p H Hc => step_cut b c mode p Hrep H Hc)
    b MMain (start emptyDocument) eq_refl) as H.
  simpl in H.
  destruct H as (Hle & Hcut & Hstart & Hno & Hlen);
    [repeat split; auto; try lia; constructor|].
  set (p := snd (run b b MMain (start emptyDocument))) in *.
  rewrite Hpos in *. unfold representable in Hrep.
  eexists. split; [reflexivity|]. unfold finish, copiedBytes. rewrite Hpos.
  destruct (lineStart p <? length b)%nat eqn:E;
    [apply Nat.ltb_lt in E|apply Nat.ltb_ge in E].
  - destruct (submitLine_spec b p) as (_ & -> & _).
    assert (Hend : endsWithLineBreak b = false).
    { destruct (endsWithLineBreak b) eqn:Eb; [|reflexivity].
      apply endsWithLineBreak_spec in Eb. destruct Eb as [Eb|Eb]; [lia|].
      exfalso. apply (Hno (length b - 1)%nat); [lia|exact Eb]. }
    assert (Hline : Contents (lineOf (pendingRecord b p))
                    = copy_n b (lineStart p) (S (length b) - lineStart p)).
    { rewrite lineOf_pendingRecord. unfold pendingLine. cbn [Contents].
      rewrite Hpos, ptrdiff_small by lia. f_equal. lia. }
    rewrite Hend. split.
    + rewrite map_app, Hcut. cbn [map]. rewrite Hline.
      replace (map Some b ++ [None]) with (copy_n b 0 (S (length b))).
      2:{ rewrite copy_n_snoc, copy_n_all. simpl.
          replace (nth_error b (length b)) with (@None byte); [reflexivity|].
          symmetry. apply nth_error_None. lia. }
      replace (S (length b))
        with (lineStart p + (S (length b) - lineStart p))%nat at 2 by lia.
      rewrite <- (copy_n_app b 0), Nat.add_0_l.
      rewrite physicalLines_app.
      * f_equal. symmetry. apply physicalLines_rest.
        -- intros H0. apply (f_equal (@length _)) in H0.
           rewrite copy_n_length in H0. simpl in H0. lia.
        -- apply copy_n_no_break. intros i Hi.
           destruct (Nat.lt_ge_cases i (length b)) as [Hi'|Hi'];
             [apply Hno; lia|].
           replace (nth_error b i) with (@None byte); [discriminate|].
           symmetry. apply nth_error_None. lia.
      * destruct Hstart as [H0|Hnl]; [rewrite H0; reflexivity|].
        destruct (lineStart p) as [|k] eqn:Els; [reflexivity|].
        rewrite copy_n_last by lia. exact Hnl.
    + apply Forall_app. split; [exact Hlen|]. constructor; [|constructor].
      unfold lengthOk. rewrite Hline, lineOf_pendingRecord.
      unfold pendingLine. cbn [Length].
      rewrite Hpos, ptrdiff_small by lia. rewrite copy_n_length. lia.
  - assert (Els : lineStart p = length b) by lia.
    assert (Hend : endsWithLineBreak b = true).
    { apply endsWithLineBreak_spec. rewrite <- Els.
      destruct Hstart as [H0|Hnl]; auto. }
    rewrite Hend, app_nil_r, Hcut, Els, copy_n_all. split; [reflexivity|exact Hlen].
Qed.

Lemma stored_lines_are_physical_lines_witness :
  representable (bytes "[A][B]" ++ [newline] ++ bytes "x = 1")
  /\ exists lines,
      parse (bytes "[A][B]" ++ [newline] ++ bytes "x = 1") = Some lines
      /\ map (fun r => Contents (lineOf r)) lines
         = physicalLines (copiedBytes (bytes "[A][B]" ++ [newline] ++ bytes "x = 1"))
      /\ Forall lengthOk lines.
Proof.
  assert (H : representable (bytes "[A][B]" ++ [newline] ++ bytes "x = 1"))
    by (unfold representable; simpl; lia).
  split; [exact H|].
  exact (stored_lines_are_physical_lines _ H).
Defined.

End LineFacts.

(** ** Property lines and equals signs *)

Module KindFacts.
Import FileParser Pending Flat Invariants ParserFacts FlatFacts LexFacts KindOfLine.

(** The line [submitLine] stores at a line break or at the end of the file
    is classified by the equals signs it holds. *)
Lemma pendingRecord_kindCounts b mode p :
  representable b ->
  (lineStart p <= parsePosition p <= length b)%nat ->
  agrees (lexOf b p) mode p ->
  nth_error b (parsePosition p) = None
  \/ nth_error b (parsePosition p) = Some newline ->
  kindCountsEquals (pendingRecord b p)
  /\ kindCountsEquals (pendingRecord b (beforeSubmit mode p)).
Proof.
  intros Hrep Hle Hag Hend.
  assert (Hmal : forall q, lineIsMalformed q = true ->
                           kindCountsEquals (pendingRecord b q)).
  { intros q Hq. unfold kindCountsEquals.
    rewrite kindOf_pendingRecord_malformed by exact Hq. exact I. }
  assert (Hp : kindCountsEquals (pendingRecord b p)).
  { destruct Hag as [Hm|(Hn & _)]; [apply Hmal; exact Hm|].
    destruct (lineIsMalformed p) eqn:Em; [apply Hmal; exact Em|].
    unfold kindCountsEquals, equalsOutside.
    rewrite lineOf_pendingRecord, Contents_pendingLine, fold_left_app by auto.
    simpl. fold (lexOf b p). rewrite lexStep_end by exact Hend. rewrite Hn.
    unfold pendingRecord. rewrite Em.
    destruct (equalsSignFound p); [reflexivity|].
    destruct (sectionFound p); reflexivity. }
  split; [exact Hp|].
  destruct mode as [|[] ? ?|[] ?|]; simpl; try exact Hp.
  all: apply Hmal; reflexivity.
Qed.

Lemma step_kindCounts b c mode p :
  representable b ->
  (tiled b p /\ agrees (lexOf b p) mode p
   /\ Forall kindCountsEquals (storedLines (target p))) ->
  nth_error b (parsePosition p) = Some c ->
  let mode' := fst (step b (classify c) mode p) in
  let p' := snd (step b (classify c) mode p) in
  tiled b p' /\ agrees (lexOf b p') mode' p'
  /\ Forall kindCountsEquals (storedLines (target p')).
Proof.
  intros Hrep (Ht & Hag & Hall) Hc. simpl.
  split; [apply step_tiled; assumption|].
  destruct Ht as (Hle & _).
  destruct (classify c) eqn:Hk.
  1:{ apply classify_newline in Hk. subst c.
      rewrite step_newline. cbn [fst snd].
      destruct (submitLine_fields b (beforeSubmit mode p))
        as (F1 & F2 & _ & _ & _ & _ & _ & F8 & F9).
      split.
      - rewrite lexOf_empty by congruence. right. rewrite F8. simpl. auto.
      - destruct (submitLine_spec b (beforeSubmit mode p)) as (_ & -> & _).
        destruct (beforeSubmit_frame mode p) as (_ & _ & ->).
        apply Forall_app. split; [exact Hall|]. constructor; [|constructor].
        eapply pendingRecord_kindCounts; eauto. }
  all: assert (Hne : classify c <> CNewline) by (rewrite Hk; discriminate).
  all: rewrite <- Hk.
  all: destruct (step_other b (classify c) mode p Hne) as (Hls & Ht').
  all: pose proof (step_pos b (classify c) mode p) as Hpos.
  all: rewrite (lexOf_step b p _ Hls Hpos) by lia.
  all: rewrite Hc; split;
       [apply step_agrees; [exact Hne|exact Hag]|rewrite Ht'; exact Hall].
Qed.

(** X7. A line is stored as a Property line only when it holds exactly one
    equals sign outside quotes and comments, and as a Plain or a Section
    line only when it holds none: a line with one such equals sign is a
    Property line or Malformed, a line without one is never a Property
    line. *)
Theorem kind_counts_equals b :
  representable b ->
  exists lines, parse b = Some lines /\ Forall kindCountsEquals lines.
Proof.
  intros Hrep. unfold parse. rewrite ParseInto_run. eexists.
  split; [reflexivity|].
  pose proof (run_invariant b
    (fun mode p =>
       tiled b p /\ agrees (lexOf b p) mode p
       /\ Forall kindCountsEquals (storedLines (target p)))
    (fun c mode p H Hc => step_kindCounts b c mode p Hrep H Hc)
    b MMain (start emptyDocument) eq_refl) as Hrun.
  pose proof (run_pos b b MMain (start emptyDocument)) as Hpos. simpl in Hpos.
  destruct (run b b MMain (start emptyDocument)) as [mode p]. simpl in *.
  destruct Hrun as (Ht & Hag & Hall).
  { unfold tiled. simpl. repeat split; auto; try lia.
    right. simpl. auto. }
  unfold finish. destruct (lineStart p <? parsePosition p)%nat; [|exact Hall].
  destruct (submitLine_spec b p) as (_ & -> & _).
  apply Forall_app. split; [exact Hall|]. constructor; [|constructor].
  destruct Ht as (Hle & _).
  eapply (pendingRecord_kindCounts b mode p); eauto.
  left. apply nth_error_None. lia.
Qed.

Lemma kind_counts_equals_witness :
  representable (bytes "[a] ; x = y" ++ [newline] ++ bytes "b = 2" ++ [newline])
  /\ exists lines,
      parse (bytes "[a] ; x = y" ++ [newline] ++ bytes "b = 2" ++ [newline])
      = Some lines
      /\ Forall kindCountsEquals lines.
Proof.
  assert (H : representable
                (bytes "[a] ; x = y" ++ [newline] ++ bytes "b = 2" ++ [newline]))
    by (vm_compute; reflexivity).
  split; [exact H|].
  exact (kind_counts_equals _ H).
Defined.

End KindFacts.

(** ** Blank lines and comment lines are Plain *)

Module ShapeFacts.
Import FileParser Pending Flat Invariants ParserFacts FlatFacts LineShape.

(** The shape of the line under way, read up to [parsePosition]. *)
Lemma shapeOf_step b p p' :
  lineStart p' = lineStart p ->
  parsePosition p' = S (parsePosition p) ->
  (lineStart p <= parsePosition p)%nat ->
  shapeOf (copy_n b (lineStart p') (parsePosition p' - lineStart p'))
  = shapeStep (shapeOf (copy_n b (lineStart p) (parsePosition p - lineStart p)))
      (nth_error b (parsePosition p)).
Proof.
  intros Hls Hpos Hle. unfold shapeOf. rewrite Hls, Hpos.
  replace (S (parsePosition p) - lineStart p)%nat
    with ((parsePosition p - lineStart p) + 1)%nat by lia.
  rewrite <- copy_n_app, fold_left_app.
  replace (lineStart p + (parsePosition p - lineStart p))%nat
    with (parsePosition p) by lia.
  reflexivity.
Qed.

Lemma shapeStep_end s c :
  c = None \/ c = Some newline -> shapeStep s c = s.
Proof. intros [-> | ->]; destruct s; reflexivity. Qed.

(** On a blank line the pass is in the loop of [ParseInto], behind the
    start of a comment it is in the loop of [parseComment]; in both cases
    nothing has been found in the line. *)
Lemma step_shape c (s : Shape) mode p b :
  classify c <> CNewline ->
  (s <> Other ->
   mode = (match s with Comment => MSkip | _ => MMain end)
   /\ lineIsMalformed p = false /\ equalsSignFound p = false
   /\ sectionFound p = false) ->
  let mode' := fst (step b (classify c) mode p) in
  let p' := snd (step b (classify c) mode p) in
  shapeStep s (Some c) <> Other ->
  mode' = (match shapeStep s (Some c) with Comment => MSkip | _ => MMain end)
  /\ lineIsMalformed p' = false /\ equalsSignFound p' = false
  /\ sectionFound p' = false.
Proof.
  intros Hk Hs. simpl.
  revert Hk; pattern c; apply byte_cases; clear c;
    [..|intros c E1 E2 E3 E4 E5 E6 E7 E8 Ec; rewrite Ec];
    intros Hk; try (exfalso; apply Hk; reflexivity); clear Hk.
  all: destruct s; simpl; rewrite ?E2, ?E3, ?E8; simpl;
       intros Hs'; try (exfalso; apply Hs'; reflexivity).
  all: destruct Hs as (-> & Hm & He & Hf); [discriminate|].
  all: simpl; rewrite ?He; simpl; auto.
Qed.

Lemma pendingRecord_plain b p :
  lineIsMalformed p = false -> equalsSignFound p = false ->
  sectionFound p = false ->
  kindOf (pendingRecord b p) = KPlain.
Proof. intros H1 H2 H3. unfold pendingRecord. rewrite H1, H2, H3. reflexivity. Qed.

Lemma pendingRecord_shape b mode p (s : Shape) :
  representable b ->
  (lineStart p <= parsePosition p <= length b)%nat ->
  s = shapeOf (copy_n b (lineStart p) (parsePosition p - lineStart p)) ->
  (s <> Other ->
   mode = (match s with Comment => MSkip | _ => MMain end)
   /\ lineIsMalformed p = false /\ equalsSignFound p = false
   /\ sectionFound p = false) ->
  nth_error b (parsePosition p) = None
  \/ nth_error b (parsePosition p) = Some newline ->
  blankOrComment (Contents (lineOf (pendingRecord b (beforeSubmit mode p)))) = true ->
  kindOf (pendingRecord b (beforeSubmit mode p)) = KPlain.
Proof.
  intros Hrep Hle Hs Hinv Hend.
  assert (Hc : Contents (lineOf (pendingRecord b (beforeSubmit mode p)))
               = copy_n b (lineStart p) (parsePosition p - lineStart p)
                 ++ [nth_error b (parsePosition p)]).
  { rewrite lineOf_pendingRecord.
    destruct (beforeSubmit_frame mode p) as (E1 & E2 & _).
    rewrite <- E1 at 1 2. rewrite <- E2.
    apply LexFacts.Contents_pendingLine; [exact Hrep|]. rewrite E1, E2. exact Hle. }
  rewrite Hc. unfold blankOrComment, shapeOf. rewrite fold_left_app. simpl.
  fold (shapeOf (copy_n b (lineStart p) (parsePosition p - lineStart p))).
  rewrite <- Hs, shapeStep_end by exact Hend.
  intros Hb. assert (Hne : s <> Other) by (destruct s; congruence).
  destruct (Hinv Hne) as (-> & Hm & He & Hf).
  destruct s; simpl; try congruence; apply pendingRecord_plain; assumption.
Qed.

Lemma step_blankOrComment b c mode p :
  representable b ->
  (tiled b p
   /\ (shapeOf (copy_n b (lineStart p) (parsePosition p - lineStart p)) <> Other ->
       mode = (match shapeOf (copy_n b (lineStart p)
                                (parsePosition p - lineStart p)) with
               | Comment => MSkip
               | _ => MMain
               end)
       /\ lineIsMalformed p = false /\ equalsSignFound p = false
       /\ sectionFound p = false)
   /\ Forall (fun r => blankOrComment (Contents (lineOf r)) = true ->
                       kindOf r = KPlain)
        (storedLines (target p))) ->
  nth_error b (parsePosition p) = Some c ->
  let mode' := fst (step b (classify c) mode p) in
  let p' := snd (step b (classify c) mode p) in
  tiled b p'
  /\ (shapeOf (copy_n b (lineStart p') (parsePosition p' - lineStart p')) <> Other ->
      mode' = (match shapeOf (copy_n b (lineStart p')
                                (parsePosition p' - lineStart p')) with
               | Comment => MSkip
               | _ => MMain
               end)
      /\ lineIsMalformed p' = false /\ equalsSignFound p' = false
      /\ sectionFound p' = false)
  /\ Forall (fun r => blankOrComment (Contents (lineOf r)) = true ->
                      kindOf r = KPlain)
       (storedLines (target p')).
Proof.
  intros Hrep (Ht & Hinv & Hall) Hc. simpl.
  split; [apply step_tiled; assumption|].
  destruct Ht as (Hle & _).
  destruct (classify c) eqn:Hk.
  1:{ apply classify_newline in Hk. subst c.
      rewrite step_newline. cbn [fst snd].
      destruct (submitLine_fields b (beforeSubmit mode p))
        as (F1 & F2 & _ & _ & _ & _ & F7 & F8 & F9).
      split.
      - rewrite F1, F2, Nat.sub_diag. simpl. intros _. auto.
      - destruct (submitLine_spec b (beforeSubmit mode p)) as (_ & -> & _).
        destruct (beforeSubmit_frame mode p) as (_ & _ & ->).
        apply Forall_app. split; [exact Hall|]. constructor; [|constructor].
        eapply pendingRecord_shape; eauto. }
  all: assert (Hne : classify c <> CNewline) by (rewrite Hk; discriminate).
  all: rewrite <- Hk.
  all: destruct (step_other b (classify c) mode p Hne) as (Hls & Ht').
  all: pose proof (step_pos b (classify c) mode p) as Hpos.
  all: rewrite (shapeOf_step b p _ Hls Hpos) by lia.
  all: rewrite Hc; split;
       [apply step_shape; [exact Hne|exact Hinv]|rewrite Ht'; exact Hall].
Qed.

(** X8. A line that is blank, or whose first byte that is no whitespace is
    [;] or [#], is stored as a Plain line: comments and empty lines are
    never Malformed, whatever the comment holds. *)
Theorem blank_and_comment_lines_are_plain b :
  representable b ->
  exists lines,
    parse b = Some lines
    /\ Forall (fun r => blankOrComment (Contents (lineOf r)) = true ->
                        kindOf r = KPlain) lines.
Proof.
  intros Hrep. unfold parse. rewrite ParseInto_run. eexists.
  split; [reflexivity|].
  pose proof (run_invariant b
    (fun mode p =>
       tiled b p
       /\ (shapeOf (copy_n b (lineStart p) (parsePosition p - lineStart p)) <> Other ->
           mode = (match shapeOf (copy_n b (lineStart p)
                                    (parsePosition p - lineStart p)) with
                   | Comment => MSkip
                   | _ => MMain
                   end)
           /\ lineIsMalformed p = false /\ equalsSignFound p = false
           /\ sectionFound p = false)
       /\ Forall (fun r => blankOrComment (Contents (lineOf r)) = true ->
                           kindOf r = KPlain)
            (storedLines (target p)))
    (fun c mode p H Hc => step_blankOrComment b c mode p Hrep H Hc)
    b MMain (start emptyDocument) eq_refl) as Hrun.
  pose proof (run_pos b b MMain (start emptyDocument)) as Hpos. simpl in Hpos.
  destruct (run b b MMain (start emptyDocument)) as [mode p]. simpl in *.
  destruct Hrun as (Ht & Hinv & Hall).
  { unfold tiled. simpl. repeat split; auto; try lia. }
  unfold finish.
  destruct (lineStart p <? parsePosition p)%nat eqn:E; [|exact Hall].
  destruct (submitLine_spec b p) as (_ & -> & _).
  apply Forall_app. split; [exact Hall|]. constructor; [|constructor].
  destruct Ht as (Hle & _).
  assert (Hend : nth_error b (parsePosition p) = None)
    by (apply nth_error_None; lia).
  intros Hb.
  assert (Hsub : beforeSubmit mode p = p \/ lineIsMalformed (beforeSubmit mode p) = true).
  { destruct mode as [|[] ? ?|[] ?|]; simpl; auto. }
  pose proof (pendingRecord_shape b mode p _ Hrep Hle eq_refl Hinv (or_introl Hend))
    as Hplain.
  assert (Hcont : Contents (lineOf (pendingRecord b (beforeSubmit mode p)))
                  = Contents (lineOf (pendingRecord b p))).
  { rewrite !lineOf_pendingRecord. unfold pendingLine.
    destruct (beforeSubmit_frame mode p) as (-> & -> & _). reflexivity. }
  rewrite Hcont in Hplain. specialize (Hplain Hb).
  destruct Hsub as [Heq|Hmal]; [rewrite Heq in Hplain; exact Hplain|].
  unfold pendingRecord in Hplain. rewrite Hmal in Hplain. discriminate Hplain.
Qed.

Lemma blank_and_comment_lines_are_plain_witness :
  representable (bytes "  ; a = [b" ++ [newline] ++ [newline] ++ bytes "# c")
  /\ exists lines,
      parse (bytes "  ; a = [b" ++ [newline] ++ [newline] ++ bytes "# c")
      = Some lines
      /\ Forall (fun r => blankOrComment (Contents (lineOf r)) = true ->
                          kindOf r = KPlain) lines.
Proof.
  assert (H : representable
                (bytes "  ; a = [b" ++ [newline] ++ [newline] ++ bytes "# c"))
    by (vm_compute; reflexivity).
  split; [exact H|].
  exact (blank_and_comment_lines_are_plain _ H).
Defined.

End ShapeFacts.

(** ** The records in the memory of the document *)

Module MemoryFacts.
Import FileParser Pending Flat Invariants ParserFacts FlatFacts Arena ArenaFacts.
Import Memory.

#[local] Set Warnings "-clear-no-such-hyp".

(** A step that reads no line break leaves the memory alone. *)
Lemma step_other_memory b k mode p :
  k <> CNewline ->
  target (snd (step b k mode p)) = target p
  /\ remainingChunkByteCount (snd (step b k mode p)) = remainingChunkByteCount p.
Proof.
  intros Hk.
  destruct k; try congruence; clear Hk.
  all: destruct mode as [|q e s|q e|]; [|destruct q|destruct q|]; simpl.
  all: repeat match goal with
         | |- context [if ?x then _ else _] => destruct x; simpl
         end.
  all: split; reflexivity.
Qed.

Lemma beforeSubmit_memory mode p :
  target (beforeSubmit mode p) = target p
  /\ remainingChunkByteCount (beforeSubmit mode p) = remainingChunkByteCount p.
Proof. destruct mode as [|[] ? ?|[] ?|]; simpl; auto. Qed.

Transparent submitLine.

(** [submitLine] allocates the bytes of the pending record and writes the
    record there; for a malformed line it then obtains one block more, the
    [new Line()]. *)
Lemma submitLine_memory b p :
  let r := pendingRecord b p in
  let a := allocateChunked (layoutOf (kindOf r)) (Length (lineOf r)) p in
  lineRecords (target (submitLine b p))
  = lineRecords (target (snd a)) ++ [(fst a, r)]
  /\ heap (target (submitLine b p))
     = (if lineIsMalformed p
        then <[fresh (dom (heap (target (snd a)))) := sizeOf LineLayout]>
               (heap (target (snd a)))
        else heap (target (snd a)))
  /\ loadedLinesMemory (target (submitLine b p)) = loadedLinesMemory (target (snd a))
  /\ createdLinesMemory (target (submitLine b p))
     = createdLinesMemory (target (snd a))
  /\ remainingChunkByteCount (submitLine b p) = remainingChunkByteCount (snd a).
Proof.
  unfold submitLine, pendingRecord, generatePropertyLine, generateSectionLine,
    allocateLineChunked, pendingLine, pendingName, pendingValue, new_Line,
    freshBlock.
  change (lineIsMalformed (advance p)) with (lineIsMalformed p).
  change (equalsSignFound (advance p)) with (equalsSignFound p).
  change (sectionFound (advance p)) with (sectionFound p).
  change (parsePosition (advance p)) with (S (parsePosition p)).
  change (lineStart (advance p)) with (lineStart p).
  destruct (lineIsMalformed p);
    [|destruct (equalsSignFound p); [|destruct (sectionFound p)]].
  all: cbn [kindOf lineOf layoutOf Length PropertyLine.base SectionLine.base].
  all: unfold allocateChunked;
       change (target (advance p)) with (target p);
       change (remainingChunkByteCount (advance p)) with (remainingChunkByteCount p).
  all: destruct (to_size_t _ <? AllocationChunkSize);
       [destruct (remainingChunkByteCount p <? _)|].
  all: simpl.
  all: destruct (valueStart p), (valueEnd p), (nameStart p), (nameEnd p).
  all: simpl; auto.
Qed.

Opaque submitLine.

Lemma ForallOrdPairs_snoc {A} (R : A -> A -> Prop) l x :
  ForallOrdPairs R l -> Forall (fun y => R y x) l ->
  ForallOrdPairs R (l ++ [x]).
Proof.
  induction 1 as [|y l Hy Hl IH]; intros Hx; simpl.
  - constructor; constructor.
  - inversion Hx; subst. constructor.
    + apply Forall_app. split; [exact Hy|]. constructor; [assumption|constructor].
    + apply IH. assumption.
Qed.

Lemma currentChunk_snoc p chunks c :
  loadedLinesMemory (target p) = chunks ++ [c] -> currentChunk p = Some c.
Proof.
  intros H. unfold currentChunk. rewrite H, length_app. simpl.
  replace (length chunks + 1 - 1)%nat with (length chunks) by lia.
  rewrite nth_error_app2, Nat.sub_diag by lia. reflexivity.
Qed.

Lemma currentChunk_some p :
  loadedLinesMemory (target p) <> [] ->
  exists c, currentChunk p = Some c /\ In c (loadedLinesMemory (target p)).
Proof.
  intros Hne. unfold currentChunk.
  destruct (nth_error (loadedLinesMemory (target p))
              (length (loadedLinesMemory (target p)) - 1)) as [c|] eqn:E.
  - exists c. split; [reflexivity|]. eapply nth_error_In. exact E.
  - apply nth_error_None in E.
    destruct (loadedLinesMemory (target p)); [congruence|simpl in E; lia].
Qed.

(** An allocation keeps the memory safe: the bytes it returns lie within a
    block of the document and share no byte with a stored record. *)
Lemma allocateChunked_safe (T : TypeLayout) (n : Z) (r : LineRecord) (p : t) :
  arenaSafe p -> validLayout T -> 0 <= n ->
  getSizePlusAlignmentPadding T + n < 2 ^ 63 ->
  footprint r = getSizePlusAlignmentPadding T + n ->
  let a := allocateChunked T n p in
  forall q,
    lineRecords (target q) = lineRecords (target (snd a)) ++ [(fst a, r)] ->
    heap (target q) = heap (target (snd a)) ->
    loadedLinesMemory (target q) = loadedLinesMemory (target (snd a)) ->
    remainingChunkByteCount q = remainingChunkByteCount (snd a) ->
    arenaSafe q.
Proof.
  intros ((Hrem & Hnone & Hchunks) & (Hin & Hapart) & Hmark) HT Hn Hfit Hfp.
  pose proof (getSizePlusAlignmentPadding_ge T HT) as Hge.
  destruct HT as (Hs & Ha).
  set (s := getSizePlusAlignmentPadding T + n) in *.
  unfold allocateChunked. fold s.
  rewrite (to_size_t_small s) by lia.
  rewrite (to_size_t_small (s * 2)) by lia.
  pose proof (freshBlock_fresh (target p)) as Hfresh.
  assert (Hlive : forall e, In e (lineRecords (target p)) ->
            ptrBlock (fst e) <> Some (freshBlock (target p))).
  { intros e He Heq. rewrite Forall_forall in Hin.
    destruct (Hin e ltac:(apply list_elem_of_In; exact He))
      as (blk & sz & Hb & Hh & _).
    rewrite Heq in Hb. injection Hb as <-. congruence. }
  assert (Hkeep : forall q,
            (forall blk sz, heap (target p) !! blk = Some sz ->
                            heap (target q) !! blk = Some sz) ->
            Forall (fun e => withinBlock (target q) (fst e) (footprint (snd e)))
              (lineRecords (target p))).
  { intros q Hq. rewrite Forall_forall in *. intros e He.
    destruct (Hin e He) as (blk & sz & Hb & Hh & Hoff).
    exists blk, sz. split; [exact Hb|]. split; [|exact Hoff].
    apply Hq. exact Hh. }
  assert (Hins : forall q size,
            heap (target q) = <[freshBlock (target p) := size]> (heap (target p)) ->
            forall blk sz, heap (target p) !! blk = Some sz ->
                           heap (target q) !! blk = Some sz).
  { intros q size Hq blk sz Hh. rewrite Hq, lookup_insert_ne; [exact Hh|].
    intros <-. congruence. }
  unfold AllocationChunkSize in *.
  destruct (s * 2 <? 4096) eqn:Esmall;
    [apply Z.ltb_lt in Esmall|apply Z.ltb_ge in Esmall].
  - destruct (remainingChunkByteCount p <? s) eqn:Eroom;
      [apply Z.ltb_lt in Eroom|apply Z.ltb_ge in Eroom]; cbn [fst snd].
    + (* a new chunk *)
      cbn [target with_memory remainingChunkByteCount lineRecords heap
           loadedLinesMemory].
      rewrite (to_size_t_small (4096 - s)) by lia.
      intros q Hrec Hheap Hload Hremq.
      assert (Hcur : currentChunk q = Some (freshBlock (target p)))
        by (eapply currentChunk_snoc; exact Hload).
      unfold arenaSafe, arenaOk, memorySafe, AllocationChunkSize.
      rewrite Hrec, Hheap, Hload, Hremq, Hcur.
      split; [split; [lia|split]|split; [split|]].
      * intros H0. destruct (loadedLinesMemory (target p)); discriminate H0.
      * apply Forall_app. split.
        -- rewrite Forall_forall in *. intros c Hc.
           rewrite lookup_insert_ne; [apply Hchunks; exact Hc|].
           intros <-. rewrite (Hchunks _ Hc) in Hfresh. discriminate.
        -- constructor; [|constructor]. apply lookup_insert_eq.
      * apply Forall_app. split.
        -- apply Hkeep. eapply Hins. exact Hheap.
        -- constructor; [|constructor]. exists (freshBlock (target p)), 4096.
           simpl. rewrite Hheap, lookup_insert_eq, Hfp. repeat split; auto; lia.
      * apply ForallOrdPairs_snoc; [exact Hapart|].
        apply Forall_forall. intros e He. left. simpl.
        apply Hlive. apply list_elem_of_In. exact He.
      * apply Forall_app. split.
        -- apply Forall_forall. intros e He Heq. exfalso.
           apply (Hlive e); [apply list_elem_of_In; exact He|exact Heq].
        -- constructor; [|constructor]. simpl. intros _. lia.
    + (* the room left in the current chunk *)
      cbn [target with_memory remainingChunkByteCount].
      rewrite (to_size_t_small (remainingChunkByteCount p - s)) by lia.
      intros q Hrec Hheap Hload Hremq.
      assert (Hne : loadedLinesMemory (target p) <> []).
      { intros H0. specialize (Hnone H0). lia. }
      destruct (currentChunk_some p Hne) as (c & Hc & Hcin).
      assert (Hcq : currentChunk q = Some c).
      { unfold currentChunk in *. rewrite Hload. exact Hc. }
      unfold currentChunk in Hc. rewrite Hc in *.
      unfold arenaSafe, arenaOk, memorySafe, AllocationChunkSize.
      rewrite Hrec, Hheap, Hload, Hremq, Hcq.
      split; [split; [lia|split]|split; [split|]].
      * intros H0. congruence.
      * exact Hchunks.
      * apply Forall_app. split; [apply Hkeep; intros; congruence|].
        constructor; [|constructor]. exists c, 4096. simpl.
        rewrite Forall_forall in Hchunks.
        rewrite Hheap, (Hchunks c ltac:(apply list_elem_of_In; exact Hcin)), Hfp.
        repeat split; auto; lia.
      * apply ForallOrdPairs_snoc; [exact Hapart|].
        rewrite Forall_forall in *. intros e He. simpl.
        destruct (option_eq_dec (ptrBlock (fst e)) (Some c)) as [Heq|Hneq];
          [|left; exact Hneq].
        right. left. apply Hmark; [exact He|].
        unfold currentChunk. rewrite Hc. exact Heq.
      * apply Forall_app. split.
        -- rewrite Forall_forall in *. intros e He Heq.
           assert (ptrOffset (fst e) + footprint (snd e)
                   <= 4096 - remainingChunkByteCount p).
           { apply Hmark; [exact He|]. unfold currentChunk. rewrite Hc. exact Heq. }
           lia.
        -- constructor; [|constructor]. simpl. intros _. lia.
  - (* a block of its own *)
    cbn [fst snd target with_memory remainingChunkByteCount lineRecords heap
         loadedLinesMemory].
    intros q Hrec Hheap Hload Hremq.
    assert (Hcq : currentChunk q = currentChunk p).
    { unfold currentChunk. rewrite Hload. reflexivity. }
    unfold arenaSafe, arenaOk, memorySafe, AllocationChunkSize.
    rewrite Hrec, Hheap, Hload, Hremq, Hcq.
    split; [split; [lia|split]|split; [split|]].
    + exact Hnone.
    + rewrite Forall_forall in *. intros c Hc.
      rewrite lookup_insert_ne; [apply Hchunks; exact Hc|].
      intros <-. rewrite (Hchunks _ Hc) in Hfresh. discriminate.
    + apply Forall_app. split.
      * apply Hkeep. eapply Hins. exact Hheap.
      * constructor; [|constructor]. exists (freshBlock (target p)), s.
        simpl. rewrite Hheap, lookup_insert_eq, Hfp. repeat split; auto; lia.
    + apply ForallOrdPairs_snoc; [exact Hapart|].
      apply Forall_forall. intros e He. left. simpl.
      apply Hlive. apply list_elem_of_In. exact He.
    + apply Forall_app. split; [exact Hmark|].
      constructor; [|constructor]. simpl. intros Heq. exfalso.
      unfold currentChunk in Heq. symmetry in Heq.
      apply nth_error_In in Heq. rewrite Forall_forall in Hchunks.
      rewrite (Hchunks _ ltac:(apply list_elem_of_In; exact Heq)) in Hfresh.
      discriminate.
Qed.

Lemma arenaSafe_ext p p' :
  target p' = target p ->
  remainingChunkByteCount p' = remainingChunkByteCount p ->
  arenaSafe p -> arenaSafe p'.
Proof.
  intros Ht Hr. unfold arenaSafe, arenaOk, currentChunk. rewrite Ht, Hr. tauto.
Qed.

Lemma layoutOf_valid k : validLayout (layoutOf k).
Proof. destruct k; unfold validLayout; simpl; lia. Qed.

Lemma padding_layoutOf_le k : getSizePlusAlignmentPadding (layoutOf k) <= 64.
Proof. destruct k; vm_compute; discriminate. Qed.

(** Memory safety is a matter of the blocks, the chunks, the records and
    the room left. *)
Lemma arenaSafe_fields p q :
  heap (target q) = heap (target p) ->
  lineRecords (target q) = lineRecords (target p) ->
  loadedLinesMemory (target q) = loadedLinesMemory (target p) ->
  remainingChunkByteCount q = remainingChunkByteCount p ->
  arenaSafe p -> arenaSafe q.
Proof.
  intros H1 H2 H3 H4.
  unfold arenaSafe, arenaOk, memorySafe, withinBlock, currentChunk.
  rewrite H1, H2, H3, H4. tauto.
Qed.

(** A block more, which no record lies in, leaves the memory safe. *)
Lemma new_block_safe p q size :
  arenaSafe p ->
  heap (target q) = <[freshBlock (target p) := size]> (heap (target p)) ->
  lineRecords (target q) = lineRecords (target p) ->
  loadedLinesMemory (target q) = loadedLinesMemory (target p) ->
  remainingChunkByteCount q = remainingChunkByteCount p ->
  arenaSafe q.
Proof.
  intros ((Hrem & Hnone & Hchunks) & (Hin & Hapart) & Hmark) Hheap Hrec Hload Hremq.
  pose proof (freshBlock_fresh (target p)) as Hfresh.
  assert (Hkeep : forall blk sz, heap (target p) !! blk = Some sz ->
                                 heap (target q) !! blk = Some sz).
  { intros blk sz Hh. rewrite Hheap, lookup_insert_ne; [exact Hh|].
    intros <-. congruence. }
  unfold arenaSafe, arenaOk, memorySafe, currentChunk.
  rewrite Hrec, Hload, Hremq.
  split; [split; [exact Hrem|split; [exact Hnone|]]|split; [split|]].
  - rewrite Forall_forall in *. intros c Hc. apply Hkeep. apply Hchunks. exact Hc.
  - rewrite Forall_forall in *. intros e He.
    destruct (Hin e He) as (blk & sz & Hb & Hh & Hoff).
    exists blk, sz. split; [exact Hb|]. split; [apply Hkeep; exact Hh|exact Hoff].
  - exact Hapart.
  - exact Hmark.
Qed.

(** Submitting a line keeps the memory safe. *)
Lemma submitLine_safe b p :
  Z.of_nat (length b) + 65 < 2 ^ 63 ->
  (lineStart p <= parsePosition p <= length b)%nat ->
  arenaSafe p -> arenaSafe (submitLine b p).
Proof.
  intros Hfit Hle Hsafe.
  destruct (submitLine_memory b p) as (Hrec & Hheap & Hload & _ & Hrem).
  assert (Hlen : Length (lineOf (pendingRecord b p))
                 = Z.of_nat (S (parsePosition p)) - Z.of_nat (lineStart p)).
  { rewrite lineOf_pendingRecord. unfold pendingLine. cbn [Length].
    apply ptrdiff_small; lia. }
  pose proof (padding_layoutOf_le (kindOf (pendingRecord b p))) as Hpad.
  set (a := allocateChunked (layoutOf (kindOf (pendingRecord b p)))
              (Length (lineOf (pendingRecord b p))) p) in *.
  set (written :=
         with_memory
           {| heap := heap (target (snd a));
              loadedLinesMemory := loadedLinesMemory (target (snd a));
              createdLinesMemory := createdLinesMemory (target (snd a));
              sections := sections (target (snd a));
              lineRecords := lineRecords (target (snd a))
                             ++ [(fst a, pendingRecord b p)] |}
           (remainingChunkByteCount (snd a)) p).
  assert (Hwritten : arenaSafe written).
  { eapply (allocateChunked_safe (layoutOf (kindOf (pendingRecord b p)))
              (Length (lineOf (pendingRecord b p))) (pendingRecord b p) p);
      try eassumption; try reflexivity.
    - apply layoutOf_valid.
    - lia.
    - lia. }
  destruct (lineIsMalformed p).
  - eapply (new_block_safe written); [exact Hwritten|exact Hheap|exact Hrec
                                     |exact Hload|exact Hrem].
  - eapply (arenaSafe_fields written); [exact Hheap|exact Hrec|exact Hload
                                       |exact Hrem|exact Hwritten].
Qed.

Lemma step_safe b c mode p :
  Z.of_nat (length b) + 65 < 2 ^ 63 ->
  tiled b p /\ arenaSafe p ->
  nth_error b (parsePosition p) = Some c ->
  tiled b (snd (step b (classify c) mode p))
  /\ arenaSafe (snd (step b (classify c) mode p)).
Proof.
  intros Hfit (Ht & Hsafe) Hc.
  assert (Hrep : representable b) by (unfold representable; lia).
  split; [apply step_tiled; assumption|].
  destruct Ht as (Hle & _).
  destruct (classify c) eqn:Hk.
  1:{ rewrite step_newline. cbn [snd].
      destruct (beforeSubmit_frame mode p) as (E1 & E2 & _).
      destruct (beforeSubmit_memory mode p) as (E3 & E4).
      apply submitLine_safe; [exact Hfit|rewrite E1, E2; exact Hle|].
      eapply arenaSafe_ext; eassumption. }
  all: assert (Hne : classify c <> CNewline) by (rewrite Hk; discriminate).
  all: rewrite <- Hk.
  all: destruct (step_other_memory b (classify c) mode p Hne) as (E3 & E4).
  all: eapply arenaSafe_ext; eassumption.
Qed.

Lemma arenaSafe_start : arenaSafe (start emptyDocument).
Proof.
  unfold arenaSafe, arenaOk, memorySafe, AllocationChunkSize. simpl.
  repeat split; auto; try lia; constructor.
Qed.

(** X9. The records [ParseInto] stores never share a byte and never leave
    the memory of the document: every record, with the bytes of its line
    behind it, lies within one block the document holds, a chunk or a
    block of its own, and no two records overlap. The file is one whose
    longest line, with its record, is smaller than [2^63] bytes. *)
Theorem parse_is_memory_safe b :
  Z.of_nat (length b) + 65 < 2 ^ 63 ->
  exists p, ParseInto b emptyDocument = Some p /\ memorySafe (target p).
Proof.
  intros Hfit. rewrite ParseInto_run. eexists. split; [reflexivity|].
  assert (Hrep : representable b) by (unfold representable; lia).
  pose proof (run_invariant b (fun _ p => tiled b p /\ arenaSafe p)
                (fun c mode p H Hc => step_safe b c mode p Hfit H Hc)
                b MMain (start emptyDocument) eq_refl) as Hrun.
  pose proof (run_pos b b MMain (start emptyDocument)) as Hpos. simpl in Hpos.
  destruct (run b b MMain (start emptyDocument)) as [mode p]. simpl in *.
  destruct Hrun as ((Hle & _) & Hsafe).
  { split; [|exact arenaSafe_start].
    unfold tiled. simpl. repeat split; auto; lia. }
  unfold finish. destruct (lineStart p <? parsePosition p)%nat.
  - apply (submitLine_safe b p Hfit Hle Hsafe).
  - apply Hsafe.
Qed.

Lemma parse_is_memory_safe_witness :
  Z.of_nat (length (bytes "[Foo]" ++ [newline] ++ bytes "Bar = Baz")) + 65 < 2 ^ 63
  /\ exists p,
      ParseInto (bytes "[Foo]" ++ [newline] ++ bytes "Bar = Baz") emptyDocument
      = Some p
      /\ memorySafe (target p).
Proof.
  assert (H : Z.of_nat (length (bytes "[Foo]" ++ [newline] ++ bytes "Bar = Baz"))
              + 65 < 2 ^ 63) by (vm_compute; reflexivity).
  split; [exact H|].
  exact (parse_is_memory_safe _ H).
Defined.

(** An allocation enters the block it obtains in one of the lists, once:
    what the lists do not know stays what it was. *)
Lemma allocateChunked_registered (T : TypeLayout) (n : Z) (p : t) :
  let d' := target (snd (allocateChunked T n p)) in
  registeredOnce (target p) ->
  registeredOnce d'
  /\ unregistered d' = unregistered (target p)
  /\ (forall blk size,
        heap (target p) !! blk = Some size -> heap d' !! blk = Some size)
  /\ lineRecords d' = lineRecords (target p).
Proof.
  intros d' (Hnodup & Hheld & Hdisj). subst d'.
  pose proof (freshBlock_fresh (target p)) as Hfresh.
  assert (Hdom : freshBlock (target p) ∉ dom (heap (target p)))
    by (apply not_elem_of_dom; exact Hfresh).
  assert (Hnew1 : ~ In (freshBlock (target p)) (loadedLinesMemory (target p))).
  { intros H. assert (Hs : is_Some (heap (target p) !! freshBlock (target p)))
      by (apply Hheld; left; exact H).
    rewrite Hfresh in Hs. destruct Hs; discriminate. }
  assert (Hnew2 : freshBlock (target p) ∉ createdLinesMemory (target p)).
  { intros H. assert (Hs : is_Some (heap (target p) !! freshBlock (target p)))
      by (apply Hheld; right; exact H).
    rewrite Hfresh in Hs. destruct Hs; discriminate. }
  assert (Hkeep : forall size blk sz,
            heap (target p) !! blk = Some sz ->
            <[freshBlock (target p) := size]> (heap (target p)) !! blk = Some sz).
  { intros size blk sz Hh. rewrite lookup_insert_ne; [exact Hh|].
    intros <-. congruence. }
  unfold allocateChunked.
  destruct (to_size_t _ <? AllocationChunkSize);
    [destruct (remainingChunkByteCount p <? _)|];
    unfold registeredOnce, registered, unregistered; simpl.
  - split; [split; [|split]|split; [|split; [apply Hkeep|reflexivity]]].
    + apply NoDup_app. split; [exact Hnodup|]. split.
      * intros x Hx Hx'. apply list_elem_of_In in Hx.
        apply list_elem_of_In in Hx'. destruct Hx' as [<-|[]]. contradiction.
      * apply NoDup_singleton.
    + intros blk. rewrite in_app_iff. simpl.
      destruct (Nat.eq_dec (freshBlock (target p)) blk) as [<-|Hne].
      * rewrite lookup_insert_eq. eauto.
      * rewrite lookup_insert_ne by exact Hne. intros [[H|[H|[]]]|H].
        -- apply Hheld. left. exact H.
        -- congruence.
        -- apply Hheld. right. exact H.
    + intros blk Hin. apply in_app_iff in Hin. destruct Hin as [Hin|[<-|[]]].
      * apply Hdisj. exact Hin.
      * exact Hnew2.
    + rewrite dom_insert_L, list_to_set_app_L. simpl.
      set_solver.
  - split; [split; [exact Hnodup|split; [exact Hheld|exact Hdisj]]|].
    split; [reflexivity|]. split; [auto|reflexivity].
  - split; [split; [exact Hnodup|split]|split; [|split; [apply Hkeep|reflexivity]]].
    + intros blk. rewrite elem_of_union, elem_of_singleton.
      destruct (Nat.eq_dec (freshBlock (target p)) blk) as [<-|Hne].
      * rewrite lookup_insert_eq. eauto.
      * rewrite lookup_insert_ne by exact Hne. intros [H|[H|H]].
        -- apply Hheld. left. exact H.
        -- congruence.
        -- apply Hheld. right. exact H.
    + intros blk Hin. rewrite elem_of_union, elem_of_singleton.
      intros [->|H]; [contradiction|]. apply (Hdisj blk Hin H).
    + rewrite dom_insert_L. set_solver.
Qed.

(** A block that is allocated and entered in no list is one block more
    that the lists do not know. *)
Lemma unregistered_insert d d' size :
  registeredOnce d ->
  heap d' = <[freshBlock d := size]> (heap d) ->
  loadedLinesMemory d' = loadedLinesMemory d ->
  createdLinesMemory d' = createdLinesMemory d ->
  registeredOnce d'
  /\ unregistered d' = {[freshBlock d]} ∪ unregistered d
  /\ freshBlock d ∉ unregistered d.
Proof.
  intros (Hnodup & Hheld & Hdisj) Hheap Hload Hcre.
  pose proof (freshBlock_fresh d) as Hfresh.
  assert (Hdom : freshBlock d ∉ dom (heap d))
    by (apply not_elem_of_dom; exact Hfresh).
  assert (Hreg : freshBlock d ∉ (list_to_set (loadedLinesMemory d)
                                 ∪ createdLinesMemory d : gset nat)).
  { rewrite elem_of_union, elem_of_list_to_set. intros [H|H].
    - assert (Hs : is_Some (heap d !! freshBlock d))
        by (apply Hheld; left; apply list_elem_of_In; exact H).
      rewrite Hfresh in Hs. destruct Hs; discriminate.
    - assert (Hs : is_Some (heap d !! freshBlock d))
        by (apply Hheld; right; exact H).
      rewrite Hfresh in Hs. destruct Hs; discriminate. }
  split; [|split].
  - unfold registeredOnce, registered. rewrite Hheap, Hload, Hcre.
    split; [exact Hnodup|]. split; [|exact Hdisj].
    intros blk H. destruct (Nat.eq_dec (freshBlock d) blk) as [<-|Hne].
    + rewrite lookup_insert_eq. eauto.
    + rewrite lookup_insert_ne by exact Hne. apply Hheld. exact H.
  - unfold unregistered. rewrite Hheap, Hload, Hcre, dom_insert_L. set_solver.
  - unfold unregistered. set_solver.
Qed.

Lemma isMalformedRecord_pendingRecord b p :
  isMalformedRecord (pendingRecord b p) = lineIsMalformed p.
Proof.
  unfold pendingRecord. destruct (lineIsMalformed p); [reflexivity|].
  destruct (equalsSignFound p); [reflexivity|].
  destruct (sectionFound p); reflexivity.
Qed.

(** What the parser keeps true of the blocks: the lists know blocks that
    are held, each once; the blocks they do not know are as many as the
    Malformed lines stored, each of the size of a [Line]. *)
Lemma submitLine_leaks b p :
  registeredOnce (target p)
  /\ size (unregistered (target p)) = malformedLines (target p)
  /\ (forall block, block ∈ unregistered (target p) ->
        heap (target p) !! block = Some (sizeOf LineLayout)) ->
  registeredOnce (target (submitLine b p))
  /\ size (unregistered (target (submitLine b p)))
     = malformedLines (target (submitLine b p))
  /\ (forall block, block ∈ unregistered (target (submitLine b p)) ->
        heap (target (submitLine b p)) !! block = Some (sizeOf LineLayout)).
Proof.
  intros (Hreg & Hsize & Hblocks).
  destruct (submitLine_memory b p) as (Hrec & Hheap & Hload & Hcre & _).
  destruct (allocateChunked_registered
              (layoutOf (kindOf (pendingRecord b p)))
              (Length (lineOf (pendingRecord b p))) p Hreg)
    as (Hreg' & Hun & Hkeep & Hrec').
  set (a := allocateChunked (layoutOf (kindOf (pendingRecord b p)))
              (Length (lineOf (pendingRecord b p))) p) in *.
  assert (Hcount : malformedLines (target (submitLine b p))
                   = (malformedLines (target p)
                      + (if lineIsMalformed p then 1 else 0))%nat).
  { unfold malformedLines, storedLines. rewrite Hrec, Hrec', map_app.
    rewrite List.filter_app, length_app. simpl.
    rewrite isMalformedRecord_pendingRecord.
    destruct (lineIsMalformed p); reflexivity. }
  assert (Hblocks' : forall block, block ∈ unregistered (target (snd a)) ->
            heap (target (snd a)) !! block = Some (sizeOf LineLayout)).
  { intros block Hb. apply Hkeep. apply Hblocks. rewrite <- Hun. exact Hb. }
  rewrite Hcount.
  destruct (lineIsMalformed p).
  - destruct (unregistered_insert (target (snd a)) (target (submitLine b p))
                (sizeOf LineLayout) Hreg' Hheap Hload Hcre)
      as (Hreg2 & Hun2 & Hnew).
    split; [exact Hreg2|]. split.
    + rewrite Hun2, size_union by set_solver.
      rewrite size_singleton, Hun, Hsize. lia.
    + intros block Hb. rewrite Hun2 in Hb. rewrite Hheap.
      apply elem_of_union in Hb. destruct Hb as [Hb|Hb].
      * apply elem_of_singleton in Hb. subst block. apply lookup_insert_eq.
      * rewrite lookup_insert_ne; [apply Hblocks'; exact Hb|].
        intros <-. apply Hnew. exact Hb.
  - assert (Hun2 : unregistered (target (submitLine b p))
                   = unregistered (target (snd a)))
      by (unfold unregistered; rewrite Hheap, Hload, Hcre; reflexivity).
    split; [|split].
    + destruct Hreg' as (R1 & R2 & R3).
      unfold registeredOnce, registered. rewrite Hheap, Hload, Hcre.
      split; [exact R1|]. split; [exact R2|exact R3].
    + rewrite Hun2, Hun, Hsize. lia.
    + intros block Hb. rewrite Hun2 in Hb. rewrite Hheap.
      apply Hblocks'. exact Hb.
Qed.

(** X10. The blocks [ParseInto] obtains through [allocateChunked] are
    entered in the memory lists of the document, each once: the lists of a
    new document that has been parsed into hold only blocks that are
    allocated, no chunk twice and no block in both. The blocks left out of
    the lists are the [new Line()] of [submitLine]: there is one for each
    Malformed line stored, of the size of a [Line], and nothing that goes
    through the lists can free it. *)
Theorem malformed_lines_leave_blocks_unregistered b :
  exists p,
    ParseInto b emptyDocument = Some p
    /\ registeredOnce (target p)
    /\ size (unregistered (target p)) = malformedLines (target p)
    /\ (forall block, block ∈ unregistered (target p) ->
          heap (target p) !! block = Some (sizeOf LineLayout)).
Proof.
  rewrite ParseInto_run. eexists. split; [reflexivity|].
  pose proof (run_invariant b
                (fun _ p =>
                   registeredOnce (target p)
                   /\ size (unregistered (target p)) = malformedLines (target p)
                   /\ (forall block, block ∈ unregistered (target p) ->
                         heap (target p) !! block = Some (sizeOf LineLayout))))
    as Hrun.
  match type of Hrun with
  | _ -> forall l mode p, _ -> ?P mode p -> _ =>
      assert (Hend : P (fst (run b b MMain (start emptyDocument)))
                       (snd (run b b MMain (start emptyDocument))))
  end.
  { apply Hrun; [|reflexivity|].
    - intros c mode p Hp Hc. destruct (classify c) eqn:Hk.
      1:{ rewrite step_newline. cbn [snd]. apply submitLine_leaks.
          destruct (beforeSubmit_memory mode p) as (-> & _). exact Hp. }
      all: assert (Hne : classify c <> CNewline) by (rewrite Hk; discriminate).
      all: rewrite <- Hk.
      all: destruct (step_other_memory b (classify c) mode p Hne) as (-> & _).
      all: exact Hp.
    - unfold registeredOnce, registered, unregistered, malformedLines. simpl.
      split; [split; [constructor|split]|split].
      + intros blk [[]|H]. apply elem_of_empty in H. destruct H.
      + intros blk [].
      + rewrite dom_empty_L. reflexivity.
      + intros block H. rewrite dom_empty_L in H. set_solver. }
  cbv beta in Hend.
  unfold finish. destruct (_ <? _)%nat; [|exact Hend].
  apply submitLine_leaks. exact Hend.
Qed.

End MemoryFacts.

(** ** The estimate from above *)

Module EstimateBoundFacts.
Import MemoryEstimator ScanInvariant ArenaFacts EstimatorFacts.

(** X11. The estimate is never more than the bytes of the file and 71
    bytes for each line the estimator has ended, the largest record with
    its padding, and the estimator ends at most one line more than the file
    has bytes: a file of [n] bytes is estimated at [72 * n + 71] bytes at
    most. The file is one whose estimate fits a [std::size_t]. *)
Theorem estimate_upper_bound (b : list byte) :
  72 * (Z.of_nat (length b) + 1) < 2 ^ 64 ->
  exists m,
    estimate b = Some m
    /\ estimateRequiredMemory b = Some (ByteCount m)
    /\ ByteCount m
       <= Z.of_nat (length b) + 71 * Z.of_nat (length (endedLines m))
    /\ (length (endedLines m) <= length b + 1)%nat
    /\ ByteCount m <= 72 * Z.of_nat (length b) + 71.
Proof.
  intros HN.
  destruct (scan_split b [] b HN eq_refl) as (_ & s & _ & _ & Es & Hok & _).
  assert (H : exists m,
             estimate b = Some m
             /\ ByteCount m
                <= Z.of_nat (length b) + 71 * Z.of_nat (length (endedLines m))
             /\ (length (endedLines m) <= length b + 1)%nat).
  { rewrite estimate_unfold, Es.
    destruct Hok as (ls & Hls & Hle & Hnl & Hcount & Hsum & Hbc).
    destruct (previousWasNewLine s) eqn:Hp.
    - exists (memoryEstimate s). specialize (Hnl eq_refl). subst ls.
      repeat split; auto; lia.
    - destruct (EndLine_adds (length b) (memoryEstimate s) ls Hls ltac:(lia)
                  ltac:(lia) ltac:(lia)) as (m & He & _ & Hended & Hb & _).
      exists m. rewrite He, Hended, length_app. simpl.
      repeat split; auto; lia. }
  destruct H as (m & Em & Hup & Hcount).
  exists m. unfold estimateRequiredMemory. rewrite Em.
  repeat split; auto; lia.
Qed.

Lemma estimate_upper_bound_witness :
  72 * (Z.of_nat (length (bytes "[A][B]" ++ [newline] ++ bytes "x")) + 1) < 2 ^ 64
  /\ exists m,
      estimate (bytes "[A][B]" ++ [newline] ++ bytes "x") = Some m
      /\ estimateRequiredMemory (bytes "[A][B]" ++ [newline] ++ bytes "x")
         = Some (ByteCount m)
      /\ ByteCount m
         <= Z.of_nat (length (bytes "[A][B]" ++ [newline] ++ bytes "x"))
            + 71 * Z.of_nat (length (endedLines m))
      /\ (length (endedLines m)
          <= length (bytes "[A][B]" ++ [newline] ++ bytes "x") + 1)%nat
      /\ ByteCount m
         <= 72 * Z.of_nat (length (bytes "[A][B]" ++ [newline] ++ bytes "x")) + 71.
Proof.
  assert (H : 72 * (Z.of_nat (length (bytes "[A][B]" ++ [newline] ++ bytes "x")) + 1)
              < 2 ^ 64) by (vm_compute; reflexivity).
  split; [exact H|].
  exact (estimate_upper_bound _ H).
Defined.

End EstimateBoundFacts.

(** ** The memory of a document *)

Module DocumentFacts.
Import Document.

Lemma fresh_not_held (d : t) : heap d !! fresh (dom (heap d)) = None.
Proof. apply not_elem_of_dom. apply is_fresh. Qed.

Lemma tracked_initial : tracked initial.
Proof.
  unfold tracked. simpl. split; [|split].
  - intros m. rewrite lookup_empty. split.
    + intros [x Hx]. discriminate.
    + intros [H|H]; [discriminate|]. apply elem_of_empty in H. destruct H.
  - intros m H. discriminate.
  - intros m. rewrite lookup_empty. intros [x Hx]. discriminate.
Qed.

Lemma tracked_allocateLine T c n d :
  tracked d -> tracked (snd (allocateLine T c n d)).
Proof.
  intros (Hdom & Hdisj & Hlines).
  pose proof (fresh_not_held d) as Hfresh.
  unfold tracked, allocateLine. simpl. split; [|split].
  - intros m. rewrite elem_of_union, elem_of_singleton.
    destruct (Nat.eq_dec (fresh (dom (heap d))) m) as [<-|Hne].
    + rewrite lookup_insert_eq. split; [auto|eauto].
    + rewrite lookup_insert_ne by exact Hne. rewrite Hdom.
      split; [tauto|]. intros [H|[H|H]]; auto. congruence.
  - intros m Hm. rewrite elem_of_union, elem_of_singleton.
    intros [->|H]; [|apply (Hdisj m Hm H)].
    assert (Hs : is_Some (heap d !! fresh (dom (heap d))))
      by (apply Hdom; left; exact Hm).
    rewrite Hfresh in Hs. destruct Hs; discriminate.
  - intros m. rewrite elem_of_union, elem_of_singleton.
    destruct (Nat.eq_dec (fresh (dom (heap d))) m) as [<-|Hne]; [auto|].
    rewrite lookup_insert_ne by exact Hne. intros H. right. apply Hlines. exact H.
Qed.

Lemma tracked_freeLine m d d' :
  tracked d -> m ∈ createdLinesMemory d -> freeLine m d = Some d' -> tracked d'.
Proof.
  intros (Hdom & Hdisj & Hlines) Hm. unfold freeLine, deleteBlock.
  destruct (heap d !! m) eqn:E; [|discriminate]. intros H. injection H as <-.
  unfold tracked. simpl. split; [|split].
  - intros k. rewrite elem_of_difference, elem_of_singleton.
    destruct (Nat.eq_dec m k) as [<-|Hne].
    + rewrite lookup_delete_eq. split.
      * intros [x Hx]. discriminate.
      * intros [H|[_ H]]; [|congruence]. exfalso. apply (Hdisj m H Hm).
    + rewrite lookup_delete_ne by exact Hne. rewrite Hdom.
      split; [|tauto]. intros [H|H]; auto.
  - intros k Hk. rewrite elem_of_difference. intros [H _]. apply (Hdisj k Hk H).
  - intros k. rewrite elem_of_difference, elem_of_singleton.
    destruct (Nat.eq_dec m k) as [<-|Hne].
    + rewrite lookup_delete_eq. intros [x Hx]. discriminate.
    + rewrite lookup_delete_ne by exact Hne. intros H.
      split; [apply Hlines; exact H|congruence].
Qed.

Lemma tracked_create : tracked create.
Proof.
  pose proof (tracked_allocateLine LineLayout [newline] 1 initial tracked_initial)
    as (Hdom & Hdisj & Hlines).
  unfold create. destruct (allocateLine LineLayout [newline] 1 initial) as [l d] eqn:E.
  simpl in *. unfold tracked. simpl. split; [exact Hdom|]. split; [exact Hdisj|].
  intros m. destruct (lines d !! l) eqn:El; [|apply Hlines].
  destruct (Nat.eq_dec l m) as [<-|Hne].
  - intros _. apply Hlines. rewrite El. eauto.
  - rewrite lookup_insert_ne by exact Hne. apply Hlines.
Qed.

Lemma tracked_createFrom b d : createFrom b = Some d -> tracked d.
Proof.
  unfold createFrom. destruct (estimateRequiredMemory b); [|discriminate].
  intros H. injection H as <-. unfold tracked. simpl. split; [|split].
  - intros m. destruct (Nat.eq_dec (fresh (dom (∅ : gmap nat Z))) m) as [<-|Hne].
    + rewrite lookup_insert_eq. split; [auto|eauto].
    + rewrite lookup_insert_ne, lookup_empty by exact Hne. split.
      * intros [x Hx]. discriminate.
      * intros [H|H]; [congruence|]. apply elem_of_empty in H. destruct H.
  - intros m _ H. apply elem_of_empty in H. destruct H.
  - intros m. rewrite lookup_empty. intros [x Hx]. discriminate.
Qed.

Lemma reachable_tracked d : reachable d -> tracked d.
Proof.
  induction 1 as [|b d Hd|T c n d _ IH|m d d' _ IH Hm Hf].
  - apply tracked_create.
  - eapply tracked_createFrom. exact Hd.
  - apply tracked_allocateLine. exact IH.
  - eapply tracked_freeLine; eassumption.
Qed.

(** Deleting, one by one, blocks that are held and differ from one another
    leaves the blocks that are not among them. *)
Lemma delete_all (l : list nat) : forall (h : gmap nat Z),
  NoDup l -> (forall m, m ∈ l -> is_Some (h !! m)) ->
  exists h',
    fold_right
      (fun memory h => match h with
                       | Some h => deleteBlock memory h
                       | None => None
                       end) (Some h) l = Some h'
    /\ forall m, h' !! m = if decide (m ∈ l) then None else h !! m.
Proof.
  induction l as [|x l IH]; intros h Hnd Hheld.
  - exists h. split; [reflexivity|]. intros m.
    destruct (decide (m ∈ [])) as [H|_]; [|reflexivity].
    apply elem_of_nil in H. destruct H.
  - apply NoDup_cons in Hnd. destruct Hnd as (Hx & Hnd).
    destruct (IH h Hnd) as (h' & Hfold & Hh').
    { intros m Hm. apply Hheld. apply elem_of_cons. right. exact Hm. }
    simpl. rewrite Hfold. unfold deleteBlock.
    assert (Hhx : h' !! x = h !! x).
    { rewrite Hh'. destruct (decide (x ∈ l)) as [Hin|_]; [|reflexivity].
      contradiction. }
    destruct (Hheld x ltac:(apply elem_of_cons; left; reflexivity)) as (sz & Hsz).
    rewrite Hhx, Hsz. eexists. split; [reflexivity|].
    intros m. destruct (Nat.eq_dec x m) as [<-|Hne].
    + rewrite lookup_delete_eq.
      destruct (decide (x ∈ x :: l)) as [_|Hn]; [reflexivity|].
      exfalso. apply Hn. apply elem_of_cons. left. reflexivity.
    + rewrite lookup_delete_ne by exact Hne. rewrite Hh'.
      destruct (decide (m ∈ l)) as [Hin|Hnin];
        destruct (decide (m ∈ x :: l)) as [Hin'|Hnin']; try reflexivity.
      * exfalso. apply Hnin'. apply elem_of_cons. right. exact Hin.
      * exfalso. apply elem_of_cons in Hin'.
        destruct Hin' as [Heq|Hin']; [congruence|contradiction].
Qed.

(** X12. The destructor frees every block the document holds, each once:
    for a document made by a constructor, by [allocateLine] and by
    [freeLine] of lines that [allocateLine] has made, [~IniDocumentModel]
    deletes no block twice and none it does not hold, and no block is left
    behind. *)
Theorem destroy_frees_every_block d :
  reachable d -> destroy d = Some ∅.
Proof.
  intros Hr. destruct (reachable_tracked d Hr) as (Hdom & Hdisj & _).
  unfold destroy.
  assert (Hloaded : exists h1,
             match loadedLinesMemory d with
             | Some memory => deleteBlock memory (heap d)
             | None => Some (heap d)
             end = Some h1
             /\ forall m, h1 !! m = if decide (loadedLinesMemory d = Some m)
                                    then None else heap d !! m).
  { destruct (loadedLinesMemory d) as [l|] eqn:El.
    - destruct (proj2 (Hdom l) (or_introl eq_refl)) as (sz & Hsz).
      unfold deleteBlock. rewrite Hsz. eexists. split; [reflexivity|].
      intros m. destruct (decide (Some l = Some m)) as [Heq|Hne].
      + injection Heq as <-. apply lookup_delete_eq.
      + apply lookup_delete_ne. congruence.
    - eexists. split; [reflexivity|]. intros m.
      destruct (decide (None = Some m)); [discriminate|reflexivity]. }
  destruct Hloaded as (h1 & -> & Hh1).
  destruct (delete_all (elements (createdLinesMemory d)) h1) as (h' & -> & Hh').
  - apply NoDup_elements.
  - intros m Hm. apply elem_of_elements in Hm.
    rewrite Hh1. destruct (decide (loadedLinesMemory d = Some m)) as [Hl|_].
    + exfalso. apply (Hdisj m Hl Hm).
    + apply Hdom. right. exact Hm.
  - f_equal. apply map_eq. intros m. rewrite Hh', lookup_empty.
    destruct (decide (m ∈ elements (createdLinesMemory d))) as [_|Hn];
      [reflexivity|].
    rewrite Hh1. destruct (decide (loadedLinesMemory d = Some m)) as [_|Hl];
      [reflexivity|].
    destruct (heap d !! m) eqn:E; [|reflexivity]. exfalso.
    destruct (proj1 (Hdom m) ltac:(rewrite E; eauto)) as [H|H]; [contradiction|].
    apply Hn. apply elem_of_elements. exact H.
Qed.

Lemma destroy_frees_every_block_witness :
  reachable (snd (allocateLine PropertyLineLayout (bytes "a = 1") 5 create))
  /\ destroy (snd (allocateLine PropertyLineLayout (bytes "a = 1") 5 create))
     = Some ∅.
Proof.
  assert (H : reachable
                (snd (allocateLine PropertyLineLayout (bytes "a = 1") 5 create)))
    by (apply reach_allocateLine; apply reach_create).
  split; [exact H|].
  exact (destroy_frees_every_block _ H).
Defined.

(** X13. Freeing the line [allocateLine] has just made gives back the
    document as it was: the blocks held, the line objects and
    [createdLinesMemory] are those before the allocation. *)
Theorem freeLine_allocateLine TLine contents length d :
  reachable d ->
  freeLine (fst (allocateLine TLine contents length d))
    (snd (allocateLine TLine contents length d))
  = Some d.
Proof.
  intros Hr. destruct (reachable_tracked d Hr) as (Hdom & Hdisj & Hlines).
  pose proof (fresh_not_held d) as Hfresh.
  assert (Hnew : fresh (dom (heap d)) ∉ createdLinesMemory d).
  { intros H. assert (Hs : is_Some (heap d !! fresh (dom (heap d))))
      by (apply Hdom; right; exact H).
    rewrite Hfresh in Hs. destruct Hs; discriminate. }
  assert (Hnol : lines d !! fresh (dom (heap d)) = None).
  { destruct (lines d !! fresh (dom (heap d))) eqn:E; [|reflexivity].
    exfalso. apply Hnew. apply Hlines. rewrite E. eauto. }
  unfold freeLine, allocateLine, deleteBlock. simpl.
  rewrite lookup_insert_eq. f_equal.
  destruct d as [h ls lm cm fl se sp el]. simpl in *. f_equal.
  - apply delete_insert_id. exact Hfresh.
  - apply delete_insert_id. exact Hnol.
  - apply set_eq. intros x.
    rewrite elem_of_difference, elem_of_union, !elem_of_singleton.
    split; [intros [[->|H] Hne]; [congruence|exact H]|].
    intros H. split; [right; exact H|]. intros ->. contradiction.
Qed.

Lemma freeLine_allocateLine_witness :
  reachable create
  /\ freeLine (fst (allocateLine SectionLineLayout (bytes "[a]") 3 create))
       (snd (allocateLine SectionLineLayout (bytes "[a]") 3 create))
     = Some create.
Proof.
  split; [exact reach_create|].
  exact (freeLine_allocateLine SectionLineLayout (bytes "[a]") 3 create reach_create).
Defined.

End DocumentFacts.

(** ** The lines [parseFileContents] adds *)

Module BuilderFacts.
Import ModelBuilder PhysicalLines FlatFacts LineFacts.

Opaque FileParser.copy_n.

(** What the loop of [parseFileContents] keeps true when it has read
    [pos] bytes of [b]: no section end and no equals sign is ever recorded,
    the calls of [addLine] so far are the physical lines before the line
    under way, and that line holds no line break. *)
Lemma scanByte_cut b pos c (s : Scan) (ls : nat) :
  nth_error b pos = Some c ->
  (lineStartPosition (modelBuilder s) = Some ls
   /\ (ls <= pos)%nat
   /\ sectionEndPosition (modelBuilder s) = None
   /\ equalsSignPosition (modelBuilder s) = None
   /\ isMalformedLine (modelBuilder s) = false
   /\ map (addedBytes b) (addLineCalls (modelBuilder s))
      = physicalLines (FileParser.copy_n b 0 ls)
   /\ Forall (fun a => addedKind a = KPlain) (addLineCalls (modelBuilder s))
   /\ (ls = O \/ nth_error b (ls - 1) = Some newline)
   /\ (forall i, (ls <= i < pos)%nat -> nth_error b i <> Some newline)
   /\ (previousWasNewLine s = true -> ls = pos /\ (0 < pos)%nat)
   /\ (previousWasNewLine s = false -> pos = O \/ (ls < pos)%nat)) ->
  exists ls',
    let s' := scanByte pos c s in
    lineStartPosition (modelBuilder s') = Some ls'
    /\ (ls' <= S pos)%nat
    /\ sectionEndPosition (modelBuilder s') = None
    /\ equalsSignPosition (modelBuilder s') = None
    /\ isMalformedLine (modelBuilder s') = false
    /\ map (addedBytes b) (addLineCalls (modelBuilder s'))
       = physicalLines (FileParser.copy_n b 0 ls')
    /\ Forall (fun a => addedKind a = KPlain) (addLineCalls (modelBuilder s'))
    /\ (ls' = O \/ nth_error b (ls' - 1) = Some newline)
    /\ (forall i, (ls' <= i < S pos)%nat -> nth_error b i <> Some newline)
    /\ (previousWasNewLine s' = true -> ls' = S pos /\ (0 < S pos)%nat)
    /\ (previousWasNewLine s' = false -> S pos = O \/ (ls' < S pos)%nat).
Proof.
  intros Hc (Hls & Hle & Hse & Heq & Hmal & Hcut & Hkind & Hstart & Hno & Hp1 & Hp2).
  cbv zeta. pattern (scanByte pos c s).
  match goal with |- ?P _ => set (Q := P) end.
  assert (Hother : forall s',
            modelBuilder s' = modelBuilder s \/
            modelBuilder s' = BeginSection pos (modelBuilder s) ->
            previousWasNewLine s' = false ->
            Byte.eqb c newline = false -> Q s').
  { intros s' Hm Hpw Enl. exists ls.
    assert (Hsame : lineStartPosition (modelBuilder s') = Some ls
                    /\ sectionEndPosition (modelBuilder s') = None
                    /\ equalsSignPosition (modelBuilder s') = None
                    /\ isMalformedLine (modelBuilder s') = false
                    /\ addLineCalls (modelBuilder s')
                       = addLineCalls (modelBuilder s)).
    { destruct Hm as [-> | ->]; [auto|].
      unfold BeginSection. rewrite Hse. simpl. auto. }
    destruct Hsame as (E1 & E2 & E3 & E4 & E5). rewrite E1, E2, E3, E4, E5, Hpw.
    repeat split; auto; try lia; try discriminate.
    intros i Hi. destruct (Nat.eq_dec i pos) as [->|Hne]; [|apply Hno; lia].
    rewrite Hc. intros H. injection H as ->. discriminate Enl. }
  unfold scanByte.
  destruct (Byte.eqb c newline) eqn:Enl.
  - apply byte_dec_bl in Enl. subst c. exists (S pos).
    unfold EndLine. rewrite Hmal, Heq, Hse. simpl. rewrite Hls.
    repeat split; auto; try lia.
    + rewrite map_app, Hcut. cbn [map]. unfold addedBytes. simpl.
      replace (S pos) with (ls + S (pos - ls))%nat at 2 by lia.
      rewrite <- (copy_n_app b 0), Nat.add_0_l.
      rewrite physicalLines_app.
      * f_equal. replace (S pos - ls)%nat with (S (pos - ls)) by lia.
        rewrite copy_n_snoc.
        replace (ls + (pos - ls))%nat with pos by lia.
        rewrite Hc. symmetry. apply physicalLines_line.
        apply copy_n_no_break. intros i Hi. apply Hno. lia.
      * destruct Hstart as [H0|Hnl]; [rewrite H0; reflexivity|].
        destruct ls as [|k]; [reflexivity|].
        rewrite copy_n_last by lia. exact Hnl.
    + apply Forall_app. split; [exact Hkind|]. constructor; [reflexivity|constructor].
    + right. rewrite Nat.sub_0_r. exact Hc.
  - destruct (isInsideQuote s); [apply Hother; auto|].
    destruct (encounteredComment s); cbn [negb]; [apply Hother; auto|].
    repeat match goal with
           | |- context [if ?x then _ else _] => destruct x
           end; apply Hother; auto.
Qed.

Lemma scan_cut b : forall rest pos (s : Scan) (ls : nat),
  skipn pos b = rest ->
  (lineStartPosition (modelBuilder s) = Some ls
   /\ (ls <= pos)%nat
   /\ sectionEndPosition (modelBuilder s) = None
   /\ equalsSignPosition (modelBuilder s) = None
   /\ isMalformedLine (modelBuilder s) = false
   /\ map (addedBytes b) (addLineCalls (modelBuilder s))
      = physicalLines (FileParser.copy_n b 0 ls)
   /\ Forall (fun a => addedKind a = KPlain) (addLineCalls (modelBuilder s))
   /\ (ls = O \/ nth_error b (ls - 1) = Some newline)
   /\ (forall i, (ls <= i < pos)%nat -> nth_error b i <> Some newline)
   /\ (previousWasNewLine s = true -> ls = pos /\ (0 < pos)%nat)
   /\ (previousWasNewLine s = false -> pos = O \/ (ls < pos)%nat)) ->
  exists ls',
    let s' := scan rest pos s in
    let pos' := (pos + length rest)%nat in
    lineStartPosition (modelBuilder s') = Some ls'
    /\ (ls' <= pos')%nat
    /\ sectionEndPosition (modelBuilder s') = None
    /\ equalsSignPosition (modelBuilder s') = None
    /\ isMalformedLine (modelBuilder s') = false
    /\ map (addedBytes b) (addLineCalls (modelBuilder s'))
       = physicalLines (FileParser.copy_n b 0 ls')
    /\ Forall (fun a => addedKind a = KPlain) (addLineCalls (modelBuilder s'))
    /\ (ls' = O \/ nth_error b (ls' - 1) = Some newline)
    /\ (forall i, (ls' <= i < pos')%nat -> nth_error b i <> Some newline)
    /\ (previousWasNewLine s' = true -> ls' = pos' /\ (0 < pos')%nat)
    /\ (previousWasNewLine s' = false -> pos' = O \/ (ls' < pos')%nat).
Proof.
  induction rest as [|c rest IH]; intros pos s ls Hrest H.
  - exists ls. simpl. rewrite Nat.add_0_r. exact H.
  - assert (Hc : nth_error b pos = Some c).
    { rewrite <- (firstn_skipn pos b) at 1.
      assert (Hlen : (pos <= length b)%nat).
      { destruct (Nat.le_gt_cases pos (length b)) as [Hl|Hl]; auto.
        rewrite skipn_all2 in Hrest by lia. discriminate. }
      rewrite nth_error_app2 by (rewrite length_firstn; lia).
      rewrite length_firstn, Nat.min_l, Nat.sub_diag, Hrest by lia.
      reflexivity. }
    destruct (scanByte_cut b pos c s ls Hc H) as (ls1 & H1).
    destruct (IH (S pos) (scanByte pos c s) ls1
                ltac:(eapply skipn_cons_S; exact Hrest) H1) as (ls' & H').
    exists ls'. simpl in *.
    replace (pos + S (length rest))%nat with (S (pos + length rest)) by lia.
    exact H'.
Qed.

(** X14. [parseFileContents] asks for one plain [Line] for each physical
    line of the file and for nothing else: no call of [addLine] is for a
    [SectionLine] or a [PropertyLine], whatever the file holds, and the
    bytes between the two pointers of the calls, in order, are the pieces of
    the file cut behind every line break. For the empty file there is one
    call, for an empty line. *)
Theorem parseFileContents_adds_plain_lines b allocatedByteCount :
  let calls := addLineCalls (parseFileContents b allocatedByteCount) in
  Forall (fun a => addedKind a = KPlain) calls
  /\ map (addedBytes b) calls
     = match b with
       | [] => [[]]
       | _ => physicalLines (map Some b)
       end.
Proof.
  simpl. unfold parseFileContents.
  destruct (scan_cut b b 0
              {| previousWasNewLine := false; isInsideQuote := false;
                 encounteredComment := false;
                 modelBuilder := BeginLine 0 (create allocatedByteCount) |}
              0 eq_refl) as (ls & H).
  { simpl. repeat split; auto; try lia; try discriminate; constructor. }
  simpl in H.
  destruct H as (Hls & Hle & Hse & Heq & Hmal & Hcut & Hkind & Hstart & Hno
                 & Hp1 & Hp2).
  set (s := scan b 0 _) in *.
  destruct (previousWasNewLine s) eqn:Hp.
  - destruct (Hp1 eq_refl) as (-> & Hpos).
    split; [exact Hkind|]. rewrite Hcut, copy_n_all.
    destruct b; [simpl in Hpos; lia|reflexivity].
  - unfold EndLine. rewrite Hmal, Heq, Hse. simpl. rewrite Hls.
    split.
    + apply Forall_app. split; [exact Hkind|].
      constructor; [reflexivity|constructor].
    + rewrite map_app, Hcut. cbn [map]. unfold addedBytes. simpl.
      destruct (Hp2 eq_refl) as [H0|Hlt].
      * destruct b; [|discriminate H0]. assert (ls = O) by (simpl in Hle; lia).
        subst ls. reflexivity.
      * assert (Hb : b <> []) by (intros ->; simpl in Hlt; lia).
        replace (match b with [] => [[]] | _ :: _ => physicalLines (map Some b) end)
          with (physicalLines (map Some b)) by (destruct b; congruence).
        rewrite <- copy_n_all.
        replace (length b) with (ls + (length b - ls))%nat at 2 by lia.
        rewrite <- (copy_n_app b 0), Nat.add_0_l.
        rewrite physicalLines_app.
        -- f_equal. symmetry. apply physicalLines_rest.
           ++ intros H0. apply (f_equal (@length _)) in H0.
              rewrite copy_n_length in H0. simpl in H0. lia.
           ++ apply copy_n_no_break. intros i Hi. apply Hno. lia.
        -- destruct Hstart as [H0|Hnl]; [rewrite H0; reflexivity|].
           destruct ls as [|k]; [reflexivity|].
           rewrite copy_n_last by lia. exact Hnl.
Qed.

Transparent FileParser.copy_n.

End BuilderFacts.

(** ** Parsing one file behind another *)

Module ShiftFacts.
Import FileParser Pending Flat Invariants ParserFacts FlatFacts Shift.
Import Arena ArenaFacts MemoryFacts.

Lemma ptrdiff_shift k a c : ptrdiff (k + a) (k + c) = ptrdiff a c.
Proof. unfold ptrdiff. f_equal. lia. Qed.

(** A step that reads no line break does to the shifted line state what it
    does to the line state. *)
Lemma step_other_shifted B b k cl mode p q :
  cl <> CNewline ->
  shifted k p q ->
  fst (step B cl mode p) = fst (step b cl mode q)
  /\ shifted k (snd (step B cl mode p)) (snd (step b cl mode q)).
Proof.
  intros Hcl Hs.
  destruct p as [pt pr pc pp pl pns pne pvs pve psf pef pmf].
  destruct q as [qt qr qc qp ql qns qne qvs qve qsf qef qmf].
  unfold shifted, cursor in *. simpl in Hs.
  injection Hs as -> -> -> -> -> -> -> -> ->.
  destruct cl; try congruence; clear Hcl.
  all: destruct mode as [|[] [] []|[] []|]; simpl.
  all: repeat match goal with
         | |- context [isSet (shiftPointer _ ?x)] => is_var x; destruct x; simpl
         | |- context [isSet ?x] => is_var x; destruct x; simpl
         | |- context [if ?x then _ else _] => is_var x; destruct x; simpl
         | |- context [match ?x with _ => _ end] => is_var x; destruct x; simpl
         end.
  all: split; [reflexivity|]; unfold shiftPointer; simpl;
       repeat f_equal; lia.
Qed.

Lemma beforeSubmit_shifted k mode p q :
  shifted k p q -> shifted k (beforeSubmit mode p) (beforeSubmit mode q).
Proof.
  intros Hs.
  destruct p as [pt pr pc pp pl pns pne pvs pve psf pef pmf].
  destruct q as [qt qr qc qp ql qns qne qvs qve qsf qef qmf].
  unfold shifted, cursor in *. simpl in Hs.
  injection Hs as -> -> -> -> -> -> -> -> ->.
  destruct mode as [|[] ? ?|[] ?|]; reflexivity.
Qed.

Lemma copy_n_shift B b k : forall cnt start,
  (forall i, (start <= i < start + cnt)%nat ->
             nth_error B (k + i) = nth_error b i) ->
  copy_n B (k + start) cnt = copy_n b start cnt.
Proof.
  unfold copy_n. induction cnt as [|cnt IH]; intros start Hwin; [reflexivity|].
  simpl. f_equal; [apply Hwin; lia|].
  replace (S (k + start)) with (k + S start)%nat by lia.
  apply IH. intros i Hi. apply Hwin. lia.
Qed.

(** The record a line is stored as is the same wherever the line lies in
    the file. *)
Lemma pendingRecord_shifted B b k p q :
  shifted k p q ->
  (lineStart q <= parsePosition q)%nat ->
  Z.of_nat (S (parsePosition q)) < 2 ^ 64 ->
  (forall i, (lineStart q <= i <= parsePosition q)%nat ->
             nth_error B (k + i) = nth_error b i) ->
  pendingRecord B p = pendingRecord b q.
Proof.
  intros Hs Hle Hfit Hwin.
  destruct p as [pt pr pc pp pl pns pne pvs pve psf pef pmf].
  destruct q as [qt qr qc qp ql qns qne qvs qve qsf qef qmf].
  unfold shifted, cursor in *. simpl in *.
  injection Hs as -> -> -> -> -> -> -> -> ->.
  unfold pendingRecord, pendingLine, pendingName, pendingValue. simpl.
  replace (S (k + qp)) with (k + S qp)%nat by lia.
  rewrite ptrdiff_shift.
  rewrite (ptrdiff_small (S qp) ql) by lia.
  replace (Z.to_nat (Z.of_nat (S qp) - Z.of_nat ql)) with (S qp - ql)%nat by lia.
  rewrite (copy_n_shift B b k) by (intros i Hi; apply Hwin; lia).
  destruct qmf; [reflexivity|].
  destruct qef; [|destruct qsf; [|reflexivity]].
  all: destruct qns, qne, qvs, qve; simpl; rewrite ?ptrdiff_shift; reflexivity.
Qed.

Lemma shifted_fields k p q :
  shifted k p q
  <-> (parsePosition p = (k + parsePosition q)%nat
       /\ lineStart p = (k + lineStart q)%nat
       /\ nameStart p = shiftPointer k (nameStart q)
       /\ nameEnd p = shiftPointer k (nameEnd q)
       /\ valueStart p = shiftPointer k (valueStart q)
       /\ valueEnd p = shiftPointer k (valueEnd q)
       /\ sectionFound p = sectionFound q
       /\ equalsSignFound p = equalsSignFound q
       /\ lineIsMalformed p = lineIsMalformed q).
Proof.
  unfold shifted, cursor. split.
  - intros H. repeat split; congruence.
  - intros (H1 & H2 & H3 & H4 & H5 & H6 & H7 & H8 & H9). congruence.
Qed.

(** One step of the pass on a line lying [k] bytes further into a file:
    the loop gone on in, the line state and the record stored are the
    same. *)
Lemma step_shifted B b k c mode p q :
  shifted k p q ->
  (lineStart q <= parsePosition q)%nat ->
  Z.of_nat (S (parsePosition q)) < 2 ^ 64 ->
  (forall i, (lineStart q <= i <= parsePosition q)%nat ->
             nth_error B (k + i) = nth_error b i) ->
  fst (step B (classify c) mode p) = fst (step b (classify c) mode q)
  /\ shifted k (snd (step B (classify c) mode p)) (snd (step b (classify c) mode q))
  /\ exists added,
      storedLines (target (snd (step B (classify c) mode p)))
      = storedLines (target p) ++ added
      /\ storedLines (target (snd (step b (classify c) mode q)))
         = storedLines (target q) ++ added.
Proof.
  intros Hs Hle Hfit Hwin.
  destruct (classify c) eqn:Hk.
  1:{ rewrite !step_newline. cbn [fst snd].
      pose proof (beforeSubmit_shifted k mode p q Hs) as Hs1.
      destruct (beforeSubmit_frame mode p) as (_ & _ & Ep).
      destruct (beforeSubmit_frame mode q) as (Eq1 & Eq2 & Eq).
      destruct (submitLine_spec B (beforeSubmit mode p)) as (Hcp & Hsp & _).
      destruct (submitLine_spec b (beforeSubmit mode q)) as (Hcq & Hsq & _).
      split; [reflexivity|]. split.
      - apply shifted_fields in Hs1. destruct Hs1 as (Hpp & _).
        destruct (submitLine_fields B (beforeSubmit mode p))
          as (P1 & P2 & P3 & P4 & P5 & P6 & P7 & P8 & P9).
        destruct (submitLine_fields b (beforeSubmit mode q))
          as (Q1 & Q2 & Q3 & Q4 & Q5 & Q6 & Q7 & Q8 & Q9).
        apply shifted_fields.
        rewrite P1, P2, P3, P4, P5, P6, P7, P8, P9, Q1, Q2, Q3, Q4, Q5, Q6, Q7,
          Q8, Q9, Hpp.
        unfold shiftPointer. simpl. repeat split; lia.
      - exists [pendingRecord b (beforeSubmit mode q)].
        rewrite Hsp, Hsq, Ep, Eq. split; [|reflexivity]. f_equal. f_equal.
        apply (pendingRecord_shifted B b k); [exact Hs1|rewrite ?Eq1, ?Eq2..].
        + exact Hle.
        + exact Hfit.
        + exact Hwin. }
  all: assert (Hne : classify c <> CNewline) by (rewrite Hk; discriminate).
  all: rewrite <- Hk.
  all: destruct (step_other_shifted B b k (classify c) mode p q Hne Hs) as (Hm & Hs').
  all: destruct (step_other B (classify c) mode p Hne) as (_ & Etp).
  all: destruct (step_other b (classify c) mode q Hne) as (_ & Etq).
  all: split; [exact Hm|]; split; [exact Hs'|].
  all: exists []; rewrite Etp, Etq, !app_nil_r; split; reflexivity.
Qed.

Lemma step_le b cl mode p :
  (lineStart p <= parsePosition p)%nat ->
  (lineStart (snd (step b cl mode p)) <= parsePosition (snd (step b cl mode p)))%nat.
Proof.
  intros Hle. pose proof (step_pos b cl mode p) as Hpos.
  destruct cl.
  1:{ rewrite step_newline in *. cbn [snd] in *.
      destruct (submitLine_fields b (beforeSubmit mode p)) as (F1 & F2 & _).
      lia. }
  all: match goal with
       | |- context [step ?b' ?cl ?m' ?p'] =>
           destruct (step_other b' cl m' p' ltac:(discriminate)) as (Hls & _)
       end; lia.
Qed.

Lemma run_app b : forall l1 l2 mode p,
  run b (l1 ++ l2) mode p
  = run b l2 (fst (run b l1 mode p)) (snd (run b l1 mode p)).
Proof.
  induction l1 as [|c l1 IH]; intros l2 mode p; [reflexivity|].
  simpl. destruct (step b (classify c) mode p) as [m1 p1]. apply IH.
Qed.

(** The pass over the same bytes at two places: the loops gone through,
    the line states and the records stored are the same. *)
Lemma run_shifted B b k : forall rest mode p q,
  shifted k p q ->
  (lineStart q <= parsePosition q)%nat ->
  Z.of_nat (parsePosition q + length rest) < 2 ^ 64 ->
  (forall i, (i < parsePosition q + length rest)%nat ->
             nth_error B (k + i) = nth_error b i) ->
  fst (run B rest mode p) = fst (run b rest mode q)
  /\ shifted k (snd (run B rest mode p)) (snd (run b rest mode q))
  /\ (lineStart (snd (run b rest mode q))
      <= parsePosition (snd (run b rest mode q)))%nat
  /\ exists added,
      storedLines (target (snd (run B rest mode p)))
      = storedLines (target p) ++ added
      /\ storedLines (target (snd (run b rest mode q)))
         = storedLines (target q) ++ added.
Proof.
  induction rest as [|c rest IH]; intros mode p q Hs Hle Hfit Hwin.
  - simpl. split; [reflexivity|]. split; [exact Hs|]. split; [exact Hle|].
    exists []. rewrite !app_nil_r. split; reflexivity.
  - simpl in Hfit, Hwin.
    destruct (step_shifted B b k c mode p q Hs Hle ltac:(lia)
                ltac:(intros i Hi; apply Hwin; lia))
      as (Hm & Hs1 & added1 & Hp1 & Hq1).
    pose proof (step_le b (classify c) mode q Hle) as Hle1.
    pose proof (step_pos b (classify c) mode q) as Hpos.
    simpl.
    destruct (step B (classify c) mode p) as [m1 p1].
    destruct (step b (classify c) mode q) as [m2 q1]. simpl in *. subst m2.
    destruct (IH m1 p1 q1 Hs1 Hle1 ltac:(lia)
                ltac:(intros i Hi; apply Hwin; lia))
      as (Hm' & Hs' & Hle' & added & Hp' & Hq').
    split; [exact Hm'|]. split; [exact Hs'|]. split; [exact Hle'|].
    exists (added1 ++ added). rewrite Hp', Hq', Hp1, Hq1, !app_assoc.
    split; reflexivity.
Qed.

(** The last lines of [ParseInto] on the same line state at two places. *)
Lemma finish_shifted B b k p q :
  shifted k p q ->
  (lineStart q <= parsePosition q)%nat ->
  Z.of_nat (S (parsePosition q)) < 2 ^ 64 ->
  (forall i, (i <= parsePosition q)%nat -> nth_error B (k + i) = nth_error b i) ->
  exists added,
    storedLines (target (finish B p)) = storedLines (target p) ++ added
    /\ storedLines (target (finish b q)) = storedLines (target q) ++ added.
Proof.
  intros Hs Hle Hfit Hwin. unfold finish.
  pose proof (proj1 (shifted_fields k p q) Hs) as (Hpp & Hpl & _).
  rewrite Hpp, Hpl.
  destruct (lineStart q <? parsePosition q)%nat eqn:E.
  - apply Nat.ltb_lt in E.
    replace (k + lineStart q <? k + parsePosition q)%nat with true
      by (symmetry; apply Nat.ltb_lt; lia).
    destruct (submitLine_spec B p) as (_ & -> & _).
    destruct (submitLine_spec b q) as (_ & -> & _).
    exists [pendingRecord b q]. split; [|reflexivity]. f_equal. f_equal.
    apply (pendingRecord_shifted B b k); auto.
    intros i Hi. apply Hwin. lia.
  - apply Nat.ltb_ge in E.
    replace (k + lineStart q <? k + parsePosition q)%nat with false
      by (symmetry; apply Nat.ltb_ge; lia).
    exists []. rewrite !app_nil_r. split; reflexivity.
Qed.

Lemma shifted_start d d' : shifted 0 (start d) (start d').
Proof. reflexivity. Qed.

(** An allocation of a parser that has been given the document [d] is
    made in a block [d] does not hold. *)
Lemma allocateChunked_extends (T : TypeLayout) (n : Z) (r : LineRecord) d (p : t) :
  extends d p -> validLayout T -> 0 <= n ->
  getSizePlusAlignmentPadding T + n < 2 ^ 64 ->
  let a := allocateChunked T n p in
  forall q,
    lineRecords (target q) = lineRecords (target (snd a)) ++ [(fst a, r)] ->
    heap (target q) = heap (target (snd a)) ->
    loadedLinesMemory (target q) = loadedLinesMemory (target (snd a)) ->
    remainingChunkByteCount q = remainingChunkByteCount (snd a) ->
    extends d q.
Proof.
  intros (Hheld & (added & Hadded & Hnew) & Hrem & Hchunk) HT Hn Hfit.
  pose proof (getSizePlusAlignmentPadding_ge T HT) as Hge.
  destruct HT as (Hs & Ha).
  set (s := getSizePlusAlignmentPadding T + n) in *.
  unfold allocateChunked. fold s.
  rewrite (to_size_t_small s) by lia.
  pose proof (freshBlock_fresh (target p)) as Hfresh.
  assert (Hfresh_d : heap d !! freshBlock (target p) = None).
  { destruct (heap d !! freshBlock (target p)) as [sz|] eqn:E; [|reflexivity].
    apply Hheld in E. congruence. }
  assert (Hins : forall q size,
            heap (target q) = <[freshBlock (target p) := size]> (heap (target p)) ->
            forall blk sz, heap d !! blk = Some sz ->
                           heap (target q) !! blk = Some sz).
  { intros q size Hq blk sz Hh. rewrite Hq, lookup_insert_ne; [auto|].
    intros <-. congruence. }
  destruct (to_size_t (s * 2) <? AllocationChunkSize).
  - destruct (remainingChunkByteCount p <? s) eqn:Eroom;
      [apply Z.ltb_lt in Eroom|apply Z.ltb_ge in Eroom]; cbn [fst snd].
    + (* a new chunk *)
      cbn [target with_memory remainingChunkByteCount lineRecords heap
           loadedLinesMemory].
      intros q Hrec Hheap Hload Hremq. unfold extends.
      rewrite Hrec, Hload, Hremq, Hadded.
      split; [eapply Hins; exact Hheap|]. split; [|split].
      * eexists. rewrite <- app_assoc. split; [reflexivity|].
        apply Forall_app. split; [exact Hnew|]. constructor; [|constructor].
        exists (freshBlock (target p)). split; [reflexivity|exact Hfresh_d].
      * unfold to_size_t. apply Z.mod_pos_bound. lia.
      * intros _. exists (freshBlock (target p)). split; [|exact Hfresh_d].
        rewrite length_app. simpl.
        rewrite nth_error_app2 by lia.
        replace (length (loadedLinesMemory (target p)) + 1 - 1
                 - length (loadedLinesMemory (target p)))%nat with O by lia.
        reflexivity.
    + (* the room left in the current chunk *)
      cbn [target with_memory remainingChunkByteCount].
      intros q Hrec Hheap Hload Hremq. unfold extends.
      destruct (Hchunk ltac:(lia)) as (chunk & Hcur & Hcur_d).
      rewrite Hrec, Hheap, Hload, Hremq, Hadded, Hcur.
      split; [exact Hheld|]. split; [|split].
      * eexists. rewrite <- app_assoc. split; [reflexivity|].
        apply Forall_app. split; [exact Hnew|]. constructor; [|constructor].
        exists chunk. split; [reflexivity|exact Hcur_d].
      * unfold to_size_t. apply Z.mod_pos_bound. lia.
      * intros _. exists chunk. split; [reflexivity|exact Hcur_d].
  - (* a block of its own *)
    cbn [fst snd target with_memory remainingChunkByteCount lineRecords heap
         loadedLinesMemory].
    intros q Hrec Hheap Hload Hremq. unfold extends.
    rewrite Hrec, Hload, Hremq, Hadded.
    split; [eapply Hins; exact Hheap|]. split; [|split].
    + eexists. rewrite <- app_assoc. split; [reflexivity|].
      apply Forall_app. split; [exact Hnew|]. constructor; [|constructor].
      exists (freshBlock (target p)). split; [reflexivity|exact Hfresh_d].
    + exact Hrem.
    + exact Hchunk.
Qed.

Lemma extends_fields d p q :
  heap (target q) = heap (target p) ->
  lineRecords (target q) = lineRecords (target p) ->
  loadedLinesMemory (target q) = loadedLinesMemory (target p) ->
  remainingChunkByteCount q = remainingChunkByteCount p ->
  extends d p -> extends d q.
Proof.
  intros H1 H2 H3 H4. unfold extends. rewrite H1, H2, H3, H4. tauto.
Qed.

(** A block more, which no list is told of, is a block [d] does not
    hold. *)
Lemma new_block_extends d p q size :
  extends d p ->
  heap (target q) = <[freshBlock (target p) := size]> (heap (target p)) ->
  lineRecords (target q) = lineRecords (target p) ->
  loadedLinesMemory (target q) = loadedLinesMemory (target p) ->
  remainingChunkByteCount q = remainingChunkByteCount p ->
  extends d q.
Proof.
  intros (Hheld & Hadded & Hrem & Hchunk) Hheap Hrec Hload Hremq.
  pose proof (freshBlock_fresh (target p)) as Hfresh.
  unfold extends. rewrite Hrec, Hload, Hremq.
  split; [|split; [exact Hadded|split; [exact Hrem|exact Hchunk]]].
  intros blk sz Hh. rewrite Hheap, lookup_insert_ne; [auto|].
  intros <-. apply Hheld in Hh. congruence.
Qed.

Lemma submitLine_extends b d p :
  representable b ->
  (lineStart p <= parsePosition p <= length b)%nat ->
  extends d p -> extends d (submitLine b p).
Proof.
  intros Hrep Hle Hext. unfold representable in Hrep.
  destruct (submitLine_memory b p) as (Hrec & Hheap & Hload & _ & Hrem).
  assert (Hlen : Length (lineOf (pendingRecord b p))
                 = Z.of_nat (S (parsePosition p)) - Z.of_nat (lineStart p)).
  { rewrite lineOf_pendingRecord. unfold pendingLine. cbn [Length].
    apply ptrdiff_small; lia. }
  pose proof (padding_layoutOf_le (kindOf (pendingRecord b p))) as Hpad.
  set (a := allocateChunked (layoutOf (kindOf (pendingRecord b p)))
              (Length (lineOf (pendingRecord b p))) p) in *.
  set (written :=
         with_memory
           {| heap := heap (target (snd a));
              loadedLinesMemory := loadedLinesMemory (target (snd a));
              createdLinesMemory := createdLinesMemory (target (snd a));
              sections := sections (target (snd a));
              lineRecords := lineRecords (target (snd a))
                             ++ [(fst a, pendingRecord b p)] |}
           (remainingChunkByteCount (snd a)) p).
  assert (Hwritten : extends d written).
  { eapply (allocateChunked_extends (layoutOf (kindOf (pendingRecord b p)))
              (Length (lineOf (pendingRecord b p))) (pendingRecord b p) d p);
      try eassumption; try reflexivity.
    - apply layoutOf_valid.
    - lia.
    - lia. }
  destruct (lineIsMalformed p).
  - eapply (new_block_extends d written); [exact Hwritten|exact Hheap|exact Hrec
                                          |exact Hload|exact Hrem].
  - eapply (extends_fields d written); [exact Hheap|exact Hrec|exact Hload
                                       |exact Hrem|exact Hwritten].
Qed.

Lemma step_extends b d c mode p :
  representable b ->
  (lineStart p <= parsePosition p <= length b)%nat /\ extends d p ->
  nth_error b (parsePosition p) = Some c ->
  (lineStart (snd (step b (classify c) mode p))
   <= parsePosition (snd (step b (classify c) mode p)) <= length b)%nat
  /\ extends d (snd (step b (classify c) mode p)).
Proof.
  intros Hrep (Hle & Hext) Hc.
  split.
  { split; [apply step_le; lia|]. rewrite step_pos.
    apply (proj1 (nth_error_Some b (parsePosition p))). congruence. }
  destruct (classify c) eqn:Hk.
  1:{ rewrite step_newline. cbn [snd].
      destruct (beforeSubmit_frame mode p) as (E1 & E2 & _).
      destruct (beforeSubmit_memory mode p) as (E3 & E4).
      apply submitLine_extends; [exact Hrep|rewrite E1, E2; exact Hle|].
      eapply (extends_fields d p); try (rewrite E3; reflexivity); assumption. }
  all: assert (Hne : classify c <> CNewline) by (rewrite Hk; discriminate).
  all: rewrite <- Hk.
  all: destruct (step_other_memory b (classify c) mode p Hne) as (E3 & E4).
  all: eapply (extends_fields d p); try (rewrite E3; reflexivity); assumption.
Qed.

(** What a new parser has done to the memory of the document when
    [ParseInto] returns. *)
Lemma ParseInto_extends b d :
  representable b ->
  extends d (finish b (snd (run b b MMain (start d)))).
Proof.
  intros Hrep.
  pose proof (run_invariant b
                (fun _ p => (lineStart p <= parsePosition p <= length b)%nat
                            /\ extends d p)
                (fun c mode p H Hc => step_extends b d c mode p Hrep H Hc)
                b MMain (start d) eq_refl) as Hrun.
  pose proof (run_pos b b MMain (start d)) as Hpos. simpl in Hpos.
  destruct (run b b MMain (start d)) as [mode p]. simpl in *.
  destruct Hrun as (Hle & Hext).
  { split.
    - simpl. lia.
    - unfold extends. simpl. split; [auto|]. split; [|split; [lia|lia]].
      exists []. rewrite app_nil_r. split; [reflexivity|constructor]. }
  unfold finish. destruct (lineStart p <? parsePosition p)%nat.
  - apply (submitLine_extends b d p Hrep Hle Hext).
  - exact Hext.
Qed.

(** X15. A new parser appends to the document it is given, and touches
    nothing the document holds: the records of the document are followed by
    the records of the lines of the file, which are the lines the file
    gives in a new document, so that what a line is stored as does not
    depend on the document; every new record is written into a block the
    document did not hold; and every block the document held is still held,
    at its size. The parser is one that has parsed nothing before. *)
Theorem ParseInto_appends b d :
  representable b ->
  exists p lines added,
    ParseInto b d = Some p
    /\ parse b = Some lines
    /\ lineRecords (target p) = lineRecords d ++ added
    /\ map snd added = lines
    /\ Forall (inNewBlock d) added
    /\ (forall block size,
          heap d !! block = Some size -> heap (target p) !! block = Some size).
Proof.
  intros Hrep.
  pose proof (ParseInto_extends b d Hrep) as (Hheld & (added & Hadded & Hnew) & _).
  unfold representable in Hrep.
  unfold parse. rewrite !ParseInto_run.
  destruct (run_shifted b b 0 b MMain (start d) (start emptyDocument)
              (shifted_start d emptyDocument) (Nat.le_refl _)
              ltac:(simpl; lia) ltac:(intros; reflexivity))
    as (_ & Hs & Hle & added1 & Hp & Hq).
  pose proof (run_pos b b MMain (start emptyDocument)) as Hpos. simpl in Hpos.
  destruct (finish_shifted b b 0 _ _ Hs Hle ltac:(rewrite Hpos; lia)
              ltac:(intros; reflexivity))
    as (added2 & Hp' & Hq').
  eexists. exists (added1 ++ added2), added.
  split; [reflexivity|]. split; [|split; [exact Hadded|split; [|split]]].
  - rewrite Hq', Hq. reflexivity.
  - rewrite Hp in Hp'. unfold storedLines in Hp' at 1.
    rewrite Hadded, map_app in Hp'. simpl in Hp'.
    fold (storedLines d) in Hp'. rewrite <- app_assoc in Hp'.
    apply app_inv_head in Hp'. exact Hp'.
  - exact Hnew.
  - exact Hheld.
Qed.

(** The theorem at a document that holds a Property line and a Malformed
    line, parsed into once more by a new parser. *)
Lemma ParseInto_appends_witness :
  representable (bytes "c = 3" ++ [newline] ++ bytes "[d")
  /\ exists p lines added,
      ParseInto (bytes "c = 3" ++ [newline] ++ bytes "[d")
        (parsedDocument (bytes "a = 1" ++ [newline] ++ bytes "x=y=z" ++ [newline]))
      = Some p
      /\ parse (bytes "c = 3" ++ [newline] ++ bytes "[d") = Some lines
      /\ lineRecords (target p)
         = lineRecords
             (parsedDocument
                (bytes "a = 1" ++ [newline] ++ bytes "x=y=z" ++ [newline]))
           ++ added
      /\ map snd added = lines
      /\ Forall
           (inNewBlock
              (parsedDocument
                 (bytes "a = 1" ++ [newline] ++ bytes "x=y=z" ++ [newline])))
           added
      /\ (forall block size,
            heap (parsedDocument
                    (bytes "a = 1" ++ [newline] ++ bytes "x=y=z" ++ [newline]))
              !! block = Some size ->
            heap (target p) !! block = Some size).
Proof.
  assert (H : representable (bytes "c = 3" ++ [newline] ++ bytes "[d"))
    by (vm_compute; reflexivity).
  split; [exact H|].
  exact (ParseInto_appends (bytes "c = 3" ++ [newline] ++ bytes "[d")
           (parsedDocument (bytes "a = 1" ++ [newline] ++ bytes "x=y=z" ++ [newline]))
           H).
Defined.

(** Behind a file that is empty or ends in a line break the pass is in the
    loop of [ParseInto] with the line state reset. *)
Lemma run_terminated a d :
  endsWithLineBreak a = true ->
  fst (run a a MMain (start d)) = MMain
  /\ cursor (snd (run a a MMain (start d)))
     = (length a, length a, None, None, None, None, false, false, false).
Proof.
  intros Hend.
  pose proof (run_pos a a MMain (start d)) as Hpos. simpl in Hpos.
  pose proof (run_invariant a
    (fun mode p =>
       (lineStart p <= parsePosition p)%nat
       /\ (lineStart p = parsePosition p ->
           parsePosition p = O \/ nth_error a (parsePosition p - 1) = Some newline)
       /\ (parsePosition p = O \/ nth_error a (parsePosition p - 1) = Some newline ->
           mode = MMain
           /\ cursor p = (parsePosition p, parsePosition p, None, None, None, None,
                          false, false, false))
       /\ sections (target p) = sections d)
    (ReturnFacts.step_atLineStart a (sections d)) a MMain (start d) eq_refl) as H.
  simpl in H.
  destruct H as (_ & _ & Hreset & _); [repeat split; auto|].
  rewrite Hpos in Hreset. apply Hreset.
  apply endsWithLineBreak_spec in Hend. exact Hend.
Qed.

(** X16. Parsing is local to the lines: behind a file that is empty or
    ends in a line break, a second file is stored as it is stored on its
    own. The lines of the two files put together are the lines of the
    first followed by the lines of the second. *)
Theorem parse_app a rest :
  endsWithLineBreak a = true ->
  representable (a ++ rest) ->
  exists linesA linesRest,
    parse a = Some linesA
    /\ parse rest = Some linesRest
    /\ parse (a ++ rest) = Some (linesA ++ linesRest).
Proof.
  intros Hend Hrep. unfold representable in Hrep. rewrite length_app in Hrep.
  unfold parse. rewrite !ParseInto_run.
  set (B := a ++ rest).
  (* the first file *)
  destruct (run_shifted B a 0 a MMain (start emptyDocument) (start emptyDocument)
              (shifted_start _ _) (Nat.le_refl _) ltac:(simpl; lia))
    as (Hm1 & Hs1 & _ & added1 & Hp1 & Hq1).
  { intros i Hi. simpl in *. unfold B. apply nth_error_app1. exact Hi. }
  destruct (run_terminated a emptyDocument Hend) as (Hmode & Hcur).
  set (q1 := snd (run a a MMain (start emptyDocument))) in *.
  set (p1 := snd (run B a MMain (start emptyDocument))) in *.
  simpl in Hp1, Hq1.
  assert (Hfin : finish a q1 = q1).
  { unfold finish. unfold cursor in Hcur.
    replace (lineStart q1) with (length a) by congruence.
    replace (parsePosition q1) with (length a) by congruence.
    rewrite Nat.ltb_irrefl. reflexivity. }
  (* the second file *)
  assert (Hs2 : shifted (length a) p1 (start emptyDocument)).
  { apply shifted_fields in Hs1.
    destruct Hs1 as (E1 & E2 & E3 & E4 & E5 & E6 & E7 & E8 & E9).
    unfold cursor in Hcur. apply shifted_fields. simpl.
    rewrite E1, E2, E3, E4, E5, E6, E7, E8, E9.
    repeat split; simpl; try congruence.
    - replace (parsePosition q1) with (length a) by congruence. lia.
    - replace (lineStart q1) with (length a) by congruence. lia.
    - replace (nameStart q1) with (@None nat) by congruence. reflexivity.
    - replace (nameEnd q1) with (@None nat) by congruence. reflexivity.
    - replace (valueStart q1) with (@None nat) by congruence. reflexivity.
    - replace (valueEnd q1) with (@None nat) by congruence. reflexivity. }
  assert (Hwin : forall i, nth_error B (length a + i) = nth_error rest i).
  { intros i. unfold B. rewrite nth_error_app2 by lia. f_equal. lia. }
  destruct (run_shifted B rest (length a) rest MMain p1 (start emptyDocument)
              Hs2 (Nat.le_refl _) ltac:(simpl; lia) ltac:(intros; apply Hwin))
    as (_ & Hs3 & Hle3 & added2 & Hp2 & Hq2).
  pose proof (run_pos rest rest MMain (start emptyDocument)) as Hpos. simpl in Hpos.
  destruct (finish_shifted B rest (length a) _ _ Hs3 Hle3 ltac:(rewrite Hpos; lia)
              ltac:(intros; apply Hwin))
    as (added3 & Hp3 & Hq3).
  exists added1, (added2 ++ added3).
  split; [rewrite Hfin, Hq1; reflexivity|].
  split; [rewrite Hq3, Hq2; reflexivity|].
  f_equal. unfold B at 3. rewrite run_app. fold p1.
  replace (fst (run B a MMain (start emptyDocument))) with MMain by congruence.
  rewrite Hp3, Hp2, Hp1. simpl. rewrite app_assoc. reflexivity.
Qed.

Lemma parse_app_witness :
  endsWithLineBreak (bytes "[s]" ++ [newline]) = true
  /\ representable ((bytes "[s]" ++ [newline]) ++ bytes "k = v")
  /\ exists linesA linesRest,
      parse (bytes "[s]" ++ [newline]) = Some linesA
      /\ parse (bytes "k = v") = Some linesRest
      /\ parse ((bytes "[s]" ++ [newline]) ++ bytes "k = v")
         = Some (linesA ++ linesRest).
Proof.
  assert (H1 : endsWithLineBreak (bytes "[s]" ++ [newline]) = true) by reflexivity.
  assert (H2 : representable ((bytes "[s]" ++ [newline]) ++ bytes "k = v"))
    by (vm_compute; reflexivity).
  split; [exact H1|]. split; [exact H2|].
  exact (parse_app _ _ H1 H2).
Defined.

End ShiftFacts.

(** ** Property lines and section lines *)

Module WellFormedFacts.
Import FileParser Pending Flat Invariants ParserFacts FlatFacts ShiftFacts WellFormed.

Lemma with_parsePosition_advance n p :
  with_parsePosition (parsePosition (advance p) + n) (advance p)
  = with_parsePosition (parsePosition p + S n) p.
Proof. destruct p. unfold advance, with_parsePosition. simpl. f_equal. lia. Qed.

Lemma with_parsePosition_0 p : with_parsePosition (parsePosition p + 0) p = p.
Proof. destruct p. unfold with_parsePosition. simpl. f_equal. lia. Qed.

Lemma run_cons b c l mode p :
  run b (c :: l) mode p
  = run b l (fst (step b (classify c) mode p)) (snd (step b (classify c) mode p)).
Proof. simpl. destruct (step b (classify c) mode p). reflexivity. Qed.

(** Whitespace is stepped over in the loop of [ParseInto], of [parseName]
    and of [parseValue]. *)
Lemma run_blank b ws : forall mode p,
  Forall blank ws ->
  (mode = MMain \/ (exists e s, mode = MName false e s)
   \/ exists e, mode = MValue false e) ->
  run b ws mode p = (mode, with_parsePosition (parsePosition p + length ws) p).
Proof.
  induction ws as [|c ws IH]; intros mode p Hws Hmode.
  - simpl. rewrite with_parsePosition_0. reflexivity.
  - inversion Hws as [|? ? Hc Hws']; subst. unfold blank in Hc.
    simpl. rewrite Hc.
    assert (Hstep : step b CWhitespace mode p = (mode, advance p)).
    { destruct Hmode as [->|[(e & s & ->)|(e & ->)]]; reflexivity. }
    rewrite Hstep, IH by assumption.
    rewrite with_parsePosition_advance. reflexivity.
Qed.

(** The bytes of a name behind its first: [nameEnd] follows. *)
Lemma run_plain_name b l : forall s p ns,
  Forall plain l ->
  nameStart p = Some ns -> nameEnd p = Some (parsePosition p) ->
  run b l (MName false false s) p
  = (MName false false s,
     with_parsePosition (parsePosition p + length l)
       (with_name (Some ns) (Some (parsePosition p + length l)%nat) p)).
Proof.
  induction l as [|c l IH]; intros s p ns Hl Hns Hne.
  - simpl. destruct p. simpl in *. subst.
    unfold with_parsePosition, with_name. simpl. repeat f_equal; lia.
  - inversion Hl as [|? ? Hc Hl']; subst. unfold plain in Hc.
    simpl. rewrite Hc. simpl. rewrite Hns.
    rewrite (IH s _ ns) by (auto; reflexivity).
    destruct p. simpl in *. unfold with_parsePosition, with_name, advance. simpl.
    repeat f_equal; lia.
Qed.

(** The bytes of a value behind its first: [valueEnd] follows. *)
Lemma run_value b l : forall p vs,
  Forall valueByte l ->
  valueStart p = Some vs -> valueEnd p = Some (parsePosition p) ->
  run b l (MValue false false) p
  = (MValue false false,
     with_parsePosition (parsePosition p + length l)
       (with_value (Some vs) (Some (parsePosition p + length l)%nat) p)).
Proof.
  induction l as [|c l IH]; intros p vs Hl Hvs Hve.
  - simpl. destruct p. simpl in *. subst.
    unfold with_parsePosition, with_value. simpl. repeat f_equal; lia.
  - inversion Hl as [|? ? Hc Hl']; subst. unfold valueByte in Hc.
    rewrite run_cons.
    assert (Hstep : step b (classify c) (MValue false false) p
                    = (MValue false false,
                       advance (with_value (Some vs) (Some (S (parsePosition p))) p))).
    { destruct Hc as [-> |[-> | ->]]; simpl; rewrite Hvs; reflexivity. }
    rewrite Hstep. cbn [fst snd]. rewrite (IH _ vs) by (auto; reflexivity).
    destruct p. simpl in *. unfold with_parsePosition, with_value, advance. simpl.
    repeat f_equal; lia.
Qed.

(** The bytes of a section name: [nameStart] stays behind the bracket. *)
Lemma run_sectionName b l : forall p ns,
  Forall sectionNameByte l ->
  nameStart p = Some ns ->
  exists ne,
    run b l (MName false false true) p
    = (MName false false true,
       with_parsePosition (parsePosition p + length l)
         (with_name (Some ns) ne p)).
Proof.
  induction l as [|c l IH]; intros p ns Hl Hns.
  - exists (nameEnd p). simpl. destruct p. simpl in *. subst.
    unfold with_parsePosition, with_name. simpl. repeat f_equal; lia.
  - inversion Hl as [|? ? Hc Hl']; subst. unfold sectionNameByte in Hc.
    simpl. destruct Hc as [-> | ->]; simpl; rewrite ?Hns.
    + destruct (IH (advance (with_name (Some ns) (Some (S (parsePosition p))) p))
                  ns Hl' eq_refl) as (ne & ->).
      exists ne. destruct p. simpl in *.
      unfold with_parsePosition, with_name, advance. simpl. repeat f_equal; lia.
    + destruct (IH (advance p) ns Hl' Hns) as (ne & ->).
      exists ne. destruct p. simpl in *.
      unfold with_parsePosition, with_name, advance. simpl. repeat f_equal; lia.
Qed.

Lemma cursor_fields p pos ls ns ne vs ve sf ef mf :
  cursor p = (pos, ls, ns, ne, vs, ve, sf, ef, mf) ->
  parsePosition p = pos /\ lineStart p = ls /\ nameStart p = ns
  /\ nameEnd p = ne /\ valueStart p = vs /\ valueEnd p = ve
  /\ sectionFound p = sf /\ equalsSignFound p = ef /\ lineIsMalformed p = mf.
Proof. unfold cursor. intros H. repeat split; congruence. Qed.

Lemma pendingRecord_property b p pos ls ns ne vs ve sf :
  cursor p = (pos, ls, Some ns, Some ne, Some vs, Some ve, sf, true, false) ->
  pendingRecord b p
  = PropertyRecord
      {| PropertyLine.base :=
           {| Contents := copy_n b ls (Z.to_nat (ptrdiff (S pos) ls));
              Length := ptrdiff (S pos) ls |};
         PropertyLine.NameStartIndex := ptrdiff ns ls;
         PropertyLine.NameLength := ptrdiff ne ns;
         PropertyLine.ValueStartIndex := ptrdiff vs ls;
         PropertyLine.ValueLength := Some (ptrdiff ve ns) |}.
Proof.
  intros H. apply cursor_fields in H.
  destruct H as (E1 & E2 & E3 & E4 & E5 & E6 & E7 & E8 & E9).
  unfold pendingRecord, pendingLine, pendingName, pendingValue.
  rewrite E1, E2, E3, E4, E5, E6, E8, E9. reflexivity.
Qed.

Lemma pendingRecord_section b p pos ls ns ne vs ve :
  cursor p = (pos, ls, Some ns, Some ne, vs, ve, true, false, false) ->
  pendingRecord b p
  = SectionRecord
      {| SectionLine.base :=
           {| Contents := copy_n b ls (Z.to_nat (ptrdiff (S pos) ls));
              Length := ptrdiff (S pos) ls |};
         SectionLine.NameStartIndex := ptrdiff ns ls;
         SectionLine.NameLength := ptrdiff ne ns |}.
Proof.
  intros H. apply cursor_fields in H.
  destruct H as (E1 & E2 & E3 & E4 & E5 & E6 & E7 & E8 & E9).
  unfold pendingRecord, pendingLine, pendingName, pendingValue.
  rewrite E1, E2, E3, E4, E7, E8, E9. reflexivity.
Qed.

(** A file of one line that ends in its line break is stored as the
    record [submitLine] makes of the state the pass is in at the line
    break. *)
Lemma parse_one_line b line mode p :
  b = line ++ [newline] ->
  run b line MMain (start emptyDocument) = (mode, p) ->
  beforeSubmit mode p = p ->
  storedLines (target p) = [] ->
  parse b = Some [pendingRecord b p].
Proof.
  intros Hb Hrun Hbs Ht. unfold parse. rewrite ParseInto_run.
  rewrite Hb at 3. rewrite run_app, Hrun. cbn [fst snd].
  rewrite run_cons. replace (classify newline) with CNewline by reflexivity.
  rewrite step_newline. cbn [fst snd run]. rewrite Hbs.
  unfold finish.
  destruct (submitLine_fields b p) as (F1 & F2 & _).
  rewrite F1, F2, Nat.ltb_irrefl.
  destruct (submitLine_spec b p) as (_ & -> & _).
  rewrite Ht. reflexivity.
Qed.

Lemma copy_n_whole b : copy_n b 0 (length b) = map Some b.
Proof. apply copy_n_all. Qed.

(** The first byte of a name, the equals sign behind a name, the first
    byte of a value, and the two brackets of a section. *)
Lemma step_name_first b p :
  equalsSignFound p = false -> nameStart p = None ->
  step b COther MMain p
  = (MName false false false,
     advance (with_name (Some (parsePosition p)) (Some (S (parsePosition p))) p)).
Proof. intros He Hn. simpl. rewrite He. simpl. rewrite Hn. reflexivity. Qed.

Lemma step_equals b e p :
  equalsSignFound p = false ->
  step b CEquals (MName false e false) p
  = (MMain, advance (with_equalsSignFound true p)).
Proof. intros He. simpl. rewrite He. reflexivity. Qed.

Lemma step_value_first b c p :
  valueByte c -> equalsSignFound p = true -> valueStart p = None ->
  step b (classify c) MMain p
  = (MValue false false,
     advance (with_value (Some (parsePosition p)) (Some (S (parsePosition p))) p)).
Proof.
  intros [-> |[-> | ->]] He Hv; simpl; rewrite He; simpl; rewrite Hv; reflexivity.
Qed.

Lemma step_open b p :
  equalsSignFound p = false -> nameStart p = None ->
  step b COpenBracket MMain p
  = (MName false false true,
     advance (with_name (Some (S (parsePosition p))) (nameEnd p) p)).
Proof. intros He Hn. simpl. rewrite He. simpl. rewrite Hn. reflexivity. Qed.

Lemma step_close b p ns :
  nameStart p = Some ns ->
  step b CCloseBracket (MName false false true) p
  = (MName false false false,
     advance (with_sectionFound true (with_name (Some ns) (Some (parsePosition p)) p))).
Proof. intros Hn. simpl. rewrite Hn. reflexivity. Qed.

(** The text of a comment is stepped over. *)
Lemma run_skip b l : forall p,
  Forall (fun x => classify x <> CNewline) l ->
  run b l MSkip p = (MSkip, with_parsePosition (parsePosition p + length l) p).
Proof.
  induction l as [|c l IH]; intros p Hl.
  - simpl. rewrite with_parsePosition_0. reflexivity.
  - inversion Hl as [|? ? Hc Hl']; subst. rewrite run_cons.
    assert (Hstep : step b (classify c) MSkip p = (MSkip, advance p))
      by (destruct (classify c); try congruence; reflexivity).
    rewrite Hstep. cbn [fst snd]. rewrite IH by assumption.
    rewrite with_parsePosition_advance. reflexivity.
Qed.

(** A comment behind a value: the line state stays as it is. *)
Lemma run_comment b comment e p :
  commentText comment ->
  exists mode,
    run b comment (MValue false e) p
    = (mode, with_parsePosition (parsePosition p + length comment) p)
    /\ (mode = MValue false e \/ mode = MSkip).
Proof.
  destruct comment as [|c text]; intros Hc.
  - exists (MValue false e). simpl. rewrite with_parsePosition_0. auto.
  - destruct Hc as (Hc & Htext). exists MSkip. split; [|auto].
    rewrite run_cons, Hc. cbn [step continue valueOutcome fst snd].
    rewrite run_skip by assumption.
    rewrite with_parsePosition_advance. reflexivity.
Qed.

(** The bytes between two quotes of a value: [valueStart] stays behind the
    opening quote. *)
Lemma run_quoted_value b l : forall e p,
  Forall quotedByte l ->
  exists ve,
    run b l (MValue true e) p
    = (MValue true e,
       with_parsePosition (parsePosition p + length l)
         (with_value (valueStart p) ve p)).
Proof.
  induction l as [|c l IH]; intros e p Hl.
  - exists (valueEnd p). simpl. destruct p.
    unfold with_parsePosition, with_value. simpl. repeat f_equal; lia.
  - inversion Hl as [|? ? (Hq & Hn) Hl']; subst. rewrite run_cons.
    assert (Hstep : step b (classify c) (MValue true e) p
                    = (MValue true e,
                       advance (with_value (valueStart p)
                                  (Some (parsePosition p)) p)))
      by (destruct (classify c); try congruence; reflexivity).
    rewrite Hstep. cbn [fst snd].
    destruct (IH e (advance (with_value (valueStart p) (Some (parsePosition p)) p))
                Hl') as (ve & ->).
    exists ve. destruct p. unfold with_parsePosition, with_value, advance. simpl.
    repeat f_equal; lia.
Qed.

Lemma step_quote_open b p :
  equalsSignFound p = true -> valueStart p = None ->
  step b CQuote MMain p
  = (MValue true true,
     advance (with_value (Some (S (parsePosition p))) (valueEnd p) p)).
Proof. intros He Hv. simpl. rewrite He. simpl. rewrite Hv. reflexivity. Qed.

Lemma step_quote_close b e p :
  step b CQuote (MValue true e) p
  = (MValue false e,
     advance (with_value (valueStart p) (Some (parsePosition p)) p)).
Proof. reflexivity. Qed.

Lemma beforeSubmit_unquoted mode p :
  (exists e, mode = MValue false e) \/ mode = MSkip -> beforeSubmit mode p = p.
Proof. intros [(e & ->)| ->]; reflexivity. Qed.

(** X17. A line [name = value] is stored as a Property line whose name
    span is the name and whose value starts at the value: the name and the
    value are not empty and made of bytes without a meaning of their own
    (the value may hold brackets), whitespace may stand before the name,
    around the equals sign and behind the value, and a comment may follow.
    [ValueLength] is the distance from the start of the name to the end of
    the value, as the code computes it. *)
Theorem property_line_is_stored ws1 name ws2 ws3 value ws4 comment :
  Forall blank ws1 -> Forall blank ws2 -> Forall blank ws3 -> Forall blank ws4 ->
  Forall plain name -> name <> [] ->
  Forall valueByte value -> value <> [] ->
  commentText comment ->
  representable (propertyLineText ws1 name ws2 ws3 value ws4 comment) ->
  parse (propertyLineText ws1 name ws2 ws3 value ws4 comment)
  = Some
      [PropertyRecord
         {| PropertyLine.base :=
              {| Contents :=
                   map Some (propertyLineText ws1 name ws2 ws3 value ws4 comment);
                 Length :=
                   Z.of_nat
                     (length (propertyLineText ws1 name ws2 ws3 value ws4 comment)) |};
            PropertyLine.NameStartIndex := Z.of_nat (length ws1);
            PropertyLine.NameLength := Z.of_nat (length name);
            PropertyLine.ValueStartIndex :=
              Z.of_nat (length ws1 + length name + length ws2 + 1 + length ws3);
            PropertyLine.ValueLength :=
              Some (Z.of_nat (length name + length ws2 + 1 + length ws3
                              + length value)) |}].
Proof.
  intros H1 H2 H3 H4 Hn Hne Hv Hve Hcm Hrep.
  destruct name as [|n0 name]; [congruence|].
  destruct value as [|v0 value]; [congruence|].
  set (b := propertyLineText ws1 (n0 :: name) ws2 ws3 (v0 :: value) ws4 comment) in *.
  inversion Hn as [|? ? Hn0 Hname]; subst.
  inversion Hv as [|? ? Hv0 Hvalue]; subst.
  unfold plain in Hn0.
  assert (Hrun : exists mode p,
            run b (ws1 ++ (n0 :: name) ++ ws2 ++ [equalsSign] ++ ws3
                   ++ (v0 :: value) ++ ws4 ++ comment) MMain (start emptyDocument)
            = (mode, p)
            /\ beforeSubmit mode p = p
            /\ storedLines (target p) = []
            /\ cursor p
               = ((length ws1 + S (length name) + length ws2 + 1 + length ws3
                   + S (length value) + length ws4 + length comment)%nat,
                  O,
                  Some (length ws1),
                  Some (length ws1 + S (length name))%nat,
                  Some (length ws1 + S (length name) + length ws2 + 1
                        + length ws3)%nat,
                  Some (length ws1 + S (length name) + length ws2 + 1
                        + length ws3 + S (length value))%nat,
                  false, true, false)).
  { rewrite run_app, (run_blank b ws1) by auto. cbn [fst snd].
    rewrite run_app, run_cons, Hn0, step_name_first by reflexivity.
    cbn [fst snd].
    rewrite (run_plain_name b name false _ (length ws1)) by (auto; reflexivity).
    cbn [fst snd].
    rewrite run_app, (run_blank b ws2) by eauto. cbn [fst snd].
    rewrite run_app, run_cons.
    replace (classify equalsSign) with CEquals by reflexivity.
    rewrite step_equals by reflexivity. cbn [fst snd run].
    rewrite run_app, (run_blank b ws3) by auto. cbn [fst snd].
    rewrite run_app, run_cons, (step_value_first b v0) by (auto; reflexivity).
    cbn [fst snd].
    rewrite (run_value b value _
               (length ws1 + S (length name) + length ws2 + 1 + length ws3))
      by (auto; simpl; f_equal; lia).
    cbn [fst snd].
    rewrite run_app, (run_blank b ws4) by eauto. cbn [fst snd].
    match goal with
    | |- context [run b comment (MValue false false) ?q] =>
        destruct (run_comment b comment false q Hcm) as (mode & -> & Hmode)
    end.
    eexists. eexists. split; [reflexivity|].
    split; [apply beforeSubmit_unquoted; destruct Hmode; eauto|].
    split; [reflexivity|].
    unfold cursor. simpl. repeat f_equal; lia. }
  destruct Hrun as (mode & p & Hrun & Hbs & Ht & Hcur).
  assert (Hb : b = (ws1 ++ (n0 :: name) ++ ws2 ++ [equalsSign] ++ ws3
                    ++ (v0 :: value) ++ ws4 ++ comment) ++ [newline]).
  { unfold b, propertyLineText. rewrite <- !app_assoc. reflexivity. }
  rewrite (parse_one_line b _ _ p Hb Hrun Hbs Ht).
  rewrite (pendingRecord_property b p _ _ _ _ _ _ _ Hcur).
  assert (Hlen : length b
                 = S (length ws1 + S (length name) + length ws2 + 1 + length ws3
                      + S (length value) + length ws4 + length comment)).
  { rewrite Hb. repeat rewrite length_app. simpl. repeat rewrite length_app.
    simpl. repeat rewrite length_app. simpl. lia. }
  unfold representable in Hrep. rewrite Hlen in Hrep.
  rewrite !ptrdiff_small by lia.
  replace (Z.to_nat (Z.of_nat (S (length ws1 + S (length name) + length ws2 + 1
                                  + length ws3 + S (length value) + length ws4
                                  + length comment))
                     - Z.of_nat 0))
    with (length b) by lia.
  rewrite copy_n_whole, Hlen. simpl length.
  repeat f_equal; lia.
Qed.

Lemma property_line_is_stored_witness :
  Forall blank [space] /\ Forall blank [space] /\ Forall blank [space]
  /\ Forall blank [tab]
  /\ Forall plain (bytes "key") /\ bytes "key" <> []
  /\ Forall valueByte (bytes "[1]") /\ bytes "[1]" <> []
  /\ commentText (bytes "; a = b")
  /\ representable
       (propertyLineText [space] (bytes "key") [space] [space] (bytes "[1]") [tab]
          (bytes "; a = b"))
  /\ parse (propertyLineText [space] (bytes "key") [space] [space] (bytes "[1]")
              [tab] (bytes "; a = b"))
     = Some
         [PropertyRecord
            {| PropertyLine.base :=
                 {| Contents :=
                      map Some
                        (propertyLineText [space] (bytes "key") [space] [space]
                           (bytes "[1]") [tab] (bytes "; a = b"));
                    Length :=
                      Z.of_nat
                        (length
                           (propertyLineText [space] (bytes "key") [space] [space]
                              (bytes "[1]") [tab] (bytes "; a = b"))) |};
               PropertyLine.NameStartIndex := Z.of_nat (length [space]);
               PropertyLine.NameLength := Z.of_nat (length (bytes "key"));
               PropertyLine.ValueStartIndex :=
                 Z.of_nat (length [space] + length (bytes "key") + length [space]
                           + 1 + length [space]);
               PropertyLine.ValueLength :=
                 Some (Z.of_nat (length (bytes "key") + length [space] + 1
                                 + length [space] + length (bytes "[1]"))) |}].
Proof.
  assert (Hb : Forall blank [space]) by (repeat constructor).
  assert (H0 : Forall blank [tab]) by (repeat constructor).
  assert (Hn : Forall plain (bytes "key")) by (repeat constructor).
  assert (Hne : bytes "key" <> []) by discriminate.
  assert (Hv : Forall valueByte (bytes "[1]")).
  { repeat (constructor; [unfold valueByte; simpl; auto|]). constructor. }
  assert (Hve : bytes "[1]" <> []) by discriminate.
  assert (Hc : commentText (bytes "; a = b")).
  { split; [reflexivity|].
    repeat (constructor; [discriminate|]). constructor. }
  assert (Hr : representable
                 (propertyLineText [space] (bytes "key") [space] [space]
                    (bytes "[1]") [tab] (bytes "; a = b")))
    by (vm_compute; reflexivity).
  split; [exact Hb|]. split; [exact Hb|]. split; [exact Hb|]. split; [exact H0|].
  split; [exact Hn|]. split; [exact Hne|]. split; [exact Hv|]. split; [exact Hve|].
  split; [exact Hc|]. split; [exact Hr|].
  exact (property_line_is_stored [space] (bytes "key") [space] [space] (bytes "[1]")
           [tab] (bytes "; a = b") Hb Hb Hb H0 Hn Hne Hv Hve Hc Hr).
Defined.

(** X18. Between the quotes of a value every byte is without effect: a
    line [name = "text"] is stored as a Property line whose value starts
    behind the opening quote, whatever the text holds other than a quote
    and a line break, brackets, equals signs and the bytes that start a
    comment included. [ValueLength] is the distance from the start of the
    name to the closing quote, as the code computes it. *)
Theorem quoted_value_is_inert ws1 name ws2 ws3 text ws4 comment :
  Forall blank ws1 -> Forall blank ws2 -> Forall blank ws3 -> Forall blank ws4 ->
  Forall plain name -> name <> [] ->
  Forall quotedByte text ->
  commentText comment ->
  representable
    (propertyLineText ws1 name ws2 ws3 ([quote] ++ text ++ [quote]) ws4 comment) ->
  parse (propertyLineText ws1 name ws2 ws3 ([quote] ++ text ++ [quote]) ws4 comment)
  = Some
      [PropertyRecord
         {| PropertyLine.base :=
              {| Contents :=
                   map Some
                     (propertyLineText ws1 name ws2 ws3
                        ([quote] ++ text ++ [quote]) ws4 comment);
                 Length :=
                   Z.of_nat
                     (length
                        (propertyLineText ws1 name ws2 ws3
                           ([quote] ++ text ++ [quote]) ws4 comment)) |};
            PropertyLine.NameStartIndex := Z.of_nat (length ws1);
            PropertyLine.NameLength := Z.of_nat (length name);
            PropertyLine.ValueStartIndex :=
              Z.of_nat (length ws1 + length name + length ws2 + 1 + length ws3 + 1);
            PropertyLine.ValueLength :=
              Some (Z.of_nat (length name + length ws2 + 1 + length ws3 + 1
                              + length text)) |}].
Proof.
  intros H1 H2 H3 H4 Hn Hne Htext Hcm Hrep.
  destruct name as [|n0 name]; [congruence|].
  set (b := propertyLineText ws1 (n0 :: name) ws2 ws3 ([quote] ++ text ++ [quote])
              ws4 comment) in *.
  inversion Hn as [|? ? Hn0 Hname]; subst.
  unfold plain in Hn0.
  assert (Hrun : exists mode p,
            run b (ws1 ++ (n0 :: name) ++ ws2 ++ [equalsSign] ++ ws3
                   ++ ([quote] ++ text ++ [quote]) ++ ws4 ++ comment)
              MMain (start emptyDocument)
            = (mode, p)
            /\ beforeSubmit mode p = p
            /\ storedLines (target p) = []
            /\ cursor p
               = ((length ws1 + S (length name) + length ws2 + 1 + length ws3
                   + 1 + length text + 1 + length ws4 + length comment)%nat,
                  O,
                  Some (length ws1),
                  Some (length ws1 + S (length name))%nat,
                  Some (length ws1 + S (length name) + length ws2 + 1
                        + length ws3 + 1)%nat,
                  Some (length ws1 + S (length name) + length ws2 + 1
                        + length ws3 + 1 + length text)%nat,
                  false, true, false)).
  { rewrite run_app, (run_blank b ws1) by auto. cbn [fst snd].
    rewrite run_app, run_cons, Hn0, step_name_first by reflexivity.
    cbn [fst snd].
    rewrite (run_plain_name b name false _ (length ws1)) by (auto; reflexivity).
    cbn [fst snd].
    rewrite run_app, (run_blank b ws2) by eauto. cbn [fst snd].
    rewrite run_app, run_cons.
    replace (classify equalsSign) with CEquals by reflexivity.
    rewrite step_equals by reflexivity. cbn [fst snd run].
    rewrite run_app, (run_blank b ws3) by auto. cbn [fst snd].
    rewrite run_app.
    change ([quote] ++ text ++ [quote]) with (quote :: (text ++ [quote])).
    rewrite run_cons.
    replace (classify quote) with CQuote by reflexivity.
    rewrite step_quote_open by reflexivity. cbn [fst snd run].
    rewrite (run_app b text).
    match goal with
    | |- context [run b text (MValue true true) ?q] =>
        destruct (run_quoted_value b text true q Htext) as (ve & ->)
    end.
    cbn [fst snd]. rewrite run_cons.
    replace (classify quote) with CQuote by reflexivity.
    rewrite step_quote_close. cbn [fst snd run].
    rewrite run_app, (run_blank b ws4) by eauto. cbn [fst snd].
    match goal with
    | |- context [run b comment (MValue false true) ?q] =>
        destruct (run_comment b comment true q Hcm) as (mode & -> & Hmode)
    end.
    eexists. eexists. split; [reflexivity|].
    split; [apply beforeSubmit_unquoted; destruct Hmode; eauto|].
    split; [reflexivity|].
    unfold cursor. simpl. repeat f_equal; lia. }
  destruct Hrun as (mode & p & Hrun & Hbs & Ht & Hcur).
  assert (Hb : b = (ws1 ++ (n0 :: name) ++ ws2 ++ [equalsSign] ++ ws3
                    ++ ([quote] ++ text ++ [quote]) ++ ws4 ++ comment) ++ [newline]).
  { unfold b, propertyLineText. rewrite <- !app_assoc. reflexivity. }
  rewrite (parse_one_line b _ _ p Hb Hrun Hbs Ht).
  rewrite (pendingRecord_property b p _ _ _ _ _ _ _ Hcur).
  assert (Hlen : length b
                 = S (length ws1 + S (length name) + length ws2 + 1 + length ws3
                      + 1 + length text + 1 + length ws4 + length comment)).
  { rewrite Hb. repeat rewrite length_app. simpl. repeat rewrite length_app.
    simpl. repeat rewrite length_app. simpl. repeat rewrite length_app. simpl.
    lia. }
  unfold representable in Hrep. rewrite Hlen in Hrep.
  rewrite !ptrdiff_small by lia.
  replace (Z.to_nat (Z.of_nat (S (length ws1 + S (length name) + length ws2 + 1
                                  + length ws3 + 1 + length text + 1 + length ws4
                                  + length comment))
                     - Z.of_nat 0))
    with (length b) by lia.
  rewrite copy_n_whole, Hlen. simpl length.
  repeat f_equal; lia.
Qed.

Lemma quoted_value_is_inert_witness :
  Forall blank [] /\ Forall blank [space] /\ Forall blank [space]
  /\ Forall blank []
  /\ Forall plain (bytes "k") /\ bytes "k" <> []
  /\ Forall quotedByte (bytes "[a] = #;")
  /\ commentText []
  /\ representable
       (propertyLineText [] (bytes "k") [space] [space]
          ([quote] ++ bytes "[a] = #;" ++ [quote]) [] [])
  /\ parse (propertyLineText [] (bytes "k") [space] [space]
              ([quote] ++ bytes "[a] = #;" ++ [quote]) [] [])
     = Some
         [PropertyRecord
            {| PropertyLine.base :=
                 {| Contents :=
                      map Some
                        (propertyLineText [] (bytes "k") [space] [space]
                           ([quote] ++ bytes "[a] = #;" ++ [quote]) [] []);
                    Length :=
                      Z.of_nat
                        (length
                           (propertyLineText [] (bytes "k") [space] [space]
                              ([quote] ++ bytes "[a] = #;" ++ [quote]) [] [])) |};
               PropertyLine.NameStartIndex := Z.of_nat (length (@nil byte));
               PropertyLine.NameLength := Z.of_nat (length (bytes "k"));
               PropertyLine.ValueStartIndex :=
                 Z.of_nat (length (@nil byte) + length (bytes "k") + length [space]
                           + 1 + length [space] + 1);
               PropertyLine.ValueLength :=
                 Some (Z.of_nat (length (bytes "k") + length [space] + 1
                                 + length [space] + 1
                                 + length (bytes "[a] = #;"))) |}].
Proof.
  assert (H0 : Forall blank []) by constructor.
  assert (Hb : Forall blank [space]) by (repeat constructor).
  assert (Hn : Forall plain (bytes "k")) by (repeat constructor).
  assert (Hne : bytes "k" <> []) by discriminate.
  assert (Ht : Forall quotedByte (bytes "[a] = #;")).
  { repeat (constructor; [split; discriminate|]). constructor. }
  assert (Hc : commentText []) by exact I.
  assert (Hr : representable
                 (propertyLineText [] (bytes "k") [space] [space]
                    ([quote] ++ bytes "[a] = #;" ++ [quote]) [] []))
    by (vm_compute; reflexivity).
  split; [exact H0|]. split; [exact Hb|]. split; [exact Hb|]. split; [exact H0|].
  split; [exact Hn|]. split; [exact Hne|]. split; [exact Ht|].
  split; [exact Hc|]. split; [exact Hr|].
  exact (quoted_value_is_inert [] (bytes "k") [space] [space] (bytes "[a] = #;")
           [] [] H0 Hb Hb H0 Hn Hne Ht Hc Hr).
Defined.

(** X19. A line [[name]] is stored as a Section line whose name span is
    what stands between the brackets, whitespace included: the name is made
    of bytes without a meaning of their own and of whitespace, and
    whitespace may stand before the opening and behind the closing
    bracket. *)
Theorem section_line_is_stored ws1 name ws2 :
  Forall blank ws1 -> Forall blank ws2 -> Forall sectionNameByte name ->
  representable (sectionLineText ws1 name ws2) ->
  parse (sectionLineText ws1 name ws2)
  = Some
      [SectionRecord
         {| SectionLine.base :=
              {| Contents := map Some (sectionLineText ws1 name ws2);
                 Length := Z.of_nat (length (sectionLineText ws1 name ws2)) |};
            SectionLine.NameStartIndex := Z.of_nat (length ws1 + 1);
            SectionLine.NameLength := Z.of_nat (length name) |}].
Proof.
  intros H1 H2 Hn Hrep.
  set (b := sectionLineText ws1 name ws2) in *.
  assert (Hrun : exists p,
            run b (ws1 ++ [openBracket] ++ name ++ [closeBracket] ++ ws2)
              MMain (start emptyDocument)
            = (MName false false false, p)
            /\ storedLines (target p) = []
            /\ cursor p
               = ((length ws1 + 1 + length name + 1 + length ws2)%nat,
                  O,
                  Some (length ws1 + 1)%nat,
                  Some (length ws1 + 1 + length name)%nat,
                  None, None, true, false, false)).
  { rewrite run_app, (run_blank b ws1) by auto. cbn [fst snd].
    rewrite run_app, run_cons.
    replace (classify openBracket) with COpenBracket by reflexivity.
    rewrite step_open by reflexivity. cbn [fst snd run].
    rewrite run_app.
    destruct (run_sectionName b name
                (advance
                   (with_name
                      (Some (S (parsePosition
                                  (with_parsePosition
                                     (parsePosition (start emptyDocument)
                                      + length ws1) (start emptyDocument)))))
                      (nameEnd
                         (with_parsePosition
                            (parsePosition (start emptyDocument) + length ws1)
                            (start emptyDocument)))
                      (with_parsePosition
                         (parsePosition (start emptyDocument) + length ws1)
                         (start emptyDocument))))
                (S (length ws1)) Hn eq_refl) as (ne & ->).
    cbn [fst snd].
    rewrite run_app, run_cons.
    replace (classify closeBracket) with CCloseBracket by reflexivity.
    rewrite (step_close b _ (S (length ws1))) by reflexivity. cbn [fst snd run].
    rewrite (run_blank b ws2) by eauto.
    eexists. split; [reflexivity|]. split; [reflexivity|].
    unfold cursor. simpl. repeat f_equal; lia. }
  destruct Hrun as (p & Hrun & Ht & Hcur).
  assert (Hb : b = (ws1 ++ [openBracket] ++ name ++ [closeBracket] ++ ws2)
                   ++ [newline]).
  { unfold b, sectionLineText. rewrite <- !app_assoc. reflexivity. }
  rewrite (parse_one_line b _ _ p Hb Hrun eq_refl Ht).
  rewrite (pendingRecord_section b p _ _ _ _ _ _ Hcur).
  assert (Hlen : length b
                 = S (length ws1 + 1 + length name + 1 + length ws2)).
  { rewrite Hb. repeat rewrite length_app. simpl. repeat rewrite length_app.
    simpl. lia. }
  unfold representable in Hrep. rewrite Hlen in Hrep.
  rewrite !ptrdiff_small by lia.
  replace (Z.to_nat (Z.of_nat (S (length ws1 + 1 + length name + 1 + length ws2))
                     - Z.of_nat 0))
    with (length b) by lia.
  rewrite copy_n_whole, Hlen.
  repeat f_equal; lia.
Qed.

Lemma section_line_is_stored_witness :
  Forall blank [tab] /\ Forall blank [space; carriageReturn]
  /\ Forall sectionNameByte (bytes "My Section")
  /\ representable (sectionLineText [tab] (bytes "My Section") [space; carriageReturn])
  /\ parse (sectionLineText [tab] (bytes "My Section") [space; carriageReturn])
     = Some
         [SectionRecord
            {| SectionLine.base :=
                 {| Contents :=
                      map Some
                        (sectionLineText [tab] (bytes "My Section")
                           [space; carriageReturn]);
                    Length :=
                      Z.of_nat
                        (length
                           (sectionLineText [tab] (bytes "My Section")
                              [space; carriageReturn])) |};
               SectionLine.NameStartIndex := Z.of_nat (length [tab] + 1);
               SectionLine.NameLength := Z.of_nat (length (bytes "My Section")) |}].
Proof.
  assert (H1 : Forall blank [tab]) by (repeat constructor).
  assert (H2 : Forall blank [space; carriageReturn]) by (repeat constructor).
  assert (Hn : Forall sectionNameByte (bytes "My Section")).
  { repeat (constructor; [unfold sectionNameByte; simpl; auto|]). constructor. }
  assert (Hr : representable
                 (sectionLineText [tab] (bytes "My Section") [space; carriageReturn]))
    by (vm_compute; reflexivity).
  split; [exact H1|]. split; [exact H2|]. split; [exact Hn|]. split; [exact Hr|].
  exact (section_line_is_stored [tab] (bytes "My Section") [space; carriageReturn]
           H1 H2 Hn Hr).
Defined.

End WellFormedFacts.

(** * The claims *)

(** ** Files that do not end in a line break *)

(** C1 (defect of the code). Round trip: concatenating the [Contents] of
    the stored lines must give back the file. For the one-byte file [a]
    the loop of [ParseInto] ends at [fileEnd] and the final [submitLine]
    advances [parsePosition] once more before it measures the line: the only
    line stored has [Length] 2, its second byte is read from beyond the
    file, and the concatenation is not the file. *)
Theorem roundtrip_fails_without_final_newline :
  parse (bytes "a")
  = Some [PlainRecord {| Contents := [Some "a"%byte; None]; Length := 2 |}]
  /\ reconstruct [PlainRecord {| Contents := [Some "a"%byte; None]; Length := 2 |}]
     <> map Some (bytes "a").
Proof. split; [vm_compute; reflexivity|discriminate]. Qed.

(** C3 (defect of the code). The last line of a file without a final line
    break must be submitted with a byte span inside the file. For the
    nine-byte file [key=value] one Property line is stored, of [Length] 10:
    its span ends one byte behind the end of the file. *)
Theorem last_line_overruns_buffer :
  option_map (map (fun r => (kindOf r, Length (lineOf r)))) (parse (bytes "key=value"))
  = Some [(KProperty, 10)]
  /\ Z.of_nat (length (bytes "key=value")) = 9
  /\ option_map (map (fun r => List.last (Contents (lineOf r)) None)) (parse (bytes "key=value"))
     = Some [None].
Proof. repeat split; vm_compute; reflexivity. Qed.

(** ** Two sections on one line *)

(** C4 (defect of the code). [[Woop][Woop]] must give two Section lines
    named Woop. At the second opening bracket [nameStart] is still set from
    the first one, so [parseName] takes the malformed branch and never the
    [submitLine] behind it: the whole line is stored as one Malformed
    line. *)
Theorem two_sections_on_one_line_malformed :
  option_map (map (fun r => (kindOf r, Length (lineOf r))))
    (parse (bytes "[Woop][Woop]"))
  = Some [(KMalformed, 13)].
Proof. vm_compute; reflexivity. Qed.

(** ** Quotes *)

(** C7 (defect of the code). A line whose quote is still open at its end
    must be Malformed. [parseName] marks it so at a line break only: the
    file consisting of a quote and [Hello], with no line break behind it,
    is stored as a Plain line, while the same text followed by a line break
    is Malformed. *)
Theorem open_quote_at_end_of_file_not_malformed :
  option_map (map kindOf) (parse (quote :: bytes "Hello")) = Some [KPlain]
  /\ option_map (map kindOf) (parse (quote :: bytes "Hello" ++ [newline]))
     = Some [KMalformed].
Proof. split; vm_compute; reflexivity. Qed.

(** ** The section index *)

(** C9 (defect of the code). The unnamed global section must exist in every
    document and hold the properties assigned before any section. The
    constructors leave [sections] empty and [ParseInto] never calls
    [getOrCreateDefaultSection]: an empty document has no entry under the
    empty name, and after parsing [key = value] the Property line is stored
    but the index is still empty. *)
Theorem global_section_never_created :
  sections emptyDocument !! EmptyString = None
  /\ option_map (fun p => (map kindOf (storedLines (FileParser.target p)),
                          sections (FileParser.target p) !! EmptyString))
       (FileParser.ParseInto (bytes "key = value" ++ [newline]) emptyDocument)
     = Some ([KProperty], None).
Proof. split; vm_compute; reflexivity. Qed.
